(** * hydrateTweet-crunch: the word/emotion frequency processor

    A shallow embedding of [processors/calc_words_frequency.py]:
    the allow-list loader [get_valid_users], the streaming aggregator
    [process_lines] / [process_tweet], the ranker [get_first_n_words] and
    the driver [main].

    Python values are modelled as follows.
    - [int] is [Z] (unbounded).
    - a [dict] is an association list in insertion order: iteration order
      and the order in which [sorted] sees the items are observable in the
      ranked output, so a finite map up to extensional equality would lose
      information.
    - a [set] of user identifiers is a [gset string].
    - the float produced by [/] on two ints is carried in two ways: the
      ranker that [main] writes from keeps the exact rational quotient, in
      lowest terms, which is all that the number, the order and the
      destination of the rows depend on; [Binary64] gives the same ranker
      with the binary64 floats that Python computes, for what is said of
      the ratios themselves.
    - exceptions are values of [exn]; every command is a function from the
      run state to an outcome and a new run state. *)

From Stdlib Require Import Ascii String QArith Qabs SpecFloat.
From stdpp Require Import base option list sorting gmap strings pretty.

Close Scope Q_scope.
Local Open Scope string_scope.
Local Open Scope list_scope.
Local Open Scope Z_scope.

(** ** Exceptions and outcomes *)

Inductive exn : Type :=
| KeyError
| TypeError
| AttributeError
| ValueError
| IndexError
| ZeroDivisionError
| OverflowError
| StopIteration
| SystemExit (code : Z).

Inductive result (A : Type) : Type :=
| Ok (a : A)
| Raise (e : exn).
Arguments Ok {A} a.
Arguments Raise {A} e.

(** ** Python dictionaries, in insertion order *)

Module PyDict.
Section Ops.
Context {V : Type}.

(** [d[k]], [None] standing for [KeyError]. *)
Fixpoint dict_get (k : string) (d : list (string * V)) : option V :=
  match d with
  | [] => None
  | (k', v) :: d' => if String.eqb k' k then Some v else dict_get k d'
  end.

(** [d[k] = v]: an existing key keeps its position, a new key goes last. *)
Fixpoint dict_set (k : string) (v : V) (d : list (string * V))
  : list (string * V) :=
  match d with
  | [] => [(k, v)]
  | (k', v') :: d' =>
      if String.eqb k' k then (k, v) :: d' else (k', v') :: dict_set k v d'
  end.

(** [k in d] *)
Definition dict_mem (k : string) (d : list (string * V)) : bool :=
  match dict_get k d with Some _ => true | None => false end.
End Ops.
End PyDict.
Import PyDict.

(** [len(l)] on a list or on a dictionary. *)
Definition len {A} (l : list A) : Z := Z.of_nat (length l).

(** A value stored in [words_dict]: the two totals are ints, every emotion
    maps to a dictionary from word to occurrence count. *)
Inductive pyval : Type :=
| PInt (z : Z)
| PDict (d : list (string * Z)).

(** [a / b] on ints as the exact quotient, which the float that Python
    returns rounds; [Binary64.truediv] below is that float. *)
Definition py_truediv (a b : Z) : result Q :=
  if Z.eqb b 0 then Raise ZeroDivisionError
  else Ok (Qred (Qdiv (inject_Z a) (inject_Z b))).

(** ** Constants of the module *)

Definition NTWEET : Z := 10000.

Definition RELEVANT_EMOTIONS : list string :=
  ["positive"; "negative"; "anger"; "anticipation"; "disgust"; "fear";
   "joy"; "sadness"; "surprise"; "trust"].

(** ** Run state *)

(** Where rows and the stats report go: [os.devnull] or a file created by
    [fu.output_writer]. *)
Inductive sink : Type :=
| DevNull
| OutFile (path : string).

(** One row of the ranked output. *)
Record row : Type := Row {
  row_word : string;
  row_occurrences : Z;
  row_occ_words : Q;
  row_occ_tweets : Q;
  row_emotion : string
}.

(** Everything the program does to the outside world, in order. *)
Inductive event : Type :=
| Log (msg : string)
| Dot
| Mkdir (path : string)
| OpenWriter (path : string) (compression : option string)
| WriteHeader (out : sink) (fieldnames : list string)
| WriteRow (out : sink) (line : row)
| Close (out : sink)
| RenderStats (out : sink) (words tweets : Z).

(** [stats['performance']['input']]; the two time stamps of the report are
    wall-clock readings and are left out. *)
Record stats_t : Type := Stats {
  stats_words : Z;
  stats_tweets : Z
}.

Record state : Type := State {
  words_dict : list (string * pyval);
  stats : stats_t;
  trace : list event
}.

Definition M (A : Type) : Type := state -> result A * state.

Definition ret {A} (a : A) : M A := fun s => (Ok a, s).
Definition raise {A} (e : exn) : M A := fun s => (Raise e, s).
Definition bind {A B} (m : M A) (k : A -> M B) : M B :=
  fun s => match m s with
           | (Ok a, s') => k a s'
           | (Raise e, s') => (Raise e, s')
           end.

Notation "x <- m ;; k" := (bind m (fun x => k))
  (at level 100, m at next level, right associativity).
Notation "m ;;; k" := (bind m (fun _ => k))
  (at level 100, right associativity).

(** [for x in xs: body x] *)
Fixpoint for_each {A} (xs : list A) (body : A -> M unit) : M unit :=
  match xs with
  | [] => ret tt
  | x :: xs' => body x ;;; for_each xs' body
  end.

Definition emit (e : event) : M unit :=
  fun s => (Ok tt, State (words_dict s) (stats s) (trace s ++ [e])).

Definition log (msg : string) : M unit := emit (Log msg).
Definition dot : M unit := emit Dot.

Definition get_words_dict : M (list (string * pyval)) :=
  fun s => (Ok (words_dict s), s).
Definition put_words_dict (wd : list (string * pyval)) : M unit :=
  fun s => (Ok tt, State wd (stats s) (trace s)).
Definition get_stats : M stats_t := fun s => (Ok (stats s), s).
Definition put_stats (st : stats_t) : M unit :=
  fun s => (Ok tt, State (words_dict s) st (trace s)).

(** [words_dict[key] += 1] for one of the two totals. *)
Definition incr_total (key : string) : M unit :=
  wd <- get_words_dict ;;
  match dict_get key wd with
  | None => raise KeyError
  | Some (PDict _) => raise TypeError
  | Some (PInt z) => put_words_dict (dict_set key (PInt (z + 1)) wd)
  end.

(** The body of [if emotion in RELEVANT_EMOTIONS]:
    [words_dict[emotion][word]] is created at 1 or incremented. *)
Definition count_word (emotion word : string) : M unit :=
  wd <- get_words_dict ;;
  match dict_get emotion wd with
  | None => raise KeyError
  | Some (PInt _) => raise TypeError
  | Some (PDict ws) =>
      if negb (dict_mem word ws)
      then put_words_dict (dict_set emotion (PDict (dict_set word 1 ws)) wd)
      else match dict_get word ws with
           | None => raise KeyError
           | Some c =>
               put_words_dict
                 (dict_set emotion (PDict (dict_set word (c + 1) ws)) wd)
           end
  end.

(** [stats['performance']['input']['words'] += 1] and the same for
    ['tweets']. *)
Definition incr_stats_words : M unit :=
  st <- get_stats ;;
  put_stats (Stats (stats_words st + 1) (stats_tweets st)).

Definition incr_stats_tweets : M unit :=
  st <- get_stats ;;
  put_stats (Stats (stats_words st) (stats_tweets st + 1)).

(** ** Command line arguments and input records *)

Record args_t : Type := Args {
  n_words : Z;
  users_file : option string;
  dry_run : bool;
  output_dir_path : string;
  output_compression : option string
}.

(** A post: the fields the processor reads. [tweet_user_id] is
    [tweet['user']['id']]. *)
Record tweet_t : Type := Tweet {
  tweet_full_text : string;
  tweet_user_id : Z;
  tweet_lang : string
}.

(** What iterating over a reader of the users file produces: a record
    (field name to value), or the exception raised at that point. *)
Inductive read_item : Type :=
| Yields (user : list (string * string))
| Fails (e : exn).

(** The value bound to [valid_users]: [None], a set, or the dictionary
    that the tabular branch of [get_valid_users] creates. *)
Inductive users_val : Type :=
| UNone
| USet (ids : gset string)
| UDict (d : list (string * string)).

(** Truth value of [valid_users]. *)
Definition users_truthy (v : users_val) : bool :=
  match v with
  | UNone => false
  | USet ids => negb (bool_decide (ids = ∅))
  | UDict d => negb (bool_decide (d = []))
  end.

(** [user_id in valid_users] *)
Definition users_contains (user_id : string) (v : users_val) : result bool :=
  match v with
  | UNone => Raise TypeError
  | USet ids => Ok (bool_decide (user_id ∈ ids))
  | UDict d => Ok (dict_mem user_id d)
  end.

(** [str(x)] on an int. *)
Definition str (z : Z) : string := pretty z.

(** ** Sorting by count, largest first

    [sorted(words.items(), key=lambda item: item[1], reverse=True)]:
    Python's sort is stable, also under [reverse=True], so items with the
    same count stay in dictionary order. *)

Fixpoint insert_desc (x : string * Z) (l : list (string * Z))
  : list (string * Z) :=
  match l with
  | [] => [x]
  | y :: l' => if Z.leb y.2 x.2 then x :: y :: l' else y :: insert_desc x l'
  end.

Definition sorted_desc (items : list (string * Z)) : list (string * Z) :=
  foldr insert_desc [] items.

(** ** The ranker *)

(** [words[word] / words_dict[key]] *)
Definition ratio (occ : Z) (key : string) (wd : list (string * pyval))
  : result Q :=
  match dict_get key wd with
  | None => Raise KeyError
  | Some (PDict _) => Raise TypeError
  | Some (PInt total) => py_truediv occ total
  end.

(** The dictionary yielded for [word]; the entries are evaluated in the
    order in which they are written. *)
Definition make_row (wd : list (string * pyval)) (emotion : string)
    (words : list (string * Z)) (word : string) : result row :=
  match dict_get word words with
  | None => Raise KeyError
  | Some occ =>
      match ratio occ "words" wd with
      | Raise e => Raise e
      | Ok per_word =>
          match ratio occ "tweets" wd with
          | Raise e => Raise e
          | Ok per_tweet => Ok (Row word occ per_word per_tweet emotion)
          end
      end
  end.

(** A generator that has run to its end: the rows it yielded and the
    exception that stopped it, if any. *)
Definition generated : Type := list row * option exn.

(** [for i in range(n_words): word = sorted_words[i]; yield {...}] *)
Fixpoint yield_rows (wd : list (string * pyval)) (emotion : string)
    (words : list (string * Z)) (sorted_words : list string)
    (indices : list nat) : generated :=
  match indices with
  | [] => ([], None)
  | i :: indices' =>
      match sorted_words !! i with
      | None => ([], Some IndexError)
      | Some word =>
          match make_row wd emotion words word with
          | Raise e => ([], Some e)
          | Ok r =>
              let '(rs, stop) :=
                yield_rows wd emotion words sorted_words indices' in
              (r :: rs, stop)
          end
      end
  end.

(** The rows of one emotion. *)
Definition rank_emotion (wd : list (string * pyval)) (top : Z)
    (emotion : string) (words : list (string * Z)) : generated :=
  let sorted_words := (sorted_desc words).*1 in
  let n := if Z.geb (len sorted_words) top then top else len sorted_words in
  yield_rows wd emotion words sorted_words (seq 0 (Z.to_nat n)).

(** [for emotion, words in words_dict.items()] *)
Fixpoint rank_items (wd : list (string * pyval)) (top : Z)
    (items : list (string * pyval)) : generated :=
  match items with
  | [] => ([], None)
  | (emotion, words) :: items' =>
      if bool_decide (emotion ∈ RELEVANT_EMOTIONS) then
        match words with
        | PInt _ => ([], Some AttributeError)
        | PDict words =>
            match rank_emotion wd top emotion words with
            | (rs, Some e) => (rs, Some e)
            | (rs, None) =>
                let '(rs', stop) := rank_items wd top items' in
                (rs ++ rs', stop)
            end
        end
      else rank_items wd top items'
  end.

Definition get_first_n_words (st : stats_t) (wd : list (string * pyval))
    (args : args_t) : generated :=
  rank_items wd (n_words args) wd.

(** [re.split('-|\.', basename)] *)
Definition is_separator (c : Ascii.ascii) : bool :=
  Ascii.eqb c "-"%char || Ascii.eqb c "."%char.

Fixpoint re_split (s : string) : list string :=
  match s with
  | EmptyString => [""]
  | String c s' =>
      if is_separator c then "" :: re_split s'
      else match re_split s' with
           | [] => [String c ""]
           | piece :: pieces => String c piece :: pieces
           end
  end.

(** [path_list[i]] *)
Definition index (l : list string) (i : nat) : M string :=
  match l !! i with
  | Some x => ret x
  | None => raise IndexError
  end.

Definition newline : string := String "010"%char "".

(** How [None] or a language code prints inside an f-string. *)
Definition format_lang (lang : option string) : string :=
  match lang with
  | None => "None"
  | Some l => l
  end.

Definition fieldnames : list string :=
  ["word"; "occurrences"; "occ/words"; "occ/tweets"; "emotion"].

(** [words_dict] as [main] builds it before the dump is read. *)
Definition initial_words_dict : list (string * pyval) :=
  dict_set "tweets" (PInt 0)
    (dict_set "words" (PInt 0)
       (foldl (fun d emotion => dict_set emotion (PDict []) d)
              [] RELEVANT_EMOTIONS)).

(** ** Reading the aggregation state *)

(** [total_words_matched] and [total_posts] are [total "words"] and
    [total "tweets"]. *)
Definition total (key : string) (wd : list (string * pyval)) : Z :=
  match dict_get key wd with
  | Some (PInt z) => z
  | _ => 0
  end.

(** The word counters of an emotion. *)
Definition emotion_words (emotion : string) (wd : list (string * pyval))
  : list (string * Z) :=
  match dict_get emotion wd with
  | Some (PDict ws) => ws
  | _ => []
  end.

(** The occurrence count of a word under an emotion, 0 when the word has
    no entry. *)
Definition count (emotion word : string) (wd : list (string * pyval)) : Z :=
  match dict_get word (emotion_words emotion wd) with
  | Some c => c
  | None => 0
  end.

(** Keys of [words_dict] and the kind of value under each. *)
Definition is_dict (v : pyval) : bool :=
  match v with PDict _ => true | PInt _ => false end.

Definition shape (wd : list (string * pyval)) : list (string * bool) :=
  (fun kv => (kv.1, is_dict kv.2)) <$> wd.

(** [words_dict] has the keys [main] gave it, a dictionary under every
    emotion and an int under the two totals. *)
Definition shaped (wd : list (string * pyval)) : Prop :=
  shape wd = shape initial_words_dict.

(** ** The ranker with the floats of the ratios

    [a / b] on two ints is a float: the binary64 number nearest to the
    quotient, the even mantissa on a tie; a zero divisor raises
    [ZeroDivisionError], and a quotient that rounds beyond the largest
    float raises [OverflowError]. The floats, their rounding and their
    division are those of the IEEE 754 specification of the Standard
    Library, [SFdiv] at the precision of 53 bits. *)
Module Binary64.

Definition prec : Z := 53.
Definition emax : Z := 1024.

(** An int as an operand of the division: its sign and its magnitude,
    exact, whatever its size. *)
Definition operand (a : Z) : spec_float :=
  match a with
  | Z0 => S754_zero false
  | Zpos m => S754_finite false m 0
  | Zneg m => S754_finite true m 0
  end.

(** [a / b] *)
Definition truediv (a b : Z) : result spec_float :=
  if Z.eqb b 0 then Raise ZeroDivisionError
  else match SFdiv prec emax (operand a) (operand b) with
       | S754_infinity _ => Raise OverflowError
       | q => Ok q
       end.

(** [N / D] lies where [l] says between [m] and [m + 1]: on [m], below
    the middle, on the middle, or above it. *)
Definition located (N D m : Z) (l : location) : Prop :=
  match l with
  | loc_Exact => N = m * D
  | loc_Inexact Lt => m * D < N /\ 2 * N < (2 * m + 1) * D
  | loc_Inexact Eq => 2 * N = (2 * m + 1) * D
  | loc_Inexact Gt => (2 * m + 1) * D < 2 * N /\ N < (m + 1) * D
  end.

(** 2 to the power of [e], also for a negative [e]. *)
Definition pow2 (e : Z) : Q :=
  Qdiv (inject_Z (2 ^ Z.max e 0)) (inject_Z (2 ^ Z.max (- e) 0)).

(** The number a float stands for, in lowest terms. *)
Definition value (x : spec_float) : option Q :=
  match x with
  | S754_zero _ => Some (inject_Z 0)
  | S754_finite s m e =>
      Some (Qred (Qmult (inject_Z (cond_Zopp s (Zpos m))) (pow2 e)))
  | S754_infinity _ | S754_nan => None
  end.

(** The unit in the last place of a float: the weight of the last bit of
    its mantissa, which for a zero is the least weight there is. *)
Definition ulp (x : spec_float) : Q :=
  match x with
  | S754_finite _ _ e => pow2 e
  | _ => pow2 (-1074)
  end.

(** [x] is a binary64 number, and it differs from [a / b] by at most half
    a unit in its last place. *)
Definition rounds (x : spec_float) (a b : Z) : Prop :=
  valid_binary prec emax x = true
  /\ exists q,
       value x = Some q
       /\ Qle (Qabs (Qminus q (Qdiv (inject_Z a) (inject_Z b))))
              (Qdiv (ulp x) (inject_Z 2)).

(** One row of the ranked output. *)
Record row : Type := Row {
  row_word : string;
  row_occurrences : Z;
  row_occ_words : spec_float;
  row_occ_tweets : spec_float;
  row_emotion : string
}.

(** [words[word] / words_dict[key]] *)
Definition ratio (occ : Z) (key : string) (wd : list (string * pyval))
  : result spec_float :=
  match dict_get key wd with
  | None => Raise KeyError
  | Some (PDict _) => Raise TypeError
  | Some (PInt total) => truediv occ total
  end.

(** The dictionary yielded for [word]; the entries are evaluated in the
    order in which they are written. *)
Definition make_row (wd : list (string * pyval)) (emotion : string)
    (words : list (string * Z)) (word : string) : result row :=
  match dict_get word words with
  | None => Raise KeyError
  | Some occ =>
      match ratio occ "words" wd with
      | Raise e => Raise e
      | Ok per_word =>
          match ratio occ "tweets" wd with
          | Raise e => Raise e
          | Ok per_tweet => Ok (Row word occ per_word per_tweet emotion)
          end
      end
  end.

(** A generator that has run to its end: the rows it yielded and the
    exception that stopped it, if any. *)
Definition generated : Type := list row * option exn.

(** [for i in range(n_words): word = sorted_words[i]; yield {...}] *)
Fixpoint yield_rows (wd : list (string * pyval)) (emotion : string)
    (words : list (string * Z)) (sorted_words : list string)
    (indices : list nat) : generated :=
  match indices with
  | [] => ([], None)
  | i :: indices' =>
      match sorted_words !! i with
      | None => ([], Some IndexError)
      | Some word =>
          match make_row wd emotion words word with
          | Raise e => ([], Some e)
          | Ok r =>
              let '(rs, stop) :=
                yield_rows wd emotion words sorted_words indices' in
              (r :: rs, stop)
          end
      end
  end.

(** The rows of one emotion. *)
Definition rank_emotion (wd : list (string * pyval)) (top : Z)
    (emotion : string) (words : list (string * Z)) : generated :=
  let sorted_words := (sorted_desc words).*1 in
  let n := if Z.geb (len sorted_words) top then top else len sorted_words in
  yield_rows wd emotion words sorted_words (seq 0 (Z.to_nat n)).

(** [for emotion, words in words_dict.items()] *)
Fixpoint rank_items (wd : list (string * pyval)) (top : Z)
    (items : list (string * pyval)) : generated :=
  match items with
  | [] => ([], None)
  | (emotion, words) :: items' =>
      if bool_decide (emotion ∈ RELEVANT_EMOTIONS) then
        match words with
        | PInt _ => ([], Some AttributeError)
        | PDict words =>
            match rank_emotion wd top emotion words with
            | (rs, Some e) => (rs, Some e)
            | (rs, None) =>
                let '(rs', stop) := rank_items wd top items' in
                (rs ++ rs', stop)
            end
        end
      else rank_items wd top items'
  end.

Definition get_first_n_words (st : stats_t) (wd : list (string * pyval))
    (args : args_t) : generated :=
  rank_items wd (n_words args) wd.

(** The floats 0.5 and 1.25. *)
Definition half : spec_float := S754_finite false 4503599627370496 (-53).
Definition five_quarters : spec_float :=
  S754_finite false 5629499534213120 (-52).

End Binary64.

(** ** The user inference processor: preprocessing

    [processors/infer_users.py] up to the call of the inference model:
    [init_user], the generator [process_lines] and the loop of [main]
    that consumes it. The model [M3Twitter] and [os.path.exists] are
    parameters. A generator is a loop that hands every yielded object to
    its consumer before it goes on, which is the order in which Python
    runs the two bodies. *)

Module InferUsers.

(** A value of a user record or of an object handed to the model. *)
Inductive pyobj : Type :=
| PNone
| PBool (b : bool)
| PNum (z : Z)
| PStr (s : string).

(** [a == b]; [True] and [False] compare as 1 and 0. *)
Definition py_eq (a b : pyobj) : bool :=
  match a, b with
  | PNone, PNone => true
  | PStr s, PStr s' => String.eqb s s'
  | PNum z, PNum z' => Z.eqb z z'
  | PBool c, PBool c' => Bool.eqb c c'
  | PBool c, PNum z | PNum z, PBool c => Z.eqb (if c then 1 else 0) z
  | _, _ => false
  end.

(** The dictionary [shared], keyed by whatever [id_str] holds. *)
Fixpoint shared_get (k : pyobj) (d : list (pyobj * list (string * pyobj)))
  : option (list (string * pyobj)) :=
  match d with
  | [] => None
  | (k', v) :: d' => if py_eq k' k then Some v else shared_get k d'
  end.

Fixpoint shared_set (k : pyobj) (v : list (string * pyobj))
    (d : list (pyobj * list (string * pyobj)))
  : list (pyobj * list (string * pyobj)) :=
  match d with
  | [] => [(k, v)]
  | (k', v') :: d' =>
      if py_eq k' k then (k', v) :: d' else (k', v') :: shared_set k v d'
  end.

Definition fieldnames : list string :=
  ["id_str"; "screen_name"; "name"; "tweets"; "days_tweeted"; "location";
   "gender"; "gender_acc"; "age"; "age_acc"; "age_>=40_acc";
   "age_30-39_acc"; "age_19-29_acc"; "age_<=18_acc"; "org"; "org_acc"].

(** [user[key]] *)
Definition field (user : list (string * pyobj)) (key : string)
  : result pyobj :=
  match dict_get key user with
  | Some v => Ok v
  | None => Raise KeyError
  end.

Definition init_user (user : list (string * pyobj))
  : result (list (string * pyobj)) :=
  match field user "id_str" with
  | Raise e => Raise e
  | Ok id_str =>
  match field user "screen_name" with
  | Raise e => Raise e
  | Ok screen_name =>
  match field user "name" with
  | Raise e => Raise e
  | Ok name =>
  match field user "tweets" with
  | Raise e => Raise e
  | Ok tweets =>
  match field user "days_tweeted" with
  | Raise e => Raise e
  | Ok days_tweeted =>
  match field user "location" with
  | Raise e => Raise e
  | Ok location =>
      Ok [("id_str", id_str); ("screen_name", screen_name); ("name", name);
          ("tweets", tweets); ("days_tweeted", days_tweeted);
          ("location", location); ("gender", PStr "");
          ("gender_acc", PNum (-1)); ("age", PStr "");
          ("age_acc", PNum (-1)); ("age_>=40_acc", PNum (-1));
          ("age_30-39_acc", PNum (-1)); ("age_19-29_acc", PNum (-1));
          ("age_<=18_acc", PNum (-1)); ("org", PBool false);
          ("org_acc", PNum (-1))]
  end end end end end end.

(** [stats['performance']['input']] *)
Record stats_t : Type := Stats {
  users : Z;
  to_infer : Z;
  img_errors : Z
}.

(** The stats, [shared], and the objects written to the input file of the
    model, oldest first. *)
Record state : Type := State {
  stats : stats_t;
  shared : list (pyobj * list (string * pyobj));
  written : list (list (string * pyobj))
}.

Definition count_user (s : state) : state :=
  State (Stats (users (stats s) + 1) (to_infer (stats s))
               (img_errors (stats s)))
        (shared s) (written s).

Definition count_to_infer (s : state) : state :=
  State (Stats (users (stats s)) (to_infer (stats s) + 1)
               (img_errors (stats s)))
        (shared s) (written s).

Definition count_img_error (s : state) : state :=
  State (Stats (users (stats s)) (to_infer (stats s))
               (img_errors (stats s) + 1))
        (shared s) (written s).

Section Preprocess.
(** [int] on a string, [os.path.exists], the default image of the model
    and its [transform_jsonl_object]. *)
Variable int_of_str : string -> result Z.
Variable path_exists : pyobj -> result bool.
Variable TW_DEFAULT_PROFILE_IMG : string.
Variable transform_jsonl_object :
  list (string * pyobj) -> result (list (string * pyobj)).

(** [int(x)] *)
Definition int (x : pyobj) : result Z :=
  match x with
  | PNum z => Ok z
  | PBool b => Ok (if b then 1 else 0)
  | PStr s => int_of_str s
  | PNone => Raise TypeError
  end.

(** ['tweets' in user and int(user['tweets']) >= args.min_tweets] *)
Definition reaches_minimum (min_tweets : Z) (user : list (string * pyobj))
  : result bool :=
  match dict_get "tweets" user with
  | None => Ok false
  | Some tweets =>
      match int tweets with
      | Raise e => Raise e
      | Ok n => Ok (Z.geb n min_tweets)
      end
  end.

(** The body of [for obj in res] in [main]. *)
Definition write_object (obj : list (string * pyobj)) (s : state)
  : result unit * state :=
  match field obj "img_path" with
  | Raise e => (Raise e, s)
  | Ok img_path =>
      match path_exists img_path with
      | Raise e => (Raise e, s)
      | Ok true =>
          (Ok tt, State (stats s) (shared s) (written s ++ [obj]))
      | Ok false =>
          let obj := dict_set "img_path" (PStr TW_DEFAULT_PROFILE_IMG) obj in
          let s := count_img_error s in
          (Ok tt, State (stats s) (shared s) (written s ++ [obj]))
      end
  end.

(** The body of [if ... >= args.min_tweets], up to and with the [yield]. *)
Definition prepare_user (user : list (string * pyobj))
    (consume : list (string * pyobj) -> state -> result unit * state)
    (s : state) : result unit * state :=
  let s := count_to_infer s in
  match init_user user with
  | Raise e => (Raise e, s)
  | Ok entry =>
      match field user "id_str" with
      | Raise e => (Raise e, s)
      | Ok id_str =>
          let s := State (stats s) (shared_set id_str entry (shared s))
                         (written s) in
          match field user "profile_image_url_https" with
          | Raise e => (Raise e, s)
          | Ok url =>
              let '(user, s) :=
                if py_eq url (PStr "")
                then (dict_set "default_profile_image" (PBool true) user,
                      count_img_error s)
                else (user, s) in
              match transform_jsonl_object user with
              | Raise e => (Raise e, s)
              | Ok obj => consume obj s
              end
          end
      end
  end.

Fixpoint process_lines (dump : list (list (string * pyobj)))
    (min_tweets : Z)
    (consume : list (string * pyobj) -> state -> result unit * state)
    (s : state) : result unit * state :=
  match dump with
  | [] => (Ok tt, s)
  | user :: dump' =>
      let s := count_user s in
      match reaches_minimum min_tweets user with
      | Raise e => (Raise e, s)
      | Ok false => process_lines dump' min_tweets consume s
      | Ok true =>
          match prepare_user user consume s with
          | (Raise e, s') => (Raise e, s')
          | (Ok _, s') => process_lines dump' min_tweets consume s'
          end
      end
  end.

(** The preprocessing of [main]: the stats start at 0 and the generator
    is consumed to its end. *)
Definition preprocess (dump : list (list (string * pyobj)))
    (min_tweets : Z) (shared0 : list (pyobj * list (string * pyobj)))
  : result unit * state :=
  process_lines dump min_tweets write_object (State (Stats 0 0 0) shared0 []).

(** The user is one the generator yields an object for. *)
Definition selects (min_tweets : Z) (user : list (string * pyobj)) : bool :=
  match reaches_minimum min_tweets user with
  | Ok true => true
  | _ => false
  end.

(** Number of users of a dump that reach the minimum. *)
Definition selected (min_tweets : Z) (dump : list (list (string * pyobj)))
  : Z :=
  len (filter (fun user => selects min_tweets user = true) dump).

End Preprocess.

(** A user record and collaborators for examples. *)
Definition example_user (id tweets url : string) : list (string * pyobj) :=
  [("id_str", PStr id); ("screen_name", PStr "s"); ("name", PStr "n");
   ("tweets", PStr tweets); ("days_tweeted", PNum 1);
   ("location", PStr ""); ("profile_image_url_https", PStr url)].

Definition example_int (s : string) : result Z :=
  if String.eqb s "5" then Ok 5
  else if String.eqb s "1" then Ok 1
  else Raise ValueError.

Definition example_transform (user : list (string * pyobj))
  : result (list (string * pyobj)) :=
  match dict_get "id_str" user, dict_get "profile_image_url_https" user with
  | Some id, Some url => Ok [("id", id); ("img_path", url)]
  | _, _ => Raise KeyError
  end.

Definition example_exists (path : pyobj) : result bool :=
  Ok (py_eq path (PStr "cache/a.jpg")).

Definition example_dump : list (list (string * pyobj)) :=
  [example_user "1" "5" "cache/a.jpg"; example_user "2" "1" "";
   [("id_str", PStr "3")]; example_user "4" "5" ""].

End InferUsers.

(** ** A small lexicon and a small file system

    Concrete collaborators, used to run the processor on examples. *)

Module Demo.

Inductive Emotions : Type :=
| ANGER | JOY | POSITIVE | NEGATIVE | TRUST | ANY.

Definition getEmotionName (e : Emotions) : string :=
  match e with
  | ANGER => "anger"
  | JOY => "joy"
  | POSITIVE => "positive"
  | NEGATIVE => "negative"
  | TRUST => "trust"
  | ANY => "any"
  end.

Definition initEmotionLexicon (lang : string) : bool := String.eqb lang "en".

(** Tokens are the pieces between spaces. *)
Fixpoint tokenize (text : string) : list string :=
  match text with
  | EmptyString => [""]
  | String c text' =>
      if Ascii.eqb c " "%char then "" :: tokenize text'
      else match tokenize text' with
           | [] => [String c ""]
           | piece :: pieces => String c piece :: pieces
           end
  end.

Definition getEmotionsOfWord (word : string) : list Emotions :=
  if String.eqb word "happy" then [JOY; POSITIVE; TRUST; ANY]
  else if String.eqb word "glad" then [JOY; POSITIVE]
  else if String.eqb word "mad" then [ANGER; NEGATIVE]
  else if String.eqb word "thing" then [ANY]
  else [].

(** Three files: JSON objects, a table with a header and one row, and a
    file with no record at all. *)
Definition path_exists (path : string) : bool :=
  String.eqb path "users.json" || String.eqb path "users.csv"
  || String.eqb path "empty.json".

Definition open_jsonobjects_file (path : string) : list read_item :=
  if String.eqb path "users.json"
  then [Yields [("id_str", "12")]; Yields [("id_str", "14")]]
  else if String.eqb path "users.csv" then [Fails ValueError]
  else [].

Definition open_csv_file (path : string) : list read_item :=
  if String.eqb path "users.csv" then [Yields [("id_str", "12")]]
  else if String.eqb path "users.json" then [Fails ValueError]
  else [].

Definition dump : list tweet_t :=
  [Tweet "happy mad happy thing so" 12 "en";
   Tweet "glad glad" 13 "en";
   Tweet "nothing here" 12 "en"].

Definition start : state := State initial_words_dict (Stats 0 0) [].

Definition tweet : tweet_t := Tweet "happy mad happy thing so" 12 "en".

(** No users file; the users file of JSON objects; the table; the file
    without records; a file that does not exist. *)
Definition unfiltered : args_t := Args 30 None false "out" None.
Definition filtered : args_t := Args 30 (Some "users.json") false "out" None.
Definition tabular : args_t := Args 30 (Some "users.csv") false "out" None.
Definition missing : args_t := Args 30 (Some "nowhere") false "out" None.

(** Four posts with ten tokens of the lexicon, "happy" five times. *)
Definition ratio_dump : list tweet_t :=
  [Tweet "happy happy happy" 1 "en"; Tweet "happy happy mad" 2 "en";
   Tweet "mad mad" 3 "en"; Tweet "mad mad" 4 "en"].

Definition basename : string := "tweets-en-2020-01-02.json".

End Demo.

(** ** The processor, over its collaborators

    The lexicon ([emotion_lexicon]) and the file readers ([file_utils],
    [csv], [os.path]) are other modules: the processor is defined for any
    behaviour of theirs. *)

Section Processor.
(** The enumeration of lexicon emotions and its printer. *)
Variable Emotions : Type.
Variable getEmotionName : Emotions -> string.
(** Loading the lexicon of a language; [false] when there is none. *)
Variable initEmotionLexicon : string -> bool.
(** Tokens of a text and the emotions of a token in the loaded lexicon. *)
Variable tokenize : string -> list string.
Variable getEmotionsOfWord : string -> list Emotions.

(** [os.path.exists], and what reading the file at a path yields as JSON
    objects ([fu.open_jsonobjects_file]) and as rows of a
    [csv.DictReader] over [fu.open_csv_file]. *)
Variable path_exists : string -> bool.
Variable open_jsonobjects_file : string -> list read_item.
Variable open_csv_file : string -> list read_item.

(** [valid_users.add]: a set has the method, a dictionary (and [None])
    does not. The attribute is looked up before the argument is
    evaluated. *)
Definition users_add (valid_users : users_val)
  : result (string -> users_val) :=
  match valid_users with
  | USet ids => Ok (fun id => USet ({[ id ]} ∪ ids))
  | UDict _ | UNone => Raise AttributeError
  end.

(** [for user in reader: valid_users.add(user["id_str"])], the loop of
    both branches of [get_valid_users]. *)
Fixpoint collect_users (reader : list read_item) (valid_users : users_val)
  : result users_val :=
  match reader with
  | [] => Ok valid_users
  | Fails e :: _ => Raise e
  | Yields user :: reader' =>
      match users_add valid_users with
      | Raise e => Raise e
      | Ok add =>
          match dict_get "id_str" user with
          | None => Raise KeyError
          | Some id => collect_users reader' (add id)
          end
      end
  end.

Definition get_valid_users (args : args_t) : M users_val :=
  match users_file args with
  | None => raise TypeError
  | Some path =>
      if path_exists path then
        match collect_users (open_jsonobjects_file path) (USet ∅) with
        | Ok valid_users => ret valid_users
        | Raise _ =>
            match collect_users (open_csv_file path) (UDict []) with
            | Ok valid_users => ret valid_users
            | Raise _ =>
                log "The file is neither a .json nor a .csv" ;;;
                ret UNone
            end
        end
      else ret UNone
  end.

(** The body of [for word in tokenize(full_text)]. *)
Definition process_word (word : string) : M unit :=
  let emotions := getEmotionsOfWord word in
  (if negb (bool_decide (emotions = []))
   then incr_stats_words ;;; incr_total "words"
   else ret tt) ;;;
  for_each emotions (fun emotion =>
    let emotion := getEmotionName emotion in
    if bool_decide (emotion ∈ RELEVANT_EMOTIONS)
    then count_word emotion word
    else ret tt).

Definition process_tweet (tweet : tweet_t) (valid_users : users_val)
    (args : args_t) : M unit :=
  let full_text := tweet_full_text tweet in
  let user_id := str (tweet_user_id tweet) in
  skip <- match users_file args with
          | None => ret false
          | Some _ =>
              match users_contains user_id valid_users with
              | Ok b => ret (negb b)
              | Raise e => raise e
              end
          end ;;
  if skip : bool then ret tt
  else
    for_each (tokenize full_text) process_word ;;;
    incr_total "tweets" ;;;
    incr_stats_tweets ;;;
    st <- get_stats ;;
    let nobjs := stats_tweets st in
    if Z.eqb ((nobjs - 1) mod NTWEET) 0 then dot else ret tt.

(** The part of [process_lines] after the users file has been dealt
    with. *)
Definition process_dump (first : tweet_t) (dump : list tweet_t)
    (valid_users : users_val) (args : args_t) : M (option string) :=
  let lang := tweet_lang first in
  if initEmotionLexicon lang then
    process_tweet first valid_users args ;;;
    for_each dump (fun raw_obj => process_tweet raw_obj valid_users args) ;;;
    ret (Some lang)
  else ret None.

Definition process_lines (dump : list tweet_t) (args : args_t)
  : M (option string) :=
  match dump with
  | [] => raise StopIteration
  | first :: dump' =>
      match users_file args with
      | Some _ =>
          log "Specified a set of users to filter the tweet" ;;;
          valid_users <- get_valid_users args ;;
          if negb (users_truthy valid_users) then
            log ("The file of valid users could not be found" +:+ newline)
              ;;;
            ret None
          else process_dump first dump' valid_users args
      | None => process_dump first dump' UNone args
      end
  end.

(** The two sinks [main] ends up writing to. *)
Definition open_outputs (basename : string) (args : args_t)
    (lang : option string) (path_list : list string) (date : string)
  : M (sink * sink) :=
  if negb (dry_run args) then
    let stats_path :=
      output_dir_path args +:+ "/words-frequency/stats/" +:+ format_lang lang in
    emit (Mkdir stats_path) ;;;
    let varname := basename +:+ "." +:+ "calc-words-frequency" in
    let stats_filename := stats_path +:+ "/" +:+ varname +:+ ".stats.xml" in
    emit (OpenWriter stats_filename (output_compression args)) ;;;
    match lang with
    | Some l =>
        let file_path := output_dir_path args +:+ "/words-frequency" in
        emit (Mkdir file_path) ;;;
        p0 <- index path_list 0 ;;
        p1 <- index path_list 1 ;;
        let output_filename :=
          file_path +:+ "/" +:+ l +:+ "-" +:+ p0 +:+ "-" +:+ p1 +:+ "-" +:+ date
            +:+ "-top-" +:+ str (n_words args) +:+ "-words.csv" in
        emit (OpenWriter output_filename (output_compression args)) ;;;
        ret (OutFile output_filename, OutFile stats_filename)
    | None => ret (DevNull, OutFile stats_filename)
    end
  else ret (DevNull, DevNull).

Definition main (dump : list tweet_t) (basename : string) (args : args_t)
  : M unit :=
  put_stats (Stats 0 0) ;;;
  if Z.leb (n_words args) 0 then
    log "the parameter --n-words cannot be lower than 1, exiting..." ;;;
    raise (SystemExit 1)
  else
    put_words_dict initial_words_dict ;;;
    lang <- process_lines dump args ;;
    let path_list := re_split basename in
    p2 <- index path_list 2 ;;
    p3 <- index path_list 3 ;;
    p4 <- index path_list 4 ;;
    let date := p2 +:+ "-" +:+ p3 +:+ "-" +:+ p4 in
    sinks <- open_outputs basename args lang path_list date ;;
    let '(output, stats_output) := sinks in
    emit (WriteHeader output fieldnames) ;;;
    st <- get_stats ;;
    wd <- get_words_dict ;;
    let '(lines, stop) := get_first_n_words st wd args in
    for_each lines (fun line => emit (WriteRow output line)) ;;;
    match stop with Some e => raise e | None => ret tt end ;;;
    emit (Close output) ;;;
    st <- get_stats ;;
    emit (RenderStats stats_output (stats_words st) (stats_tweets st)) ;;;
    emit (Close stats_output) ;;;
    emit (Close stats_output).


(** ** The aggregation as a function on [words_dict]

    What the loops of [process_tweet] compute, stated without the run
    state; the lemmas below show that the commands compute exactly this
    once [words_dict] has the shape [main] gives it. *)

(** [words_dict[key] += 1] *)
Definition add_total (key : string) (wd : list (string * pyval))
  : list (string * pyval) :=
  dict_set key (PInt (total key wd + 1)) wd.

(** One more occurrence of [word] under [emotion]. *)
Definition bump (emotion word : string) (wd : list (string * pyval))
  : list (string * pyval) :=
  dict_set emotion
    (PDict (dict_set word (count emotion word wd + 1)
              (emotion_words emotion wd)))
    wd.

(** The names of the emotions of a token, in iteration order, and those of
    them that are tracked. *)
Definition emotion_names (word : string) : list string :=
  getEmotionName <$> getEmotionsOfWord word.

Definition relevant_names (word : string) : list string :=
  filter (fun e => e ∈ RELEVANT_EMOTIONS) (emotion_names word).

(** 1 when the lexicon knows the token, 0 otherwise. *)
Definition matched (word : string) : Z :=
  if bool_decide (getEmotionsOfWord word = []) then 0 else 1.

Definition tally_word (wd : list (string * pyval)) (word : string)
  : list (string * pyval) :=
  foldl (fun wd e => bump e word wd)
        (if bool_decide (getEmotionsOfWord word = []) then wd
         else add_total "words" wd)
        (relevant_names word).

Definition tally_tweet (wd : list (string * pyval)) (tweet : tweet_t)
  : list (string * pyval) :=
  add_total "tweets" (foldl tally_word wd (tokenize (tweet_full_text tweet))).

(** Number of tokens in a list that the lexicon knows. *)
Definition matched_tokens (tokens : list string) : Z :=
  len (filter (fun w => getEmotionsOfWord w ≠ []) tokens).

(** Number of times [x] appears in a list. *)
Definition occurrences (x : string) (l : list string) : Z :=
  len (filter (fun y => y = x) l).

(** Whether the user filter lets a post through. *)
Definition passes_filter (args : args_t) (valid_users : users_val)
    (tweet : tweet_t) : bool :=
  match users_file args with
  | None => true
  | Some _ =>
      match users_contains (str (tweet_user_id tweet)) valid_users with
      | Ok b => b
      | Raise _ => false
      end
  end.

(** The progress dot of a counted post. *)
Definition progress_dot (tweets_before : Z) : list event :=
  if Z.eqb ((tweets_before + 1 - 1) mod NTWEET) 0 then [Dot] else [].

(** The value [get_valid_users] returns for the configured users file. *)
Definition loaded_users (args : args_t) : users_val :=
  match users_file args with
  | None => UNone
  | Some path =>
      if path_exists path then
        match collect_users (open_jsonobjects_file path) (USet ∅) with
        | Ok valid_users => valid_users
        | Raise _ =>
            match collect_users (open_csv_file path) (UDict []) with
            | Ok valid_users => valid_users
            | Raise _ => UNone
            end
        end
      else UNone
  end.

(** The run state after [process_tweet] on one post. *)
Definition tally_post (args : args_t) (valid_users : users_val) (s : state)
    (tweet : tweet_t) : state :=
  if passes_filter args valid_users tweet then
    State (tally_tweet (words_dict s) tweet)
          (Stats (stats_words (stats s)
                  + matched_tokens (tokenize (tweet_full_text tweet)))
                 (stats_tweets (stats s) + 1))
          (trace s ++ progress_dot (stats_tweets (stats s)))
  else s.

(** Number of posts of a dump that the user filter lets through. *)
Definition passing (args : args_t) (valid_users : users_val)
    (dump : list tweet_t) : Z :=
  len (filter (fun t => passes_filter args valid_users t = true) dump).

(** ** The ranking as a function on [words_dict] *)

(** [a / b] for a divisor that is not zero. *)
Definition quotient (a b : Z) : Q := Qred (Qdiv (inject_Z a) (inject_Z b)).

(** The row of a word under an emotion. *)
Definition row_of (wd : list (string * pyval)) (emotion word : string)
  : row :=
  Row word (count emotion word wd)
      (quotient (count emotion word wd) (total "words" wd))
      (quotient (count emotion word wd) (total "tweets" wd))
      emotion.

(** The words of an emotion that make it to the output, best first. *)
Definition top_words (top : Z) (words : list (string * Z)) : list string :=
  take (Z.to_nat (Z.min top (len words))) (sorted_desc words).*1.

Definition ranked (wd : list (string * pyval)) (top : Z) (emotion : string)
  : list row :=
  row_of wd emotion <$> top_words top (emotion_words emotion wd).

(** The rows of the output that belong to an emotion. *)
Definition rows_of_emotion (emotion : string) (rows : list row) : list row :=
  filter (fun r => row_emotion r = emotion) rows.

(** The whole output: the tracked emotions in the order of the list, the
    rows of each. *)
Definition ranking (wd : list (string * pyval)) (top : Z) : list row :=
  concat (ranked wd top <$> RELEVANT_EMOTIONS).

(** The state of the ratio example: 10 matched words, 4 posts, and a word
    seen 5 times. *)
Definition ratio_example_words_dict : list (string * pyval) :=
  dict_set "tweets" (PInt 4)
    (dict_set "words" (PInt 10)
       (dict_set "joy" (PDict [("happy", 5)]) initial_words_dict)).

(** The state of the tie example: two words seen 5 times, one seen 3
    times, all under the same emotion. *)
Definition tie_example_words_dict : list (string * pyval) :=
  dict_set "tweets" (PInt 4)
    (dict_set "words" (PInt 13)
       (dict_set "joy" (PDict [("happy", 5); ("glad", 5); ("fun", 3)])
          initial_words_dict)).

(** Some tracked emotion has a word recorded. *)
Definition words_recorded (wd : list (string * pyval)) : Prop :=
  exists e, e ∈ RELEVANT_EMOTIONS /\ emotion_words e wd <> [].

(** What holds of [words_dict] between two tokens of a post. *)
Definition tallying (wd : list (string * pyval)) : Prop :=
  shaped wd
  /\ 0 <= total "words" wd
  /\ 0 <= total "tweets" wd
  /\ (words_recorded wd -> 1 <= total "words" wd)
  /\ (forall e, e ∈ RELEVANT_EMOTIONS -> NoDup (emotion_words e wd).*1).

(** What holds of [words_dict] between two posts, and so when the ranker
    runs. *)
Definition aggregated (wd : list (string * pyval)) : Prop :=
  tallying wd /\ (words_recorded wd -> 1 <= total "tweets" wd).

(** The run state in which [main] calls the ranker: the one [process_lines]
    leaves behind, started on the fresh [words_dict] and [stats]. *)
Definition after_aggregation (dump : list tweet_t) (args : args_t)
    (events : list event) : state :=
  (process_lines dump args (State initial_words_dict (Stats 0 0) events)).2.

(** ** Failure of the users file *)

(** The users file is missing, or it parses in neither format. *)
Definition load_failed (args : args_t) : Prop :=
  exists path,
    users_file args = Some path
    /\ (path_exists path = false
        \/ ((exists e,
               collect_users (open_jsonobjects_file path) (USet ∅) = Raise e)
            /\ (exists e,
                  collect_users (open_csv_file path) (UDict []) = Raise e))).

(** The row an event writes, if it writes one. *)
Definition written_row (ev : event) : option row :=
  match ev with
  | WriteRow _ line => Some line
  | _ => None
  end.

(** A line of the ranked output that reaches a file. *)
Definition writes_to_file (ev : event) : Prop :=
  match ev with
  | WriteHeader (OutFile _) _ | WriteRow (OutFile _) _ => True
  | _ => False
  end.

Definition is_log (ev : event) : Prop :=
  match ev with Log _ => True | _ => False end.

Definition users_not_found : string :=
  "The file of valid users could not be found" +:+ newline.

(** ** What a whole run keeps true *)

(** The stats report counts what [words_dict] counts. *)
Definition mirrored (s : state) : Prop :=
  stats_words (stats s) = total "words" (words_dict s)
  /\ stats_tweets (stats s) = total "tweets" (words_dict s).

(** Every count stored under a tracked emotion is at least 1. *)
Definition positive_counts (wd : list (string * pyval)) : Prop :=
  forall e w c,
    e ∈ RELEVANT_EMOTIONS -> dict_get w (emotion_words e wd) = Some c ->
    1 <= c.

(** No word has been counted more often than tokens were matched. *)
Definition bounded_counts (wd : list (string * pyval)) : Prop :=
  forall e w, e ∈ RELEVANT_EMOTIONS -> count e w wd <= total "words" wd.

(** The two dictionaries hold the same totals and the same counts. *)
Definition same_counts (wd wd' : list (string * pyval)) : Prop :=
  total "words" wd = total "words" wd'
  /\ total "tweets" wd = total "tweets" wd'
  /\ forall e w, e ∈ RELEVANT_EMOTIONS -> count e w wd = count e w wd'.

Definition is_dot (ev : event) : Prop :=
  match ev with Dot => True | _ => False end.

(** An event that creates a directory or a file. *)
Definition touches_files (ev : event) : Prop :=
  match ev with
  | Mkdir _ | OpenWriter _ _ => True
  | WriteHeader (OutFile _) _ | WriteRow (OutFile _) _ => True
  | RenderStats (OutFile _) _ _ | Close (OutFile _) => True
  | _ => False
  end.

(** Number of ['-'] and ['.'] in a string. *)
Fixpoint separators (s : string) : nat :=
  match s with
  | EmptyString => 0
  | String c s' => (if is_separator c then 1 else 0) + separators s'
  end.

(** What [main] has opened when it starts to write: the two sinks and the
    events of opening them. *)
Definition opened (args : args_t) (lang : option string) (out sout : sink)
    (events : list event) : Prop :=
  Forall (fun ev => match ev with
                    | Mkdir _ | OpenWriter _ _ => True
                    | _ => False
                    end) events
  /\ (dry_run args = true -> out = DevNull /\ sout = DevNull /\ events = [])
  /\ (lang = None -> out = DevNull)
  /\ (dry_run args = false ->
      (exists path,
         sout = OutFile path
         /\ OpenWriter path (output_compression args) ∈ events)
      /\ (lang <> None ->
          exists path,
            out = OutFile path
            /\ OpenWriter path (output_compression args) ∈ events)).

(** The events of writing the output and the stats report. *)
Definition written (out sout : sink) (lines : list row) (st : stats_t)
  : list event :=
  [WriteHeader out fieldnames] ++ (WriteRow out <$> lines)
  ++ [Close out; RenderStats sout (stats_words st) (stats_tweets st);
      Close sout; Close sout].

(** [words_dict] after [process_tweet] on one post. *)
Definition post_counts (args : args_t) (valid_users : users_val)
    (wd : list (string * pyval)) (tweet : tweet_t)
  : list (string * pyval) :=
  if passes_filter args valid_users tweet then tally_tweet wd tweet else wd.

(** Number of progress dots among some events. *)
Fixpoint count_dots (events : list event) : Z :=
  match events with
  | [] => 0
  | Dot :: events' => 1 + count_dots events'
  | _ :: events' => count_dots events'
  end.

(** ** The order of the ranked words *)

(** [a] is held before [b] by a list. *)
Definition precedes {A} (l : list A) (a b : A) : Prop :=
  exists i j, (i < j)%nat /\ l !! i = Some a /\ l !! j = Some b.

(** The rule by which the ranker orders the items of a dictionary: the
    larger count first, and among equal counts the item the dictionary
    holds first. *)
Definition ranks_before (words : list (string * Z)) (a b : string * Z)
  : Prop :=
  b.2 < a.2 \/ (a.2 = b.2 /\ precedes words a b).

(** What a row says of a word: the word and its count. *)
Definition row_item (r : row) : string * Z := (row_word r, row_occurrences r).

(** ** The floats of the ranking *)

(** The row of a word under an emotion with the floats of its ratios, or
    the exception of the first division that raises. *)
Definition float_row_of (wd : list (string * pyval)) (emotion word : string)
  : result Binary64.row :=
  match Binary64.truediv (count emotion word wd) (total "words" wd) with
  | Raise x => Raise x
  | Ok per_word =>
      match Binary64.truediv (count emotion word wd) (total "tweets" wd) with
      | Raise x => Raise x
      | Ok per_tweet =>
          Ok (Binary64.Row word (count emotion word wd) per_word per_tweet
                emotion)
      end
  end.

(** The rows before the first exception, and that exception. *)
Fixpoint rows_until_raise (l : list (result Binary64.row))
  : Binary64.generated :=
  match l with
  | [] => ([], None)
  | Raise x :: _ => ([], Some x)
  | Ok r :: l' => let '(rs, stop) := rows_until_raise l' in (r :: rs, stop)
  end.

(** The rows of the exact ranking, each with its floats. *)
Definition float_ranking (wd : list (string * pyval)) (top : Z)
  : list (result Binary64.row) :=
  (fun r => float_row_of wd (row_emotion r) (row_word r)) <$> ranking wd top.

(** What a row with floats has in common with a row of the exact
    ranking. *)
Definition same_word (r64 : Binary64.row) (r : row) : Prop :=
  Binary64.row_word r64 = row_word r
  /\ Binary64.row_occurrences r64 = row_occurrences r
  /\ Binary64.row_emotion r64 = row_emotion r.

(** * Properties *)

(** ** Dictionary lemmas *)

Section DictFacts.
Context {V : Type}.
Implicit Types (d : list (string * V)) (k : string) (v : V).

Lemma dict_get_set_eq k v d : dict_get k (dict_set k v d) = Some v.
Proof.
  induction d as [|[k' v'] d IH]; simpl.
  - by rewrite String.eqb_refl.
  - destruct (String.eqb_spec k' k) as [->|Hne]; simpl.
    + by rewrite String.eqb_refl.
    + by destruct (String.eqb_spec k' k).
Qed.

Lemma dict_get_set_ne k k' v d :
  k ≠ k' -> dict_get k' (dict_set k v d) = dict_get k' d.
Proof.
  intros Hne. induction d as [|[k0 v0] d IH]; simpl.
  - by destruct (String.eqb_spec k k').
  - destruct (String.eqb_spec k0 k) as [->|Hk]; simpl.
    + by destruct (String.eqb_spec k k').
    + by rewrite IH.
Qed.

Lemma dict_get_None k d : dict_get k d = None <-> k ∉ d.*1.
Proof.
  induction d as [|[k' v'] d IH]; simpl.
  - split; [intros _; apply not_elem_of_nil | done].
  - rewrite not_elem_of_cons.
    destruct (String.eqb_spec k' k) as [->|Hne].
    + split; [done | by intros [? _]].
    + rewrite IH. split; [by intros ?; split | by intros [_ ?]].
Qed.

Lemma dict_get_Some_elem k v d : dict_get k d = Some v -> (k, v) ∈ d.
Proof.
  induction d as [|[k' v'] d IH]; simpl; [done|].
  destruct (String.eqb_spec k' k) as [->|Hne].
  - intros [= ->]. apply elem_of_cons. by left.
  - intros H. apply elem_of_cons. right. auto.
Qed.

Lemma dict_set_keys_old k v v0 d :
  dict_get k d = Some v0 -> (dict_set k v d).*1 = d.*1.
Proof.
  induction d as [|[k' v'] d IH]; simpl; [done|].
  destruct (String.eqb_spec k' k) as [->|Hne]; [done|].
  intros H. rewrite fmap_cons. f_equal. by apply IH.
Qed.

Lemma dict_set_keys_new k v d :
  dict_get k d = None -> (dict_set k v d).*1 = d.*1 ++ [k].
Proof.
  induction d as [|[k' v'] d IH]; simpl; [done|].
  destruct (String.eqb_spec k' k) as [->|Hne]; [done|].
  intros H. rewrite fmap_cons. f_equal. by apply IH.
Qed.

Lemma dict_set_NoDup k v d : NoDup d.*1 -> NoDup (dict_set k v d).*1.
Proof.
  intros Hnd. destruct (dict_get k d) as [v0|] eqn:Hget.
  - by rewrite (dict_set_keys_old _ _ v0).
  - rewrite dict_set_keys_new by done.
    apply NoDup_app. split_and!; [done| |apply NoDup_singleton].
    intros x Hx ->%list_elem_of_singleton. by apply dict_get_None in Hget.
Qed.

Lemma dict_set_not_nil k v d : dict_set k v d ≠ [].
Proof. destruct d as [|[k' v'] d]; simpl; [done|]. by case_match. Qed.

Lemma dict_set_length_old k v v0 d :
  dict_get k d = Some v0 -> length (dict_set k v d) = length d.
Proof.
  intros H. rewrite <-(length_fmap fst), (dict_set_keys_old _ _ v0) by done.
  by rewrite length_fmap.
Qed.

Lemma dict_mem_get k d :
  dict_mem k d = match dict_get k d with Some _ => true | None => false end.
Proof. done. Qed.
End DictFacts.

(** ** Shape of the aggregation state *)

Lemma dict_get_shape k wd : dict_get k (shape wd) = is_dict <$> dict_get k wd.
Proof.
  induction wd as [|[k' v'] wd IH]; simpl; [done|].
  by destruct (String.eqb k' k).
Qed.

Lemma shape_dict_set k v v0 wd :
  dict_get k wd = Some v0 -> is_dict v = is_dict v0 ->
  shape (dict_set k v wd) = shape wd.
Proof.
  intros Hget Hkind. induction wd as [|[k' v'] wd IH]; simpl in *; [done|].
  destruct (String.eqb_spec k' k) as [->|Hne]; simpl.
  - injection Hget as ->. by rewrite Hkind.
  - by rewrite IH.
Qed.

Lemma shaped_initial : shaped initial_words_dict.
Proof. reflexivity. Qed.

Lemma shaped_emotion wd e :
  shaped wd -> e ∈ RELEVANT_EMOTIONS ->
  exists ws, dict_get e wd = Some (PDict ws).
Proof.
  intros Hs He.
  assert (dict_get e (shape wd) = Some true) as Hk.
  { rewrite Hs. unfold RELEVANT_EMOTIONS in He.
    repeat (apply elem_of_cons in He as [->|He]; [reflexivity|]).
    by apply elem_of_nil in He. }
  rewrite dict_get_shape in Hk.
  destruct (dict_get e wd) as [[z|ws]|]; simplify_eq/=. eauto.
Qed.

Lemma shaped_total wd key :
  shaped wd -> key = "words" \/ key = "tweets" ->
  dict_get key wd = Some (PInt (total key wd)).
Proof.
  intros Hs Hkey.
  assert (dict_get key (shape wd) = Some false) as Hk.
  { rewrite Hs. by destruct Hkey as [-> | ->]. }
  rewrite dict_get_shape in Hk. unfold total.
  destruct (dict_get key wd) as [[z|ws]|]; by simplify_eq/=.
Qed.

Lemma relevant_not_total e key :
  e ∈ RELEVANT_EMOTIONS -> key = "words" \/ key = "tweets" -> e ≠ key.
Proof.
  intros He Hkey ->. unfold RELEVANT_EMOTIONS in He.
  destruct Hkey as [-> | ->];
    repeat (apply elem_of_cons in He as [?|He]; [done|]);
    by apply elem_of_nil in He.
Qed.

(** ** The two elementary updates *)

Ltac run :=
  unfold bind, ret, raise, get_words_dict, put_words_dict, get_stats,
    put_stats, incr_stats_words, incr_stats_tweets, log, dot, emit; simpl.

Lemma incr_total_run key s :
  shaped (words_dict s) -> key = "words" \/ key = "tweets" ->
  incr_total key s
  = (Ok tt, State (add_total key (words_dict s)) (stats s) (trace s)).
Proof.
  intros Hs Hkey. unfold incr_total. run.
  by rewrite (shaped_total _ _ Hs Hkey).
Qed.

Lemma count_word_run e w s :
  shaped (words_dict s) -> e ∈ RELEVANT_EMOTIONS ->
  count_word e w s
  = (Ok tt, State (bump e w (words_dict s)) (stats s) (trace s)).
Proof.
  intros Hs He. destruct (shaped_emotion _ _ Hs He) as [ws Hws].
  unfold count_word, bump, count, emotion_words. run.
  rewrite Hws, dict_mem_get. by destruct (dict_get w ws).
Qed.

Lemma shaped_add_total key wd :
  shaped wd -> key = "words" \/ key = "tweets" -> shaped (add_total key wd).
Proof.
  intros Hs Hkey. unfold shaped, add_total.
  by rewrite (shape_dict_set _ _ _ _ (shaped_total _ _ Hs Hkey)).
Qed.

Lemma shaped_bump e w wd :
  shaped wd -> e ∈ RELEVANT_EMOTIONS -> shaped (bump e w wd).
Proof.
  intros Hs He. destruct (shaped_emotion _ _ Hs He) as [ws Hws].
  unfold shaped, bump. by rewrite (shape_dict_set _ _ _ _ Hws).
Qed.

Lemma total_add_total key key' wd :
  total key' (add_total key wd)
  = if decide (key = key') then total key wd + 1 else total key' wd.
Proof.
  unfold add_total, total at 1. case_decide as Hk.
  - subst. by rewrite dict_get_set_eq.
  - by rewrite dict_get_set_ne.
Qed.

Lemma emotion_words_add_total key e wd :
  shaped wd -> key = "words" \/ key = "tweets" ->
  emotion_words e (add_total key wd) = emotion_words e wd.
Proof.
  intros Hs Hkey. unfold add_total, emotion_words.
  destruct (decide (key = e)) as [<-|Hne].
  - by rewrite dict_get_set_eq, (shaped_total _ _ Hs Hkey).
  - by rewrite dict_get_set_ne.
Qed.

Lemma total_bump key e w wd :
  shaped wd -> e ∈ RELEVANT_EMOTIONS -> total key (bump e w wd) = total key wd.
Proof.
  intros Hs He. destruct (shaped_emotion _ _ Hs He) as [ws Hws].
  unfold bump, total. destruct (decide (e = key)) as [<-|Hne].
  - by rewrite dict_get_set_eq, Hws.
  - by rewrite dict_get_set_ne.
Qed.

Lemma emotion_words_bump e e' w wd :
  emotion_words e' (bump e w wd)
  = if decide (e = e')
    then dict_set w (count e w wd + 1) (emotion_words e wd)
    else emotion_words e' wd.
Proof.
  unfold bump, emotion_words at 1. case_decide as Hk.
  - subst. by rewrite dict_get_set_eq.
  - by rewrite dict_get_set_ne.
Qed.

Lemma count_add_total key e w wd :
  shaped wd -> key = "words" \/ key = "tweets" ->
  count e w (add_total key wd) = count e w wd.
Proof. intros. unfold count. by rewrite emotion_words_add_total. Qed.

Lemma count_bump e e' w w' wd :
  count e' w' (bump e w wd)
  = if decide (e = e' /\ w = w') then count e' w' wd + 1 else count e' w' wd.
Proof.
  unfold count at 1. rewrite emotion_words_bump.
  destruct (decide (e = e')) as [<-|He].
  - destruct (decide (w = w')) as [<-|Hw].
    + rewrite dict_get_set_eq. by rewrite decide_True.
    + rewrite dict_get_set_ne by done. rewrite decide_False; [done|tauto].
  - rewrite decide_False; [done|tauto].
Qed.

(** ** The commands compute the tally *)

Lemma shaped_bumps w names wd :
  shaped wd -> Forall (fun e => e ∈ RELEVANT_EMOTIONS) names ->
  shaped (foldl (fun wd e => bump e w wd) wd names).
Proof.
  intros Hs Hall. revert wd Hs.
  induction Hall as [|e names He _ IH]; intros wd Hs; simpl; [done|].
  apply IH. by apply shaped_bump.
Qed.

Lemma relevant_names_relevant w :
  Forall (fun e => e ∈ RELEVANT_EMOTIONS) (relevant_names w).
Proof.
  apply Forall_forall. intros e He.
  by apply list_elem_of_filter in He as [? _].
Qed.

Lemma shaped_tally_word wd w : shaped wd -> shaped (tally_word wd w).
Proof.
  intros Hs. apply shaped_bumps; [|apply relevant_names_relevant].
  case_bool_decide; [done|]. apply shaped_add_total; auto.
Qed.

Lemma shaped_tally_words wd tokens :
  shaped wd -> shaped (foldl tally_word wd tokens).
Proof.
  revert wd. induction tokens as [|w tokens IH]; intros wd Hs; simpl; [done|].
  by apply IH, shaped_tally_word.
Qed.

Lemma shaped_tally_tweet wd tweet : shaped wd -> shaped (tally_tweet wd tweet).
Proof.
  intros Hs. apply shaped_add_total; [|auto]. by apply shaped_tally_words.
Qed.

Lemma emotions_loop_run w emotions s :
  shaped (words_dict s) ->
  for_each emotions (fun emotion =>
    let emotion := getEmotionName emotion in
    if bool_decide (emotion ∈ RELEVANT_EMOTIONS)
    then count_word emotion w else ret tt) s
  = (Ok tt,
     State (foldl (fun wd e => bump e w wd) (words_dict s)
              (filter (fun e => e ∈ RELEVANT_EMOTIONS)
                 (getEmotionName <$> emotions)))
           (stats s) (trace s)).
Proof.
  revert s. induction emotions as [|em emotions IH]; intros s Hs.
  - by destruct s.
  - cbn [for_each]. unfold bind at 1. rewrite fmap_cons, filter_cons.
    case_bool_decide as Hrel.
    + rewrite count_word_run by done. rewrite decide_True by done.
      rewrite IH; [done|]. by apply shaped_bump.
    + rewrite decide_False by done. unfold ret at 1. by rewrite IH.
Qed.

Lemma process_word_run w s :
  shaped (words_dict s) ->
  process_word w s
  = (Ok tt,
     State (tally_word (words_dict s) w)
           (Stats (stats_words (stats s) + matched w) (stats_tweets (stats s)))
           (trace s)).
Proof.
  intros Hs. unfold process_word, tally_word, matched, relevant_names,
    emotion_names.
  unfold bind at 1. case_bool_decide as Hnil; cbn [negb].
  - unfold ret at 1. rewrite emotions_loop_run by done.
    destruct s as [wd [sw st] tr]; simpl. by rewrite Z.add_0_r.
  - unfold bind at 1. unfold incr_stats_words at 1. run.
    rewrite incr_total_run by (simpl; auto). simpl.
    rewrite emotions_loop_run; [done|].
    simpl. apply shaped_add_total; auto.
Qed.

Lemma matched_tokens_cons w tokens :
  matched_tokens (w :: tokens) = matched w + matched_tokens tokens.
Proof.
  unfold matched_tokens, matched, len. rewrite filter_cons.
  case_bool_decide as Hnil.
  - by rewrite decide_False by (by intros ?).
  - rewrite decide_True by done. simpl length. lia.
Qed.

Lemma tokens_loop_run tokens s :
  shaped (words_dict s) ->
  for_each tokens process_word s
  = (Ok tt,
     State (foldl tally_word (words_dict s) tokens)
           (Stats (stats_words (stats s) + matched_tokens tokens)
                  (stats_tweets (stats s)))
           (trace s)).
Proof.
  revert s. induction tokens as [|w tokens IH]; intros s Hs.
  - destruct s as [wd [sw st] tr]; simpl. unfold ret.
    by rewrite Z.add_0_r.
  - cbn [for_each foldl]. unfold bind at 1.
    rewrite process_word_run by done.
    rewrite IH by (by apply shaped_tally_word). simpl.
    rewrite matched_tokens_cons. do 3 f_equal. lia.
Qed.

Lemma process_tweet_skip tweet valid_users args s :
  users_file args <> None -> valid_users <> UNone ->
  passes_filter args valid_users tweet = false ->
  process_tweet tweet valid_users args s = (Ok tt, s).
Proof.
  unfold passes_filter, process_tweet. intros Hfile Hvu.
  destruct (users_file args); [|done].
  destruct valid_users; [done| |]; simpl; intros ->; by run.
Qed.

Lemma process_tweet_run tweet valid_users args s :
  shaped (words_dict s) ->
  passes_filter args valid_users tweet = true ->
  process_tweet tweet valid_users args s
  = (Ok tt,
     State (tally_tweet (words_dict s) tweet)
           (Stats (stats_words (stats s)
                   + matched_tokens (tokenize (tweet_full_text tweet)))
                  (stats_tweets (stats s) + 1))
           (trace s ++ progress_dot (stats_tweets (stats s)))).
Proof.
  intros Hs Hpass.
  assert (forall k : bool -> M unit,
    bind match users_file args with
         | None => ret false
         | Some _ =>
             match users_contains (str (tweet_user_id tweet)) valid_users with
             | Ok b => ret (negb b)
             | Raise e => raise e
             end
         end k s = k false s) as Hskip.
  { intros k. unfold passes_filter in Hpass. unfold bind.
    destruct (users_file args); [|done].
    destruct (users_contains _ _); [|done]. by subst. }
  unfold process_tweet. rewrite Hskip. unfold bind at 1.
  rewrite tokens_loop_run by done.
  unfold bind at 1. rewrite incr_total_run by (simpl; auto using shaped_tally_words).
  unfold tally_tweet, progress_dot. run.
  destruct (Z.eqb _ 0); simpl; [done|]. by rewrite app_nil_r.
Qed.

(** ** What the tally does to the totals and to the word counters *)

Lemma occurrences_cons x y l :
  occurrences x (y :: l) = (if decide (y = x) then 1 else 0) + occurrences x l.
Proof.
  unfold occurrences, len. rewrite filter_cons.
  case_decide; simpl length; lia.
Qed.

Lemma occurrences_nonneg x l : 0 <= occurrences x l.
Proof. unfold occurrences, len. lia. Qed.

Lemma occurrences_not_in x l : x ∉ l -> occurrences x l = 0.
Proof.
  induction l as [|y l IH]; [done|].
  rewrite not_elem_of_cons, occurrences_cons. intros [Hne Hin].
  rewrite decide_False by congruence. rewrite IH by done. lia.
Qed.

Lemma occurrences_NoDup x l :
  NoDup l -> occurrences x l = if decide (x ∈ l) then 1 else 0.
Proof.
  induction 1 as [|y l Hy _ IH].
  - rewrite decide_False; [done|apply not_elem_of_nil].
  - rewrite occurrences_cons, IH. destruct (decide (y = x)) as [->|Hne].
    + rewrite (decide_False (P := x ∈ l)) by done.
      rewrite decide_True; [done|]. apply elem_of_cons. by left.
    + destruct (decide (x ∈ l)) as [Hin|Hin].
      * rewrite decide_True; [done|]. apply elem_of_cons. by right.
      * rewrite decide_False; [done|].
        rewrite not_elem_of_cons. split; [congruence|done].
Qed.

Lemma total_bumps key w names wd :
  shaped wd -> Forall (fun e => e ∈ RELEVANT_EMOTIONS) names ->
  total key (foldl (fun wd e => bump e w wd) wd names) = total key wd.
Proof.
  intros Hs Hall. revert wd Hs.
  induction Hall as [|e names He _ IH]; intros wd Hs; simpl; [done|].
  rewrite IH by (by apply shaped_bump). by apply total_bump.
Qed.

Lemma count_bumps e w w' names wd :
  count e w' (foldl (fun wd e => bump e w wd) wd names)
  = count e w' wd + (if decide (w = w') then occurrences e names else 0).
Proof.
  revert wd. induction names as [|e0 names IH]; intros wd; simpl.
  - unfold occurrences, len. simpl. case_decide; lia.
  - rewrite IH, count_bump, occurrences_cons.
    destruct (decide (w = w')) as [<-|Hw].
    + destruct (decide (e0 = e)) as [<-|He].
      * rewrite decide_True by done. lia.
      * rewrite decide_False by tauto. lia.
    + rewrite decide_False by tauto. lia.
Qed.

Lemma total_words_tally_word wd w :
  shaped wd ->
  total "words" (tally_word wd w) = total "words" wd + matched w.
Proof.
  intros Hs. unfold tally_word, matched.
  rewrite total_bumps; [| |apply relevant_names_relevant].
  - case_bool_decide; [lia|]. by rewrite total_add_total, decide_True.
  - case_bool_decide; [done|]. apply shaped_add_total; auto.
Qed.

Lemma total_tweets_tally_word wd w :
  shaped wd -> total "tweets" (tally_word wd w) = total "tweets" wd.
Proof.
  intros Hs. unfold tally_word.
  rewrite total_bumps; [| |apply relevant_names_relevant].
  - case_bool_decide; [done|]. by rewrite total_add_total, decide_False.
  - case_bool_decide; [done|]. apply shaped_add_total; auto.
Qed.

Lemma count_tally_word e w w' wd :
  shaped wd ->
  count e w' (tally_word wd w)
  = count e w' wd
    + (if decide (w = w') then occurrences e (relevant_names w) else 0).
Proof.
  intros Hs. unfold tally_word. rewrite count_bumps.
  case_bool_decide; [done|]. rewrite count_add_total; auto.
Qed.

Lemma total_words_tally_words wd tokens :
  shaped wd ->
  total "words" (foldl tally_word wd tokens)
  = total "words" wd + matched_tokens tokens.
Proof.
  revert wd. induction tokens as [|w tokens IH]; intros wd Hs; simpl.
  - unfold matched_tokens, len. simpl. lia.
  - rewrite IH by (by apply shaped_tally_word).
    rewrite total_words_tally_word, matched_tokens_cons by done. lia.
Qed.

Lemma total_tweets_tally_words wd tokens :
  shaped wd ->
  total "tweets" (foldl tally_word wd tokens) = total "tweets" wd.
Proof.
  revert wd. induction tokens as [|w tokens IH]; intros wd Hs; simpl; [done|].
  rewrite IH by (by apply shaped_tally_word).
  by apply total_tweets_tally_word.
Qed.

Lemma count_tally_words e w' wd tokens :
  shaped wd ->
  count e w' (foldl tally_word wd tokens)
  = count e w' wd + occurrences w' tokens * occurrences e (relevant_names w').
Proof.
  revert wd. induction tokens as [|w tokens IH]; intros wd Hs; simpl.
  - unfold occurrences at 1. unfold len. simpl. lia.
  - rewrite IH by (by apply shaped_tally_word).
    rewrite count_tally_word, occurrences_cons by done.
    destruct (decide (w = w')) as [->|Hne]; lia.
Qed.

Lemma elem_of_relevant_names e w :
  e ∈ relevant_names w <-> e ∈ RELEVANT_EMOTIONS /\ e ∈ emotion_names w.
Proof. unfold relevant_names. by rewrite list_elem_of_filter. Qed.

Lemma NoDup_relevant_names w :
  NoDup (emotion_names w) -> NoDup (relevant_names w).
Proof. apply NoDup_filter. Qed.

(** The loop body on one token the lexicon knows: the global counter moves
    by one, and so does the counter of the token under every tracked
    emotion of its set; nothing else moves. *)
Lemma process_word_counts w s :
  shaped (words_dict s) ->
  getEmotionsOfWord w <> [] ->
  NoDup (emotion_names w) ->
  exists s',
    process_word w s = (Ok tt, s')
    /\ shaped (words_dict s')
    /\ total "words" (words_dict s') = total "words" (words_dict s) + 1
    /\ total "tweets" (words_dict s') = total "tweets" (words_dict s)
    /\ stats_words (stats s') = stats_words (stats s) + 1
    /\ forall e w', e ∈ RELEVANT_EMOTIONS ->
         count e w' (words_dict s')
         = count e w' (words_dict s)
           + (if decide (w' = w /\ e ∈ emotion_names w) then 1 else 0).
Proof.
  intros Hs Hne Hnd. eexists. split; [by apply process_word_run|]. simpl.
  assert (matched w = 1) as Hm.
  { unfold matched. by rewrite bool_decide_eq_false_2. }
  split_and!.
  - by apply shaped_tally_word.
  - by rewrite total_words_tally_word, Hm.
  - by apply total_tweets_tally_word.
  - by rewrite Hm.
  - intros e w' He. rewrite count_tally_word by done.
    rewrite occurrences_NoDup by (by apply NoDup_relevant_names).
    destruct (decide (w = w')) as [->|Hw].
    + destruct (decide (e ∈ emotion_names w')) as [Hin|Hin].
      * rewrite decide_True by (by apply elem_of_relevant_names).
        by rewrite decide_True.
      * rewrite decide_False by (rewrite elem_of_relevant_names; tauto).
        rewrite decide_False; [done|tauto].
    + rewrite decide_False; [done|]. intros [? _]. congruence.
Qed.

(** C1. A post that passes the filter adds to [total_words_matched] one
    per token occurrence that the lexicon knows, whatever the number of
    emotions of the token, and adds to the counter of a word under a
    tracked emotion one per occurrence of the word when the emotion is in
    the word's emotion set, and nothing otherwise. A token with k tracked
    emotions therefore moves the global counter by 1 and k word counters by
    1 each. The emotion set of a token is a set: no name occurs twice in
    it. *)
Theorem process_tweet_counts_each_match_once tweet valid_users args s :
  shaped (words_dict s) ->
  passes_filter args valid_users tweet = true ->
  (forall w, w ∈ tokenize (tweet_full_text tweet) ->
             NoDup (emotion_names w)) ->
  exists s',
    process_tweet tweet valid_users args s = (Ok tt, s')
    /\ total "words" (words_dict s')
       = total "words" (words_dict s)
         + matched_tokens (tokenize (tweet_full_text tweet))
    /\ stats_words (stats s')
       = stats_words (stats s)
         + matched_tokens (tokenize (tweet_full_text tweet))
    /\ forall e w, e ∈ RELEVANT_EMOTIONS ->
         count e w (words_dict s')
         = count e w (words_dict s)
           + (if decide (e ∈ emotion_names w)
              then occurrences w (tokenize (tweet_full_text tweet))
              else 0).
Proof.
  intros Hs Hpass Hset. eexists. split; [by apply process_tweet_run|]. simpl.
  pose proof (shaped_tally_words _ (tokenize (tweet_full_text tweet)) Hs)
    as Hs'.
  unfold tally_tweet. split_and!.
  - rewrite total_add_total, decide_False by done.
    by apply total_words_tally_words.
  - done.
  - intros e w He. rewrite count_add_total by auto.
    rewrite count_tally_words by done. f_equal.
    destruct (decide (w ∈ tokenize (tweet_full_text tweet))) as [Hw|Hw].
    + rewrite (occurrences_NoDup e (relevant_names w))
        by (by apply NoDup_relevant_names, Hset).
      destruct (decide (e ∈ emotion_names w)) as [Hin|Hin].
      * rewrite decide_True by (by apply elem_of_relevant_names). lia.
      * rewrite decide_False by (rewrite elem_of_relevant_names; tauto). lia.
    + rewrite (occurrences_not_in _ _ Hw). case_decide; lia.
Qed.

(** ** The loop over the dump *)

Lemma process_tweet_post tweet valid_users args s :
  shaped (words_dict s) ->
  users_file args = None \/ valid_users <> UNone ->
  process_tweet tweet valid_users args s
  = (Ok tt, tally_post args valid_users s tweet).
Proof.
  intros Hs Hready. unfold tally_post.
  destruct (passes_filter args valid_users tweet) eqn:Hpass.
  - by apply process_tweet_run.
  - assert (users_file args <> None) as Hfile.
    { intros Hnone. unfold passes_filter in Hpass. by rewrite Hnone in Hpass. }
    apply process_tweet_skip; [done| |done]. by destruct Hready.
Qed.

Lemma shaped_tally_post args valid_users s tweet :
  shaped (words_dict s) ->
  shaped (words_dict (tally_post args valid_users s tweet)).
Proof.
  intros Hs. unfold tally_post. case_match; [|done].
  by apply shaped_tally_tweet.
Qed.

Lemma shaped_tally_posts args valid_users s dump :
  shaped (words_dict s) ->
  shaped (words_dict (foldl (tally_post args valid_users) s dump)).
Proof.
  revert s. induction dump as [|t dump IH]; intros s Hs; simpl; [done|].
  by apply IH, shaped_tally_post.
Qed.

Lemma dump_loop_run dump valid_users args s :
  shaped (words_dict s) ->
  users_file args = None \/ valid_users <> UNone ->
  for_each dump (fun raw_obj => process_tweet raw_obj valid_users args) s
  = (Ok tt, foldl (tally_post args valid_users) s dump).
Proof.
  intros Hs Hready. revert s Hs.
  induction dump as [|t dump IH]; intros s Hs; [done|].
  cbn [for_each foldl]. unfold bind at 1.
  rewrite process_tweet_post by done. by apply IH, shaped_tally_post.
Qed.

Lemma passing_cons args valid_users t dump :
  passing args valid_users (t :: dump)
  = (if passes_filter args valid_users t then 1 else 0)
    + passing args valid_users dump.
Proof.
  unfold passing, len. rewrite filter_cons.
  destruct (passes_filter args valid_users t).
  - rewrite decide_True by done. simpl length. lia.
  - by rewrite decide_False by done.
Qed.

Lemma total_tweets_tally_post args valid_users s t :
  shaped (words_dict s) ->
  total "tweets" (words_dict (tally_post args valid_users s t))
  = total "tweets" (words_dict s)
    + (if passes_filter args valid_users t then 1 else 0).
Proof.
  intros Hs. unfold tally_post. case_match; simpl; [|lia].
  unfold tally_tweet. rewrite total_add_total, decide_True by done.
  by rewrite total_tweets_tally_words.
Qed.

Lemma total_tweets_tally_posts args valid_users s dump :
  shaped (words_dict s) ->
  total "tweets" (words_dict (foldl (tally_post args valid_users) s dump))
  = total "tweets" (words_dict s) + passing args valid_users dump.
Proof.
  revert s. induction dump as [|t dump IH]; intros s Hs; simpl.
  - unfold passing, len. simpl. lia.
  - rewrite IH by (by apply shaped_tally_post).
    rewrite total_tweets_tally_post, passing_cons by done. lia.
Qed.

Lemma stats_tweets_tally_posts args valid_users s dump :
  stats_tweets (stats (foldl (tally_post args valid_users) s dump))
  = stats_tweets (stats s) + passing args valid_users dump.
Proof.
  revert s. induction dump as [|t dump IH]; intros s; simpl.
  - unfold passing, len. simpl. lia.
  - rewrite IH, passing_cons. unfold tally_post.
    destruct (passes_filter args valid_users t); simpl; lia.
Qed.

Lemma process_dump_run first dump valid_users args s :
  shaped (words_dict s) ->
  users_file args = None \/ valid_users <> UNone ->
  process_dump first dump valid_users args s
  = if initEmotionLexicon (tweet_lang first)
    then (Ok (Some (tweet_lang first)),
          foldl (tally_post args valid_users) s (first :: dump))
    else (Ok None, s).
Proof.
  intros Hs Hready. unfold process_dump.
  destruct (initEmotionLexicon _); [|done].
  unfold bind at 1. rewrite process_tweet_post by done.
  unfold bind at 1. rewrite dump_loop_run by (by try apply shaped_tally_post).
  done.
Qed.

(** ** Loading the users file *)

Lemma get_valid_users_run args path s :
  users_file args = Some path ->
  exists logs,
    get_valid_users args s
    = (Ok (loaded_users args),
       State (words_dict s) (stats s) (trace s ++ logs))
    /\ (loaded_users args <> UNone -> logs = [])
    /\ Forall is_log logs.
Proof.
  intros Hfile. unfold get_valid_users, loaded_users. rewrite Hfile.
  destruct (path_exists path).
  - destruct (collect_users (open_jsonobjects_file path) _) as [v|e].
    + exists []. rewrite app_nil_r. by destruct s.
    + destruct (collect_users (open_csv_file path) _) as [v|e'].
      * exists []. rewrite app_nil_r. by destruct s.
      * eexists. split; [by run|]. split; [done|]. by repeat constructor.
  - exists []. rewrite app_nil_r. by destruct s.
Qed.

Lemma users_truthy_not_None v : users_truthy v = true -> v <> UNone.
Proof. by destruct v. Qed.

Lemma process_lines_filtered first dump args path s :
  shaped (words_dict s) ->
  users_file args = Some path ->
  users_truthy (loaded_users args) = true ->
  process_lines (first :: dump) args s
  = process_dump first dump (loaded_users args) args
      (State (words_dict s) (stats s)
         (trace s ++ [Log "Specified a set of users to filter the tweet"])).
Proof.
  intros Hs Hfile Htrue. unfold process_lines. rewrite Hfile.
  unfold bind at 1. unfold log at 1, emit at 1.
  unfold bind at 1.
  destruct (get_valid_users_run args path
              (State (words_dict s) (stats s)
                 (trace s ++ [Log "Specified a set of users to filter the tweet"]))
              Hfile) as (logs & -> & Hlogs & _).
  rewrite Htrue. cbn [negb]. simpl.
  rewrite Hlogs by (by apply users_truthy_not_None).
  by rewrite app_nil_r.
Qed.

Lemma loaded_users_unfiltered args :
  users_file args = None -> loaded_users args = UNone.
Proof. unfold loaded_users. by intros ->. Qed.

Lemma passing_unfiltered args valid_users dump :
  users_file args = None -> passing args valid_users dump = len dump.
Proof.
  intros Hnone. induction dump as [|t dump IH]; [done|].
  rewrite passing_cons, IH. unfold passes_filter. rewrite Hnone.
  unfold len. simpl length. lia.
Qed.

(** C2. When the aggregation runs to its end, [total_posts] has grown by
    the number of posts of the dump that pass the user filter, which is
    every post when no users file is configured. A post that the filter
    rejects leaves the whole run state as it was; a post that passes adds
    exactly one to [total_posts], and leaves [total_words_matched] alone
    when none of its tokens is in the lexicon. *)
Theorem process_lines_counts_passing_posts first dump args s :
  shaped (words_dict s) ->
  initEmotionLexicon (tweet_lang first) = true ->
  users_file args = None \/ users_truthy (loaded_users args) = true ->
  exists s',
    process_lines (first :: dump) args s
    = (Ok (Some (tweet_lang first)), s')
    /\ total "tweets" (words_dict s')
       = total "tweets" (words_dict s)
         + passing args (loaded_users args) (first :: dump)
    /\ stats_tweets (stats s')
       = stats_tweets (stats s)
         + passing args (loaded_users args) (first :: dump)
    /\ (users_file args = None ->
        passing args (loaded_users args) (first :: dump)
        = len (first :: dump))
    /\ (forall t s1,
          passes_filter args (loaded_users args) t = false ->
          process_tweet t (loaded_users args) args s1 = (Ok tt, s1))
    /\ (forall t s1,
          shaped (words_dict s1) ->
          passes_filter args (loaded_users args) t = true ->
          exists s2,
            process_tweet t (loaded_users args) args s1 = (Ok tt, s2)
            /\ total "tweets" (words_dict s2)
               = total "tweets" (words_dict s1) + 1
            /\ (matched_tokens (tokenize (tweet_full_text t)) = 0 ->
                total "words" (words_dict s2)
                = total "words" (words_dict s1))).
Proof.
  intros Hs Hinit Hload.
  assert (users_file args = None \/ loaded_users args <> UNone) as Hready.
  { destruct Hload; [by left|right]. by apply users_truthy_not_None. }
  assert (exists s0,
    process_lines (first :: dump) args s
    = process_dump first dump (loaded_users args) args s0
    /\ words_dict s0 = words_dict s /\ stats s0 = stats s)
    as (s0 & Hrun & Hwd & Hst).
  { destruct (users_file args) as [path|] eqn:Hfile.
    - destruct Hload as [?|Htrue]; [done|].
      eexists. split; [by eapply process_lines_filtered|done].
    - exists s. unfold process_lines. rewrite Hfile.
      by rewrite loaded_users_unfiltered. }
  rewrite Hrun, process_dump_run, Hinit by (by rewrite ?Hwd).
  eexists. split; [done|]. split_and!.
  - rewrite total_tweets_tally_posts by (by rewrite Hwd). by rewrite Hwd.
  - by rewrite stats_tweets_tally_posts, Hst.
  - apply passing_unfiltered.
  - intros t s1 Hskip.
    assert (users_file args <> None) as Hfile.
    { intros Hnone. unfold passes_filter in Hskip. by rewrite Hnone in Hskip. }
    apply process_tweet_skip; [done| |done]. by destruct Hready.
  - intros t s1 Hs1 Hpass. eexists. split; [by apply process_tweet_run|].
    simpl. unfold tally_tweet. split.
    + rewrite total_add_total, decide_True by done.
      by rewrite total_tweets_tally_words.
    + intros Hnone. rewrite total_add_total, decide_False by done.
      rewrite total_words_tally_words by done. lia.
Qed.

(** ** Sorting *)

Lemma insert_desc_perm x l : insert_desc x l ≡ₚ x :: l.
Proof.
  induction l as [|y l IH]; simpl; [done|].
  destruct (Z.leb y.2 x.2); [done|]. rewrite IH. apply Permutation_swap.
Qed.

Lemma sorted_desc_perm l : sorted_desc l ≡ₚ l.
Proof.
  induction l as [|x l IH]; simpl; [done|].
  by rewrite insert_desc_perm, IH.
Qed.

Lemma sorted_desc_length l : length (sorted_desc l) = length l.
Proof. by rewrite sorted_desc_perm. Qed.

Lemma insert_desc_sorted x l :
  StronglySorted (fun a b => b.2 <= a.2) l ->
  StronglySorted (fun a b => b.2 <= a.2) (insert_desc x l).
Proof.
  induction 1 as [|y l Hl IH Hy]; simpl.
  - repeat constructor.
  - destruct (Z.leb_spec y.2 x.2) as [Hle|Hlt].
    + constructor; [by constructor|].
      constructor; [done|]. eapply Forall_impl; [exact Hy|].
      simpl. intros z Hz. lia.
    + constructor; [done|].
      rewrite insert_desc_perm. constructor; [lia|done].
Qed.

Lemma sorted_desc_sorted l :
  StronglySorted (fun a b => b.2 <= a.2) (sorted_desc l).
Proof.
  induction l as [|x l IH]; simpl; [constructor|].
  by apply insert_desc_sorted.
Qed.

(** Stability: items with the same count come out in the order in which
    they went in. *)
Lemma insert_desc_stable c x l :
  filter (fun y => y.2 = c) (insert_desc x l)
  = filter (fun y => y.2 = c) (x :: l).
Proof.
  induction l as [|y l IH]; simpl; [done|].
  destruct (Z.leb_spec y.2 x.2) as [Hle|Hlt]; [done|].
  rewrite filter_cons, IH, !filter_cons.
  destruct (decide (y.2 = c)) as [Hy|Hy]; [|done].
  destruct (decide (x.2 = c)); [lia|done].
Qed.

Lemma sorted_desc_stable c l :
  filter (fun y => y.2 = c) (sorted_desc l) = filter (fun y => y.2 = c) l.
Proof.
  induction l as [|x l IH]; simpl; [done|].
  by rewrite insert_desc_stable, !filter_cons, IH.
Qed.

(** ** The ranker computes the ranking *)

Lemma ratio_run occ key wd :
  shaped wd -> key = "words" \/ key = "tweets" -> total key wd <> 0 ->
  ratio occ key wd = Ok (quotient occ (total key wd)).
Proof.
  intros Hs Hkey Hnz. unfold ratio, py_truediv, quotient.
  rewrite (shaped_total _ _ Hs Hkey).
  by destruct (Z.eqb_spec (total key wd) 0).
Qed.

Lemma make_row_run wd e word :
  shaped wd -> total "words" wd <> 0 -> total "tweets" wd <> 0 ->
  word ∈ (emotion_words e wd).*1 ->
  make_row wd e (emotion_words e wd) word = Ok (row_of wd e word).
Proof.
  intros Hs Hw Ht Hin. unfold make_row, row_of, count.
  destruct (dict_get word (emotion_words e wd)) as [occ|] eqn:Hget.
  - by rewrite !ratio_run by auto.
  - by apply dict_get_None in Hget.
Qed.

Lemma yield_rows_run wd e sorted_words k m :
  shaped wd -> total "words" wd <> 0 -> total "tweets" wd <> 0 ->
  (forall w, w ∈ sorted_words -> w ∈ (emotion_words e wd).*1) ->
  (k + m <= length sorted_words)%nat ->
  yield_rows wd e (emotion_words e wd) sorted_words (seq k m)
  = (row_of wd e <$> take m (drop k sorted_words), None).
Proof.
  intros Hs Hw Ht Hin. revert k.
  induction m as [|m IH]; intros k Hlen; simpl; [done|].
  destruct (lookup_lt_is_Some_2 sorted_words k) as [word Hword]; [lia|].
  rewrite Hword, (drop_S _ _ _ Hword). simpl.
  rewrite make_row_run by eauto using list_elem_of_lookup_2.
  rewrite IH by lia. done.
Qed.

Lemma geb_min a b : (if Z.geb a b then b else a) = Z.min b a.
Proof. rewrite Z.geb_leb. destruct (Z.leb_spec b a); lia. Qed.

Lemma rank_emotion_run wd top e :
  shaped wd ->
  (emotion_words e wd <> [] ->
   total "words" wd <> 0 /\ total "tweets" wd <> 0) ->
  rank_emotion wd top e (emotion_words e wd) = (ranked wd top e, None).
Proof.
  intros Hs Hnz. unfold rank_emotion, ranked, top_words.
  rewrite geb_min. unfold len at 1 2. rewrite length_fmap, sorted_desc_length.
  fold (len (emotion_words e wd)).
  assert (Z.to_nat (Z.min top (len (emotion_words e wd)))
          <= length (emotion_words e wd))%nat as Hn by (unfold len; lia).
  destruct (Z.to_nat (Z.min top (len (emotion_words e wd)))) as [|n] eqn:Hm;
    [done|].
  destruct Hnz as [Hw Ht].
  { intros Hnil. rewrite Hnil in Hn. simpl in Hn. lia. }
  rewrite yield_rows_run; [by rewrite drop_0|done..| |].
  - intros w Hin. by rewrite <-(sorted_desc_perm (emotion_words e wd)).
  - rewrite length_fmap, sorted_desc_length. lia.
Qed.

Lemma dict_get_elem {V} k (v : V) d :
  NoDup d.*1 -> (k, v) ∈ d -> dict_get k d = Some v.
Proof.
  induction d as [|[k' v'] d IH]; simpl.
  - by intros _ ?%elem_of_nil.
  - rewrite NoDup_cons. simpl. intros [Hk Hnd].
    rewrite elem_of_cons. intros [[= -> ->]|Hin].
    + by rewrite String.eqb_refl.
    + destruct (String.eqb_spec k' k) as [->|Hne]; [|auto].
      destruct Hk. apply list_elem_of_fmap. by exists (k, v).
Qed.

Lemma rank_items_run wd top items :
  shaped wd ->
  (forall e, e ∈ RELEVANT_EMOTIONS -> emotion_words e wd <> [] ->
             total "words" wd <> 0 /\ total "tweets" wd <> 0) ->
  (forall e v, (e, v) ∈ items -> dict_get e wd = Some v) ->
  rank_items wd top items
  = (concat ((fun e => if bool_decide (e ∈ RELEVANT_EMOTIONS)
                       then ranked wd top e else []) <$> items.*1),
     None).
Proof.
  intros Hs Hnz. induction items as [|[e v] items IH]; intros Hitems; [done|].
  cbn [rank_items fmap list_fmap concat fst].
  rewrite IH by (intros; apply Hitems, elem_of_cons; by right).
  case_bool_decide as He; [|done].
  destruct (shaped_emotion _ _ Hs He) as [ws Hws].
  assert (v = PDict ws) as ->.
  { specialize (Hitems e v). rewrite Hws in Hitems.
    symmetry. apply (inj Some), Hitems, elem_of_cons. by left. }
  assert (ws = emotion_words e wd) as ->.
  { unfold emotion_words. by rewrite Hws. }
  rewrite rank_emotion_run; [done|done|by apply Hnz].
Qed.

Lemma shaped_keys wd :
  shaped wd -> wd.*1 = RELEVANT_EMOTIONS ++ ["words"; "tweets"].
Proof.
  intros Hs. transitivity (shape wd).*1.
  - unfold shape. by rewrite <-list_fmap_compose.
  - by rewrite Hs.
Qed.

Lemma get_first_n_words_run st wd args :
  shaped wd ->
  (forall e, e ∈ RELEVANT_EMOTIONS -> emotion_words e wd <> [] ->
             total "words" wd <> 0 /\ total "tweets" wd <> 0) ->
  get_first_n_words st wd args = (ranking wd (n_words args), None).
Proof.
  intros Hs Hnz. unfold get_first_n_words.
  rewrite rank_items_run; [|done..|].
  - rewrite shaped_keys by done. reflexivity.
  - intros e v. apply dict_get_elem. rewrite shaped_keys by done.
    compute_done.
Qed.

(** ** What the aggregation maintains *)

Lemma words_recorded_add_total key wd :
  shaped wd -> key = "words" \/ key = "tweets" ->
  words_recorded (add_total key wd) -> words_recorded wd.
Proof.
  intros Hs Hkey (e & He & Hne). exists e. split; [done|].
  by rewrite emotion_words_add_total in Hne.
Qed.

Lemma tallying_add_total key wd :
  tallying wd -> key = "words" \/ key = "tweets" ->
  tallying (add_total key wd).
Proof.
  intros (Hs & Hw & Ht & Hrec & Hnd) Hkey. split_and!.
  - by apply shaped_add_total.
  - rewrite total_add_total. case_decide; subst; lia.
  - rewrite total_add_total. case_decide; subst; lia.
  - intros Hr%words_recorded_add_total; [|done..].
    rewrite total_add_total. case_decide; subst; [lia|auto].
  - intros e He. rewrite emotion_words_add_total by done. auto.
Qed.

Lemma tallying_bump e w wd :
  tallying wd -> 1 <= total "words" wd -> e ∈ RELEVANT_EMOTIONS ->
  tallying (bump e w wd).
Proof.
  intros (Hs & Hw & Ht & Hrec & Hnd) Hone He. split_and!.
  - by apply shaped_bump.
  - rewrite total_bump by done. lia.
  - rewrite total_bump by done. lia.
  - intros _. rewrite total_bump by done. lia.
  - intros e' He'. rewrite emotion_words_bump. case_decide; [|auto].
    apply dict_set_NoDup. auto.
Qed.

Lemma tallying_bumps w names wd :
  tallying wd -> 1 <= total "words" wd ->
  Forall (fun e => e ∈ RELEVANT_EMOTIONS) names ->
  tallying (foldl (fun wd e => bump e w wd) wd names).
Proof.
  intros Ht Hone Hall. revert wd Ht Hone.
  induction Hall as [|e names He _ IH]; intros wd Ht Hone; simpl; [done|].
  apply IH; [by apply tallying_bump|].
  destruct Ht as [Hs _]. by rewrite total_bump.
Qed.

Lemma tallying_tally_word wd w : tallying wd -> tallying (tally_word wd w).
Proof.
  intros Ht. unfold tally_word, relevant_names, emotion_names.
  case_bool_decide as Hnil.
  - by rewrite Hnil.
  - apply tallying_bumps.
    + apply tallying_add_total; auto.
    + destruct Ht as (_ & Hw & _). rewrite total_add_total, decide_True by done.
      lia.
    + apply relevant_names_relevant.
Qed.

Lemma tallying_tally_words wd tokens :
  tallying wd -> tallying (foldl tally_word wd tokens).
Proof.
  revert wd. induction tokens as [|w tokens IH]; intros wd Ht; simpl; [done|].
  by apply IH, tallying_tally_word.
Qed.

Lemma aggregated_tally_tweet wd tweet :
  tallying wd -> aggregated (tally_tweet wd tweet).
Proof.
  intros Ht. unfold tally_tweet.
  pose proof (tallying_tally_words _ (tokenize (tweet_full_text tweet)) Ht)
    as Ht'.
  split; [apply tallying_add_total; auto|].
  intros _. rewrite total_add_total, decide_True by done.
  destruct Ht' as (_ & _ & Hpos & _). lia.
Qed.

Lemma aggregated_tally_post args valid_users s tweet :
  aggregated (words_dict s) ->
  aggregated (words_dict (tally_post args valid_users s tweet)).
Proof.
  intros Ha. unfold tally_post. case_match; [|done].
  apply aggregated_tally_tweet, Ha.
Qed.

Lemma aggregated_tally_posts args valid_users s dump :
  aggregated (words_dict s) ->
  aggregated (words_dict (foldl (tally_post args valid_users) s dump)).
Proof.
  revert s. induction dump as [|t dump IH]; intros s Ha; simpl; [done|].
  by apply IH, aggregated_tally_post.
Qed.

Lemma emotion_words_initial e :
  e ∈ RELEVANT_EMOTIONS -> emotion_words e initial_words_dict = [].
Proof.
  unfold RELEVANT_EMOTIONS. intros He.
  repeat (apply elem_of_cons in He as [->|He]; [reflexivity|]).
  by apply elem_of_nil in He.
Qed.

Lemma aggregated_initial : aggregated initial_words_dict.
Proof.
  assert (~ words_recorded initial_words_dict) as Hnone.
  { intros (e & He & Hne). by rewrite emotion_words_initial in Hne. }
  split; [split_and!|]; try done.
  intros e He. rewrite emotion_words_initial by done. constructor.
Qed.

Lemma process_dump_aggregated first dump valid_users args s :
  aggregated (words_dict s) ->
  users_file args = None \/ valid_users <> UNone ->
  aggregated (words_dict (process_dump first dump valid_users args s).2).
Proof.
  intros Ha Hready. rewrite process_dump_run by (done || apply Ha).
  destruct (initEmotionLexicon _); simpl; [|done].
  by apply (aggregated_tally_posts _ _ _ (first :: dump)).
Qed.

Lemma process_lines_aggregated dump args s :
  aggregated (words_dict s) ->
  aggregated (words_dict (process_lines dump args s).2).
Proof.
  intros Ha. unfold process_lines. destruct dump as [|first dump]; [done|].
  destruct (users_file args) as [path|] eqn:Hfile.
  - unfold bind at 1. unfold log at 1, emit at 1. unfold bind at 1.
    destruct (get_valid_users_run args path
      (State (words_dict s) (stats s)
         (trace s ++ [Log "Specified a set of users to filter the tweet"]))
      Hfile) as (logs & -> & _ & _).
    destruct (users_truthy (loaded_users args)) eqn:Htrue; cbn [negb].
    + apply process_dump_aggregated; [done|].
      right. by apply users_truthy_not_None.
    + by run.
  - apply process_dump_aggregated; auto.
Qed.

Lemma after_aggregation_aggregated dump args events :
  aggregated (words_dict (after_aggregation dump args events)).
Proof. apply process_lines_aggregated, aggregated_initial. Qed.

(** ** The shape of the ranking *)

Lemma rows_of_emotion_ranked e e' wd top :
  rows_of_emotion e (ranked wd top e')
  = if decide (e' = e) then ranked wd top e' else [].
Proof.
  unfold rows_of_emotion, ranked.
  induction (top_words top (emotion_words e' wd)) as [|w ws IH].
  - by case_decide.
  - rewrite fmap_cons, filter_cons, IH. simpl. by case_decide.
Qed.

Lemma rows_of_emotion_app e rows rows' :
  rows_of_emotion e (rows ++ rows')
  = rows_of_emotion e rows ++ rows_of_emotion e rows'.
Proof. apply filter_app. Qed.

Lemma rows_of_emotion_concat e wd top emotions :
  NoDup emotions ->
  rows_of_emotion e (concat (ranked wd top <$> emotions))
  = if decide (e ∈ emotions) then ranked wd top e else [].
Proof.
  induction 1 as [|e' emotions Hnotin _ IH].
  - done.
  - rewrite fmap_cons. cbn [concat].
    rewrite rows_of_emotion_app, rows_of_emotion_ranked, IH.
    destruct (decide (e' = e)) as [->|Hne];
      destruct (decide (e ∈ emotions)) as [Hin|Hin];
      destruct (decide (_ ∈ _ :: emotions)) as [Hc|Hc];
      rewrite ?app_nil_r; try done; exfalso.
    + apply Hc, elem_of_cons. by left.
    + apply Hc, elem_of_cons. by right.
    + apply elem_of_cons in Hc as [?|?]; congruence.
Qed.

Lemma rows_of_emotion_ranking e wd top :
  e ∈ RELEVANT_EMOTIONS ->
  rows_of_emotion e (ranking wd top) = ranked wd top e.
Proof.
  intros He. unfold ranking.
  rewrite rows_of_emotion_concat by compute_done. by rewrite decide_True.
Qed.

Lemma len_top_words top ws :
  len (top_words top ws) = Z.max 0 (Z.min top (len ws)).
Proof.
  unfold top_words, len.
  rewrite length_take, length_fmap, sorted_desc_length. lia.
Qed.

Lemma len_ranked wd top e :
  len (ranked wd top e) = Z.max 0 (Z.min top (len (emotion_words e wd))).
Proof.
  unfold ranked. rewrite <-len_top_words. unfold len. by rewrite length_fmap.
Qed.

Lemma elem_of_top_words w top ws : w ∈ top_words top ws -> w ∈ ws.*1.
Proof.
  unfold top_words. intros Hin%elem_of_take.
  destruct Hin as (i & Hi & _). apply list_elem_of_lookup_2 in Hi.
  by rewrite sorted_desc_perm in Hi.
Qed.

Lemma elem_of_ranking r wd top :
  r ∈ ranking wd top ->
  exists e w,
    e ∈ RELEVANT_EMOTIONS /\ w ∈ (emotion_words e wd).*1 /\ r = row_of wd e w.
Proof.
  unfold ranking. intros Hin.
  assert (forall emotions,
    r ∈ concat (ranked wd top <$> emotions) ->
    exists e, e ∈ emotions /\ r ∈ ranked wd top e) as Hconcat.
  { induction emotions as [|e emotions IH].
    - by intros ?%elem_of_nil.
    - rewrite fmap_cons. cbn [concat]. rewrite elem_of_app. intros [Hr|Hr].
      + exists e. split; [apply elem_of_cons; by left|done].
      + destruct (IH Hr) as (e' & He' & Hr').
        exists e'. split; [apply elem_of_cons; by right|done]. }
  destruct (Hconcat _ Hin) as (e & He & Hr).
  unfold ranked in Hr. apply list_elem_of_fmap in Hr as (w & -> & Hw).
  exists e, w. eauto using elem_of_top_words.
Qed.

Lemma aggregated_totals wd e :
  aggregated wd -> e ∈ RELEVANT_EMOTIONS -> emotion_words e wd <> [] ->
  1 <= total "words" wd /\ 1 <= total "tweets" wd.
Proof.
  intros [(_ & _ & _ & Hw & _) Ht] He Hne.
  assert (words_recorded wd) by (by exists e). auto.
Qed.

Lemma aggregated_ranker_run st wd args :
  aggregated wd ->
  get_first_n_words st wd args = (ranking wd (n_words args), None).
Proof.
  intros Ha. apply get_first_n_words_run; [apply Ha|].
  intros e He Hne. destruct (aggregated_totals _ _ Ha He Hne). lia.
Qed.

(** ** The ranker after the aggregation *)

Lemma aggregated_rows_per_emotion st wd args e :
  aggregated wd -> e ∈ RELEVANT_EMOTIONS ->
  len (rows_of_emotion e (get_first_n_words st wd args).1)
  = Z.max 0 (Z.min (n_words args) (len (emotion_words e wd))).
Proof.
  intros Ha He. rewrite aggregated_ranker_run by done. simpl.
  by rewrite rows_of_emotion_ranking, len_ranked.
Qed.

(** C3. After the aggregation of any dump, for a positive [top_n] and each
    of the ten tracked emotions, the ranker runs to its end and the rows it
    emits for the emotion number exactly the smaller of [top_n] and the
    number of words recorded for the emotion, these words being distinct. *)
Theorem ranker_emits_min_of_top_n_and_distinct_words dump args events e :
  0 < n_words args ->
  e ∈ RELEVANT_EMOTIONS ->
  let s := after_aggregation dump args events in
  exists rows,
    get_first_n_words (stats s) (words_dict s) args = (rows, None)
    /\ len (rows_of_emotion e rows)
       = Z.min (n_words args) (len (emotion_words e (words_dict s)))
    /\ NoDup (emotion_words e (words_dict s)).*1.
Proof.
  intros Htop He s.
  pose proof (after_aggregation_aggregated dump args events) as Ha.
  fold s in Ha. exists (ranking (words_dict s) (n_words args)). split_and!.
  - by apply aggregated_ranker_run.
  - rewrite rows_of_emotion_ranking, len_ranked by done. unfold len. lia.
  - destruct Ha as [(_ & _ & _ & _ & Hnd) _]. auto.
Qed.

Lemma quotient_correct a b :
  Qeq (quotient a b) (Qdiv (inject_Z a) (inject_Z b)).
Proof. apply Qred_correct. Qed.

(** C9. The state the ranker runs on has a word under a tracked emotion
    only if both totals are at least 1: such a word was recorded while a
    post that passed the filter was processed, after the global counter had
    been incremented for its token and before the post counter was
    incremented at the end of the post. So the ranker runs without raising
    on a division, and whenever it yields a row both divisors are at least
    1. *)
Theorem ranker_never_divides_by_zero dump args events :
  let s := after_aggregation dump args events in
  (forall e, e ∈ RELEVANT_EMOTIONS ->
             emotion_words e (words_dict s) <> [] ->
             1 <= total "words" (words_dict s)
             /\ 1 <= total "tweets" (words_dict s))
  /\ dict_get "words" (words_dict s)
     = Some (PInt (total "words" (words_dict s)))
  /\ dict_get "tweets" (words_dict s)
     = Some (PInt (total "tweets" (words_dict s)))
  /\ exists rows,
       get_first_n_words (stats s) (words_dict s) args = (rows, None)
       /\ (rows <> [] ->
           1 <= total "words" (words_dict s)
           /\ 1 <= total "tweets" (words_dict s)).
Proof.
  intros s.
  pose proof (after_aggregation_aggregated dump args events) as Ha.
  fold s in Ha. assert (shaped (words_dict s)) as Hs by apply Ha.
  split_and!.
  - intros e He Hne. by apply (aggregated_totals _ e).
  - apply shaped_total; auto.
  - apply shaped_total; auto.
  - eexists. split; [by apply aggregated_ranker_run|].
    intros Hrows.
    destruct (ranking (words_dict s) (n_words args)) as [|r rows] eqn:Hr;
      [done|].
    assert (r ∈ ranking (words_dict s) (n_words args)) as Hin.
    { rewrite Hr. apply elem_of_cons. by left. }
    apply elem_of_ranking in Hin as (e & w & He & Hw & _).
    apply (aggregated_totals _ e); [done..|].
    intros Hnil. rewrite Hnil in Hw. by apply elem_of_nil in Hw.
Qed.

(** ** A users file that does not load *)

Lemma load_failed_loaded args : load_failed args -> loaded_users args = UNone.
Proof.
  intros (path & Hfile & Hwhy). unfold loaded_users. rewrite Hfile.
  destruct Hwhy as [-> | [[e1 ->] [e2 ->]]]; [done|].
  by destruct (path_exists path).
Qed.

Lemma process_lines_rejected first dump args path s :
  users_file args = Some path ->
  users_truthy (loaded_users args) = false ->
  exists logs,
    process_lines (first :: dump) args s
    = (Ok None,
       State (words_dict s) (stats s)
         (trace s
          ++ [Log "Specified a set of users to filter the tweet"]
          ++ logs ++ [Log users_not_found]))
    /\ Forall is_log logs
    /\ (loaded_users args <> UNone -> logs = []).
Proof.
  intros Hfile Hfalse. unfold process_lines. rewrite Hfile.
  unfold bind at 1. unfold log at 1, emit at 1. unfold bind at 1.
  destruct (get_valid_users_run args path
    (State (words_dict s) (stats s)
       (trace s ++ [Log "Specified a set of users to filter the tweet"]))
    Hfile) as (logs & -> & Hlogs & Hall).
  rewrite Hfalse. cbn [negb]. exists logs. split; [|done].
  run. by rewrite <-!app_assoc.
Qed.

Lemma ranking_initial top : ranking initial_words_dict top = [].
Proof.
  unfold ranking, ranked, top_words, RELEVANT_EMOTIONS.
  cbn [fmap list_fmap concat].
  rewrite !emotion_words_initial by compute_done.
  cbn [sorted_desc foldr fmap list_fmap]. by rewrite take_nil.
Qed.

Lemma main_without_language dump basename args s s1 :
  0 < n_words args ->
  process_lines dump args
    (State initial_words_dict (Stats 0 0) (trace s)) = (Ok None, s1) ->
  words_dict s1 = initial_words_dict ->
  stats s1 = Stats 0 0 ->
  exists outcome events,
    main dump basename args s
    = (outcome, State initial_words_dict (Stats 0 0) (trace s1 ++ events))
    /\ Forall (fun ev => ~ writes_to_file ev) events
    /\ (outcome = Ok tt \/ outcome = Raise IndexError).
Proof.
  intros Htop Hrun Hwd Hst. unfold main.
  unfold bind at 1. unfold put_stats at 1.
  destruct (Z.leb_spec (n_words args) 0) as [?|_]; [lia|].
  unfold bind at 1. unfold put_words_dict at 1. cbn [words_dict stats trace].
  unfold bind at 1. rewrite Hrun.
  destruct s1 as [wd1 st1 tr1]. simpl in Hwd, Hst. subst wd1 st1.
  unfold index.
  assert (forall k : string -> M unit,
    exists outcome events,
      bind (raise IndexError) k (State initial_words_dict (Stats 0 0) tr1)
      = (outcome,
         State initial_words_dict (Stats 0 0) (tr1 ++ events))
      /\ Forall (fun ev => ~ writes_to_file ev) events
      /\ (outcome = Ok tt \/ outcome = Raise IndexError)) as Hbad.
  { intros k. exists (Raise IndexError), []. rewrite app_nil_r.
    split; [done|]. split; [constructor|by right]. }
  cbn [trace].
  destruct (re_split basename !! 2%nat) as [p2|]; [|apply Hbad].
  unfold bind at 1. unfold ret at 1.
  destruct (re_split basename !! 3%nat) as [p3|]; [|apply Hbad].
  unfold bind at 1. unfold ret at 1.
  destruct (re_split basename !! 4%nat) as [p4|]; [|apply Hbad].
  unfold bind at 1. unfold ret at 1.
  unfold open_outputs, format_lang.
  assert (forall st, get_first_n_words st initial_words_dict args = ([], None))
    as Hrank.
  { intros st. rewrite aggregated_ranker_run by apply aggregated_initial.
    by rewrite ranking_initial. }
  destruct (dry_run args); cbn [negb]; run; rewrite Hrank; run;
    rewrite <-?app_assoc; simpl; exists (Ok tt); eexists;
    (split; [reflexivity|]); (split; [|by left]);
    repeat constructor; simpl; tauto.
Qed.

(** ** What [main] writes *)

Lemma write_rows_run out lines s :
  for_each lines (fun line => emit (WriteRow out line)) s
  = (Ok tt,
     State (words_dict s) (stats s) (trace s ++ (WriteRow out <$> lines))).
Proof.
  revert s. induction lines as [|line lines IH]; intros s.
  - simpl. unfold ret. rewrite app_nil_r. by destruct s.
  - cbn [for_each]. unfold bind, emit at 1. rewrite IH. simpl.
    by rewrite <-app_assoc.
Qed.

Lemma written_rows out (lines : list row) :
  omap written_row (WriteRow out <$> lines) = lines.
Proof.
  induction lines as [|line lines IH]; [done|].
  rewrite fmap_cons. cbn [omap list_omap written_row]. by rewrite IH.
Qed.

(** When the aggregation returns, the rows that [main] writes are the
    ranking of the state the aggregation ended in, in order. *)
Lemma main_writes_the_ranking dump basename args s lang :
  0 < n_words args ->
  (process_lines dump args
     (State initial_words_dict (Stats 0 0) (trace s))).1 = Ok lang ->
  let s1 := after_aggregation dump args (trace s) in
  exists outcome events,
    main dump basename args s
    = (outcome, State (words_dict s1) (stats s1) (trace s1 ++ events))
    /\ (outcome = Ok tt \/ outcome = Raise IndexError)
    /\ (outcome = Ok tt ->
        omap written_row events = ranking (words_dict s1) (n_words args)).
Proof.
  intros Htop Hrun s1.
  pose proof (after_aggregation_aggregated dump args (trace s)) as Ha.
  fold s1 in Ha. unfold after_aggregation in s1.
  unfold main. unfold bind at 1. unfold put_stats at 1.
  destruct (Z.leb_spec (n_words args) 0) as [?|_]; [lia|].
  unfold bind at 1. unfold put_words_dict at 1. cbn [words_dict stats trace].
  unfold bind at 1.
  destruct (process_lines dump args _) as [outcome1 s1'] eqn:Hlines.
  simpl in Hrun, s1. subst outcome1 s1.
  destruct s1' as [wd1 st1 tr1]. cbn [words_dict stats trace] in *.
  assert (forall k : string -> M unit,
    exists outcome events,
      bind (raise IndexError) k (State wd1 st1 tr1)
      = (outcome, State wd1 st1 (tr1 ++ events))
      /\ (outcome = Ok tt \/ outcome = Raise IndexError)
      /\ (outcome = Ok tt ->
          omap written_row events = ranking wd1 (n_words args))) as Hbad.
  { intros k. exists (Raise IndexError), []. rewrite app_nil_r.
    split; [done|]. split; [by right|done]. }
  unfold index.
  destruct (re_split basename !! 2%nat) as [p2|]; [|apply Hbad].
  unfold bind at 1. unfold ret at 1.
  destruct (re_split basename !! 3%nat) as [p3|]; [|apply Hbad].
  unfold bind at 1. unfold ret at 1.
  destruct (re_split basename !! 4%nat) as [p4|] eqn:Hp4; [|apply Hbad].
  unfold bind at 1. unfold ret at 1.
  assert (forall sinks tr,
    exists events,
      (let '(output, stats_output) := sinks in
       emit (WriteHeader output fieldnames) ;;;
       st <- get_stats ;;
       wd <- get_words_dict ;;
       let '(lines, stop) := get_first_n_words st wd args in
       for_each lines (fun line => emit (WriteRow output line)) ;;;
       match stop with Some e => raise e | None => ret tt end ;;;
       emit (Close output) ;;;
       st <- get_stats ;;
       emit (RenderStats stats_output (stats_words st) (stats_tweets st)) ;;;
       emit (Close stats_output) ;;;
       emit (Close stats_output)) (State wd1 st1 tr)
      = (Ok tt, State wd1 st1 (tr ++ events))
      /\ omap written_row events = ranking wd1 (n_words args)) as Htail.
  { intros [output stats_output] tr.
    unfold bind at 1. unfold emit at 1. cbn [words_dict stats trace].
    unfold bind at 1. unfold get_stats at 1. cbn [words_dict stats trace].
    unfold bind at 1. unfold get_words_dict at 1. cbn [words_dict stats trace].
    rewrite aggregated_ranker_run by done.
    unfold bind at 1. rewrite write_rows_run. cbn [words_dict stats trace].
    run. eexists. rewrite <-!app_assoc. split; [reflexivity|].
    simpl. rewrite omap_app, written_rows. simpl. by rewrite app_nil_r. }
  assert (forall (p : M (sink * sink)) evs sinks,
    p (State wd1 st1 tr1) = (Ok sinks, State wd1 st1 (tr1 ++ evs)) ->
    omap written_row evs = [] ->
    exists outcome events,
      bind p (fun sinks =>
        let '(output, stats_output) := sinks in
        emit (WriteHeader output fieldnames) ;;;
        st <- get_stats ;;
        wd <- get_words_dict ;;
        let '(lines, stop) := get_first_n_words st wd args in
        for_each lines (fun line => emit (WriteRow output line)) ;;;
        match stop with Some e => raise e | None => ret tt end ;;;
        emit (Close output) ;;;
        st <- get_stats ;;
        emit (RenderStats stats_output (stats_words st) (stats_tweets st)) ;;;
        emit (Close stats_output) ;;;
        emit (Close stats_output)) (State wd1 st1 tr1)
      = (outcome, State wd1 st1 (tr1 ++ events))
      /\ (outcome = Ok tt \/ outcome = Raise IndexError)
      /\ (outcome = Ok tt ->
          omap written_row events = ranking wd1 (n_words args))) as Hopen.
  { intros p evs sinks Hp Hevs. unfold bind at 1. rewrite Hp.
    destruct (Htail sinks (tr1 ++ evs)) as (events & -> & Hrows).
    exists (Ok tt), (evs ++ events). rewrite app_assoc.
    split; [done|]. split; [by left|]. intros _.
    by rewrite omap_app, Hevs, Hrows. }
  unfold open_outputs.
  destruct (dry_run args); cbn [negb].
  - eapply (Hopen _ []); [|done]. unfold ret. by rewrite app_nil_r.
  - destruct lang as [l|].
    + destruct (re_split basename !! 0%nat) as [p0|] eqn:H0;
        [|by apply lookup_ge_None in H0;
           apply mk_is_Some, lookup_lt_is_Some in Hp4; lia].
      destruct (re_split basename !! 1%nat) as [p1|] eqn:H1;
        [|by apply lookup_ge_None in H1;
           apply mk_is_Some, lookup_lt_is_Some in Hp4; lia].
      eapply Hopen; [unfold index; rewrite H0, H1; run;
                     rewrite <-!app_assoc; reflexivity|done].
    + eapply Hopen; [run; rewrite <-!app_assoc; reflexivity|done].
Qed.

Lemma is_log_not_written ev : is_log ev -> ~ writes_to_file ev.
Proof. destruct ev; simpl; tauto. Qed.

(** C8. With a [top_n] of zero or less, [main] logs the configuration
    error and exits with status 1 at once: [words_dict] is not even
    created, both input counters of the stats are 0, the log line is the
    only thing the run does, and the dump is not looked at. *)
Theorem non_positive_top_n_exits_before_any_work dump basename args s :
  n_words args <= 0 ->
  main dump basename args s
  = (Raise (SystemExit 1),
     State (words_dict s) (Stats 0 0)
       (trace s
        ++ [Log "the parameter --n-words cannot be lower than 1, exiting..."]))
  /\ main dump basename args s = main [] basename args s.
Proof.
  intros Htop. unfold main. run.
  by destruct (Z.leb_spec (n_words args) 0) as [_|?]; [|lia].
Qed.

(** ** A users file with no record *)




(** ** The tabular branch of the loader *)

(** Once the JSON reading has failed, the loader never returns a set of
    identifiers: what it returns is [None] or the empty dictionary. *)
Lemma tabular_branch_never_loads args path e :
  users_file args = Some path ->
  collect_users (open_jsonobjects_file path) (USet ∅) = Raise e ->
  loaded_users args = UNone \/ loaded_users args = UDict [].
Proof.
  intros Hfile Hjson. unfold loaded_users. rewrite Hfile, Hjson.
  destruct (path_exists path); [|by left].
  destruct (open_csv_file path) as [|[user|e'] reader]; simpl; auto.
Qed.

Lemma collect_users_set reader ids v :
  collect_users reader (USet ids) = Ok v -> exists ids', v = USet ids'.
Proof.
  revert ids. induction reader as [|[user|e] reader IH]; intros ids; simpl.
  - intros [= <-]. eauto.
  - destruct (dict_get "id_str" user); [apply IH|done].
  - done.
Qed.

Lemma collect_users_records users ids (acc : gset string) :
  Forall2 (fun user id => dict_get "id_str" user = Some id) users ids ->
  collect_users (Yields <$> users) (USet acc)
  = Ok (USet (list_to_set ids ∪ acc)).
Proof.
  intros Hids. revert acc.
  induction Hids as [|user id users ids Hid _ IH]; intros acc.
  - simpl. by rewrite (left_id_L ∅ (∪)).
  - rewrite fmap_cons. cbn [collect_users users_add]. rewrite Hid, IH.
    rewrite list_to_set_cons. do 2 f_equal.
    rewrite (comm_L (∪) {[id]} (list_to_set ids)).
    by rewrite (assoc_L (∪)).
Qed.

(** A file of JSON objects that all have an [id_str] loads as the set of
    these identifiers. *)
Lemma json_branch_loads args path users ids :
  users_file args = Some path ->
  path_exists path = true ->
  open_jsonobjects_file path = Yields <$> users ->
  Forall2 (fun user id => dict_get "id_str" user = Some id) users ids ->
  loaded_users args = USet (list_to_set ids).
Proof.
  intros Hfile Hexists Hjson Hids. unfold loaded_users.
  rewrite Hfile, Hexists, Hjson, (collect_users_records _ ids) by done.
  by rewrite (right_id_L ∅ (∪)).
Qed.

(** * Further properties of the processor *)

(** ** The outcomes of [process_lines] *)

Lemma process_lines_cases dump args s :
  shaped (words_dict s) ->
  exists logs,
    Forall is_log logs
    /\ ((dump = [] /\ logs = []
         /\ process_lines dump args s = (Raise StopIteration, s))
        \/ (dump <> []
            /\ process_lines dump args s
               = (Ok None,
                  State (words_dict s) (stats s) (trace s ++ logs)))
        \/ (exists first rest,
              dump = first :: rest
              /\ initEmotionLexicon (tweet_lang first) = true
              /\ (users_file args = None
                  \/ users_truthy (loaded_users args) = true)
              /\ process_lines dump args s
                 = (Ok (Some (tweet_lang first)),
                    foldl (tally_post args (loaded_users args))
                      (State (words_dict s) (stats s) (trace s ++ logs))
                      dump))).
Proof.
  intros Hs. destruct dump as [|first rest].
  { exists []. split; [constructor|]. left. by destruct s. }
  destruct (users_file args) as [path|] eqn:Hfile.
  - destruct (users_truthy (loaded_users args)) eqn:Htrue.
    + exists [Log "Specified a set of users to filter the tweet"].
      split; [by repeat constructor|].
      rewrite (process_lines_filtered _ _ _ path) by done.
      rewrite process_dump_run
        by (done || (right; by apply users_truthy_not_None)).
      destruct (initEmotionLexicon _) eqn:Hinit.
      * right. right. exists first, rest. split_and!; auto.
      * right. left. split; [done|]. done.
    + destruct (process_lines_rejected first rest args path s Hfile Htrue)
        as (logs & Hrun & Hall & _).
      eexists. split; [|right; left; split; [done|exact Hrun]].
      apply Forall_app. split; [by repeat constructor|].
      apply Forall_app. split; [done|by repeat constructor].
  - exists []. split; [constructor|]. rewrite app_nil_r.
    unfold process_lines. rewrite Hfile.
    rewrite process_dump_run by auto.
    rewrite loaded_users_unfiltered by done.
    destruct (initEmotionLexicon _) eqn:Hinit.
    + right. right. exists first, rest. split_and!; auto. by destruct s.
    + right. left. split; [done|]. by destruct s.
Qed.

Lemma tally_posts_trace args valid_users s dump :
  exists dots,
    trace (foldl (tally_post args valid_users) s dump) = trace s ++ dots
    /\ Forall is_dot dots.
Proof.
  revert s. induction dump as [|t dump IH]; intros s; simpl.
  - exists []. by rewrite app_nil_r.
  - destruct (IH (tally_post args valid_users s t)) as (dots & -> & Hdots).
    unfold tally_post, progress_dot.
    destruct (passes_filter args valid_users t); [|by exists dots].
    simpl. destruct (Z.eqb _ 0).
    + exists (Dot :: dots). rewrite <-app_assoc. split; [done|].
      by constructor.
    + exists dots. by rewrite app_nil_r.
Qed.

Lemma mirrored_tally_post args valid_users s t :
  shaped (words_dict s) -> mirrored s ->
  mirrored (tally_post args valid_users s t).
Proof.
  intros Hs [Hw Ht]. unfold tally_post. case_match; [|done].
  unfold mirrored, tally_tweet. simpl.
  rewrite !total_add_total, decide_False, decide_True by done.
  rewrite total_words_tally_words, total_tweets_tally_words by done.
  split; lia.
Qed.

Lemma mirrored_tally_posts args valid_users s dump :
  shaped (words_dict s) -> mirrored s ->
  mirrored (foldl (tally_post args valid_users) s dump).
Proof.
  revert s. induction dump as [|t dump IH]; intros s Hs Hm; simpl; [done|].
  apply IH; [by apply shaped_tally_post|by apply mirrored_tally_post].
Qed.

Lemma process_lines_mirrored dump args s :
  shaped (words_dict s) -> mirrored s ->
  mirrored (process_lines dump args s).2.
Proof.
  intros Hs Hm.
  destruct (process_lines_cases dump args s Hs)
    as (logs & _ & [(_ & _ & ->)|[(_ & ->)|(first & rest & _ & _ & _ & ->)]]);
    simpl; [done..|].
  by apply mirrored_tally_posts.
Qed.

(** ** The outcomes of [main] *)

Lemma open_outputs_run basename args lang pieces date s p4 :
  pieces !! 4%nat = Some p4 ->
  exists out sout events,
    open_outputs basename args lang pieces date s
    = (Ok (out, sout),
       State (words_dict s) (stats s) (trace s ++ events))
    /\ opened args lang out sout events.
Proof.
  intros Hp4. unfold open_outputs, opened.
  destruct (dry_run args) eqn:Hdry; cbn [negb].
  - exists DevNull, DevNull, []. rewrite app_nil_r. split; [by destruct s|].
    split_and!; [constructor|done|done|done].
  - destruct lang as [l|].
    + destruct (pieces !! 0%nat) as [p0|] eqn:H0;
        [|by apply lookup_ge_None in H0;
           apply mk_is_Some, lookup_lt_is_Some in Hp4; lia].
      destruct (pieces !! 1%nat) as [p1|] eqn:H1;
        [|by apply lookup_ge_None in H1;
           apply mk_is_Some, lookup_lt_is_Some in Hp4; lia].
      unfold index. rewrite H0, H1. run. rewrite <-!app_assoc. simpl.
      do 3 eexists. split; [reflexivity|].
      split_and!; [by repeat constructor|done|done|].
      intros _. split.
      * eexists. split; [reflexivity|]. set_solver.
      * intros _. eexists. split; [reflexivity|]. set_solver.
    + run. rewrite <-!app_assoc. simpl.
      do 3 eexists. split; [reflexivity|].
      split_and!; [by repeat constructor|done|done|].
      intros _. split; [|done].
      eexists. split; [reflexivity|]. set_solver.
Qed.

Lemma main_starts dump basename args s :
  0 < n_words args ->
  main dump basename args s
  = bind (process_lines dump args) (fun lang =>
      let path_list := re_split basename in
      p2 <- index path_list 2 ;;
      p3 <- index path_list 3 ;;
      p4 <- index path_list 4 ;;
      let date := p2 +:+ "-" +:+ p3 +:+ "-" +:+ p4 in
      sinks <- open_outputs basename args lang path_list date ;;
      let '(output, stats_output) := sinks in
      emit (WriteHeader output fieldnames) ;;;
      st <- get_stats ;;
      wd <- get_words_dict ;;
      let '(lines, stop) := get_first_n_words st wd args in
      for_each lines (fun line => emit (WriteRow output line)) ;;;
      match stop with Some e => raise e | None => ret tt end ;;;
      emit (Close output) ;;;
      st <- get_stats ;;
      emit (RenderStats stats_output (stats_words st) (stats_tweets st)) ;;;
      emit (Close stats_output) ;;;
      emit (Close stats_output))
      (State initial_words_dict (Stats 0 0) (trace s)).
Proof.
  intros Htop. unfold main. unfold bind at 1. unfold put_stats at 1.
  destruct (Z.leb_spec (n_words args) 0) as [?|_]; [lia|].
  unfold bind at 1. unfold put_words_dict at 1. done.
Qed.

Lemma main_propagates dump basename args s e s1 :
  0 < n_words args ->
  process_lines dump args (State initial_words_dict (Stats 0 0) (trace s))
  = (Raise e, s1) ->
  main dump basename args s = (Raise e, s1).
Proof.
  intros Htop Hrun. rewrite main_starts by done. unfold bind at 1.
  by rewrite Hrun.
Qed.

Lemma main_bad_basename dump basename args s lang s1 :
  0 < n_words args ->
  process_lines dump args (State initial_words_dict (Stats 0 0) (trace s))
  = (Ok lang, s1) ->
  re_split basename !! 4%nat = None ->
  main dump basename args s = (Raise IndexError, s1).
Proof.
  intros Htop Hrun Hp4. rewrite main_starts by done. unfold bind at 1.
  rewrite Hrun. unfold index.
  destruct (re_split basename !! 2%nat) as [p2|]; [|done].
  unfold bind at 1. unfold ret at 1.
  destruct (re_split basename !! 3%nat) as [p3|]; [|done].
  unfold bind at 1. unfold ret at 1.
  by rewrite Hp4.
Qed.

Lemma main_completed dump basename args s lang s1 p4 :
  0 < n_words args ->
  process_lines dump args (State initial_words_dict (Stats 0 0) (trace s))
  = (Ok lang, s1) ->
  re_split basename !! 4%nat = Some p4 ->
  exists out sout events,
    opened args lang out sout events
    /\ main dump basename args s
       = (Ok tt,
          State (words_dict s1) (stats s1)
            (trace s1 ++ events
             ++ written out sout (ranking (words_dict s1) (n_words args))
                  (stats s1))).
Proof.
  intros Htop Hrun Hp4.
  assert (aggregated (words_dict s1)) as Ha.
  { pose proof (process_lines_aggregated dump args
      (State initial_words_dict (Stats 0 0) (trace s)) aggregated_initial)
      as Ha. by rewrite Hrun in Ha. }
  rewrite main_starts by done. unfold bind at 1. rewrite Hrun.
  assert (is_Some (re_split basename !! 2%nat)) as [p2 Hp2].
  { apply lookup_lt_is_Some.
    apply mk_is_Some, lookup_lt_is_Some in Hp4. lia. }
  assert (is_Some (re_split basename !! 3%nat)) as [p3 Hp3].
  { apply lookup_lt_is_Some.
    apply mk_is_Some, lookup_lt_is_Some in Hp4. lia. }
  unfold index. rewrite Hp2, Hp3, Hp4.
  unfold bind at 1. unfold ret at 1.
  unfold bind at 1. unfold ret at 1.
  unfold bind at 1. unfold ret at 1.
  destruct (open_outputs_run basename args lang (re_split basename)
              (p2 +:+ "-" +:+ p3 +:+ "-" +:+ p4) s1 p4 Hp4)
    as (out & sout & events & Hopen & Hfacts).
  exists out, sout, events. split; [done|].
  unfold bind at 1. rewrite Hopen.
  unfold bind at 1. unfold emit at 1. cbn [words_dict stats trace].
  unfold bind at 1. unfold get_stats at 1. cbn [words_dict stats trace].
  unfold bind at 1. unfold get_words_dict at 1. cbn [words_dict stats trace].
  rewrite aggregated_ranker_run by done.
  unfold bind at 1. rewrite write_rows_run. cbn [words_dict stats trace].
  run. unfold written. by rewrite <-!app_assoc.
Qed.

Lemma re_split_length s : length (re_split s) = S (separators s).
Proof.
  induction s as [|c s IH]; [done|]. simpl.
  destruct (is_separator c); simpl; [by rewrite IH|].
  destruct (re_split s); simpl in *; lia.
Qed.

Lemma re_split_lookup_4 s :
  if decide (4 <= separators s)%nat
  then is_Some (re_split s !! 4%nat)
  else re_split s !! 4%nat = None.
Proof.
  case_decide.
  - apply lookup_lt_is_Some. rewrite re_split_length. lia.
  - apply lookup_ge_None. rewrite re_split_length. lia.
Qed.

Lemma not_written_not_touching ev :
  is_log ev \/ is_dot ev -> ~ touches_files ev.
Proof. destruct ev; simpl; tauto. Qed.

Lemma process_lines_trace dump args s :
  shaped (words_dict s) ->
  exists events,
    trace (process_lines dump args s).2 = trace s ++ events
    /\ Forall (fun ev => is_log ev \/ is_dot ev) events.
Proof.
  intros Hs.
  destruct (process_lines_cases dump args s Hs)
    as (logs & Hlogs
        & [(_ & -> & ->)|[(_ & ->)|(first & rest & -> & _ & _ & ->)]]);
    cbn [snd].
  - exists []. by rewrite app_nil_r.
  - exists logs. split; [done|]. eapply Forall_impl; [exact Hlogs|]. tauto.
  - destruct (tally_posts_trace args (loaded_users args)
                (State (words_dict s) (stats s) (trace s ++ logs))
                (first :: rest)) as (dots & Htrace & Hdots).
    exists (logs ++ dots).
    rewrite Htrace. cbn [trace]. rewrite app_assoc. split; [done|].
    apply Forall_app. split.
    + eapply Forall_impl; [exact Hlogs|]. tauto.
    + eapply Forall_impl; [exact Hdots|]. tauto.
Qed.

(** C6, as amended. When a users file is configured and does not load (it
    is missing, or it parses neither as JSON objects nor as a table),
    [process_lines] logs that the file of valid users could not be found
    and returns [None] before any aggregation, with [words_dict] and
    [stats] untouched: no post is counted. [main] is not aborted by this:
    it goes on with the empty ranking and returns normally, or ends with
    [IndexError] when the basename has fewer than four separators, with
    every counter at its initial value and with neither the header nor a
    row of the ranked output written to a file. *)
Theorem failed_users_file_stops_the_aggregation first dump basename args s :
  load_failed args ->
  0 < n_words args ->
  (exists logs,
     process_lines (first :: dump) args s
     = (Ok None, State (words_dict s) (stats s) (trace s ++ logs))
     /\ Log users_not_found ∈ logs
     /\ Forall is_log logs)
  /\ exists outcome events,
       main (first :: dump) basename args s
       = (outcome,
          State initial_words_dict (Stats 0 0) (trace s ++ events))
       /\ Log users_not_found ∈ events
       /\ Forall (fun ev => ~ writes_to_file ev) events
       /\ ((4 <= separators basename)%nat -> outcome = Ok tt)
       /\ ((separators basename < 4)%nat -> outcome = Raise IndexError).
Proof.
  intros Hfail Htop.
  pose proof (load_failed_loaded _ Hfail) as Hnone.
  destruct Hfail as (path & Hfile & _).
  assert (users_truthy (loaded_users args) = false) as Hfalse
    by (by rewrite Hnone).
  assert (forall s0, exists logs,
    process_lines (first :: dump) args s0
    = (Ok None, State (words_dict s0) (stats s0) (trace s0 ++ logs))
    /\ Log users_not_found ∈ logs
    /\ Forall is_log logs) as Hlines.
  { intros s0.
    destruct (process_lines_rejected first dump args path s0 Hfile Hfalse)
      as (logs & Hrun & Hall & _).
    eexists. split; [exact Hrun|]. split.
    - rewrite !elem_of_app. right. right. apply list_elem_of_singleton. done.
    - apply Forall_app. split; [by repeat constructor|].
      apply Forall_app. split; [done|by repeat constructor]. }
  split; [apply Hlines|].
  destruct (Hlines (State initial_words_dict (Stats 0 0) (trace s)))
    as (logs & Hrun & Hdiag & Hall).
  destruct (main_without_language (first :: dump) basename args s _
              Htop Hrun eq_refl eq_refl)
    as (outcome & events & Hmain & Hquiet & Hout).
  pose proof (re_split_lookup_4 basename) as Hp4.
  exists outcome, (logs ++ events). split_and!.
  - rewrite Hmain. simpl. by rewrite app_assoc.
  - apply elem_of_app. by left.
  - apply Forall_app. split; [|done].
    eapply Forall_impl; [exact Hall|]. apply is_log_not_written.
  - intros Hmany. rewrite decide_True in Hp4 by lia.
    destruct Hp4 as [p4 Hp4].
    destruct (main_completed _ _ _ _ _ _ _ Htop Hrun Hp4)
      as (out & sout & evs & _ & Hdone).
    rewrite Hdone in Hmain. by injection Hmain as <- _.
  - intros Hfew. rewrite decide_False in Hp4 by lia.
    rewrite (main_bad_basename _ _ _ _ _ _ Htop Hrun Hp4) in Hmain.
    by injection Hmain as <- _.
Qed.


(** X2. When the basename has fewer than four separators, [main] fails
    only after the whole aggregation has run: it ends with [IndexError] in
    the state the aggregation reached, having logged and printed progress
    dots and nothing else. No directory is made and no file is opened, so
    the counts are lost. *)
Theorem short_basename_fails_after_the_aggregation dump basename args s :
  0 < n_words args ->
  dump <> [] ->
  (separators basename < 4)%nat ->
  main dump basename args s
  = (Raise IndexError, after_aggregation dump args (trace s))
  /\ exists events,
       trace (after_aggregation dump args (trace s)) = trace s ++ events
       /\ Forall (fun ev => is_log ev \/ is_dot ev) events.
Proof.
  intros Htop Hne Hfew. split.
  - pose proof (process_lines_cases dump args
      (State initial_words_dict (Stats 0 0) (trace s)) shaped_initial)
      as (logs & _ & Hcases).
    pose proof (re_split_lookup_4 basename) as Hp4.
    rewrite decide_False in Hp4 by lia. unfold after_aggregation.
    destruct Hcases as [(? & _)|[(_ & Hrun)|(? & ? & _ & _ & _ & Hrun)]];
      [done|..];
      rewrite (main_bad_basename _ _ _ _ _ _ Htop Hrun Hp4);
      by rewrite Hrun.
  - apply (process_lines_trace dump args
             (State initial_words_dict (Stats 0 0) (trace s))),
      shaped_initial.
Qed.

Lemma written_to_null_touches_nothing lines st :
  Forall (fun ev => ~ touches_files ev) (written DevNull DevNull lines st).
Proof.
  unfold written. apply Forall_app. split.
  { constructor; [simpl; tauto|constructor]. }
  apply Forall_app. split.
  - apply Forall_fmap, Forall_forall. intros line _. simpl. tauto.
  - repeat (constructor; [simpl; tauto|]). constructor.
Qed.

(** X3. With [dry_run] set, [main] creates no directory, opens no file and
    writes nothing to a file, whatever else it is given: every event of
    the run is a log line, a progress dot, or a write to the null sink. *)
Theorem dry_run_touches_no_file dump basename args s :
  dry_run args = true ->
  exists events,
    trace (main dump basename args s).2 = trace s ++ events
    /\ Forall (fun ev => ~ touches_files ev) events.
Proof.
  intros Hdry. destruct (Z.leb_spec (n_words args) 0) as [Hle|Htop].
  { unfold main. run. destruct (Z.leb_spec (n_words args) 0); [|lia].
    simpl. eexists. split; [done|]. repeat constructor. simpl. tauto. }
  pose proof (process_lines_cases dump args
    (State initial_words_dict (Stats 0 0) (trace s)) shaped_initial)
    as (logs & _ & Hcases).
  pose proof (process_lines_trace dump args
    (State initial_words_dict (Stats 0 0) (trace s)) shaped_initial)
    as (events1 & Htrace & Hquiet1).
  cbn [trace] in Htrace.
  assert (Forall (fun ev => ~ touches_files ev) events1) as Hquiet.
  { eapply Forall_impl; [exact Hquiet1|]. apply not_written_not_touching. }
  assert (forall outcome,
    (process_lines dump args
       (State initial_words_dict (Stats 0 0) (trace s))).1 = Ok outcome ->
    exists events,
      trace (main dump basename args s).2 = trace s ++ events
      /\ Forall (fun ev => ~ touches_files ev) events) as Hok.
  { intros lang Hlang.
    destruct (process_lines dump args _) as [o1 s1] eqn:Hrun.
    simpl in Hlang, Htrace. subst o1.
    pose proof (re_split_lookup_4 basename) as Hp4.
    case_decide.
    - destruct Hp4 as [p4 Hp4].
      destruct (main_completed _ _ _ _ _ _ _ Htop Hrun Hp4)
        as (out & sout & events & (_ & Hnull & _) & ->).
      destruct (Hnull Hdry) as (-> & -> & ->). cbn [snd trace].
      rewrite Htrace, <-app_assoc. eexists. split; [done|].
      apply Forall_app. split; [done|]. apply written_to_null_touches_nothing.
    - rewrite (main_bad_basename _ _ _ _ _ _ Htop Hrun Hp4). by exists events1. }
  destruct Hcases as [(_ & _ & Hrun)|[(_ & Hrun)|(? & ? & _ & _ & _ & Hrun)]].
  - rewrite (main_propagates _ _ _ _ _ _ Htop Hrun). exists [].
    by rewrite app_nil_r.
  - apply (Hok None). by rewrite Hrun.
  - eapply Hok. by rewrite Hrun.
Qed.

(** X4. The stats of a run count what [words_dict] counts: after the
    aggregation of any dump, the two input counters of the stats equal
    [total_words_matched] and [total_posts]. When [main] returns, the
    report it renders carries these two totals. *)
Theorem stats_report_carries_the_totals dump basename args s :
  mirrored (after_aggregation dump args (trace s))
  /\ forall s',
       0 < n_words args ->
       main dump basename args s = (Ok tt, s') ->
       words_dict s' = words_dict (after_aggregation dump args (trace s))
       /\ exists sout,
            RenderStats sout (total "words" (words_dict s'))
              (total "tweets" (words_dict s')) ∈ trace s'.
Proof.
  assert (mirrored (after_aggregation dump args (trace s))) as Hm.
  { apply process_lines_mirrored; [apply shaped_initial|done]. }
  split; [done|]. intros s' Htop Hmain.
  unfold after_aggregation in *.
  destruct (process_lines dump args _) as [o1 s1] eqn:Hrun.
  destruct o1 as [lang|e];
    [|by rewrite (main_propagates _ _ _ _ _ _ Htop Hrun) in Hmain].
  pose proof (re_split_lookup_4 basename) as Hp4. case_decide;
    [|by rewrite (main_bad_basename _ _ _ _ _ _ Htop Hrun Hp4) in Hmain].
  destruct Hp4 as [p4 Hp4].
  destruct (main_completed _ _ _ _ _ _ _ Htop Hrun Hp4)
    as (out & sout & events & _ & Hdone).
  rewrite Hdone in Hmain. injection Hmain as <-.
  cbn [snd words_dict trace] in *.
  split; [done|]. exists sout. destruct Hm as [<- <-]. unfold written.
  rewrite !elem_of_app. right. right. right. right.
  apply elem_of_cons. right. apply elem_of_cons. by left.
Qed.

(** X5. When [main] returns, what it did after the aggregation is, in
    order: open its sinks, write the header, write the rows of the
    ranking of the final counters one by one, close the output, render
    the stats, close the report. The rows go to a file exactly when the
    run is not a dry run and the aggregation returned a language;
    otherwise they go to the null sink. *)
Theorem completed_run_writes_header_rows_and_report
    dump basename args s s' :
  0 < n_words args ->
  main dump basename args s = (Ok tt, s') ->
  exists lang out sout events,
    (process_lines dump args
       (State initial_words_dict (Stats 0 0) (trace s))).1 = Ok lang
    /\ opened args lang out sout events
    /\ trace s'
       = trace (after_aggregation dump args (trace s)) ++ events
         ++ written out sout (ranking (words_dict s') (n_words args))
              (stats s').
Proof.
  intros Htop Hmain. unfold after_aggregation.
  destruct (process_lines dump args _) as [o1 s1] eqn:Hrun.
  destruct o1 as [lang|e];
    [|by rewrite (main_propagates _ _ _ _ _ _ Htop Hrun) in Hmain].
  pose proof (re_split_lookup_4 basename) as Hp4. case_decide;
    [|by rewrite (main_bad_basename _ _ _ _ _ _ Htop Hrun Hp4) in Hmain].
  destruct Hp4 as [p4 Hp4].
  destruct (main_completed _ _ _ _ _ _ _ Htop Hrun Hp4)
    as (out & sout & events & Hopen & Hdone).
  rewrite Hdone in Hmain. injection Hmain as <-.
  by exists lang, out, sout, events.
Qed.

(** ** More of what the aggregation keeps true *)

Lemma process_lines_preserves (P : list (string * pyval) -> Prop)
    dump args s :
  shaped (words_dict s) ->
  P (words_dict s) ->
  (forall wd t, shaped wd -> P wd -> P (tally_tweet wd t)) ->
  P (words_dict (process_lines dump args s).2).
Proof.
  intros Hs HP Hstep.
  assert (forall valid_users posts s0,
    shaped (words_dict s0) -> P (words_dict s0) ->
    P (words_dict (foldl (tally_post args valid_users) s0 posts))) as Hfold.
  { intros valid_users posts.
    induction posts as [|t posts IH]; intros s0 Hs0 HP0; simpl; [done|].
    apply IH; [by apply shaped_tally_post|].
    unfold tally_post. case_match; [|done]. by apply Hstep. }
  destruct (process_lines_cases dump args s Hs)
    as (logs & _ & [(_ & _ & ->)|[(_ & ->)|(first & rest & _ & _ & _ & ->)]]);
    cbn [snd words_dict]; [done..|].
  by apply Hfold.
Qed.

Lemma dict_get_set_inv {V} k k' (v c : V) d :
  dict_get k' (dict_set k v d) = Some c ->
  (k' = k /\ c = v) \/ dict_get k' d = Some c.
Proof.
  destruct (decide (k = k')) as [<-|Hne].
  - rewrite dict_get_set_eq. intros [= <-]. by left.
  - rewrite dict_get_set_ne by done. by right.
Qed.

Lemma count_nonneg e w wd :
  positive_counts wd -> e ∈ RELEVANT_EMOTIONS -> 0 <= count e w wd.
Proof.
  intros Hpos He. unfold count.
  destruct (dict_get w (emotion_words e wd)) as [c|] eqn:Hget; [|done].
  specialize (Hpos e w c He Hget). lia.
Qed.

Lemma positive_counts_bump e w wd :
  positive_counts wd -> e ∈ RELEVANT_EMOTIONS ->
  positive_counts (bump e w wd).
Proof.
  intros Hpos He e' w' c He'. rewrite emotion_words_bump.
  case_decide as Heq; [|by apply Hpos]. subst e'.
  intros [[-> ->]|Hold]%dict_get_set_inv; [|by apply (Hpos e w')].
  pose proof (count_nonneg e w wd Hpos He). lia.
Qed.

Lemma positive_counts_add_total key wd :
  shaped wd -> key = "words" \/ key = "tweets" ->
  positive_counts wd -> positive_counts (add_total key wd).
Proof.
  intros Hs Hkey Hpos e w c He. rewrite emotion_words_add_total by done.
  by apply Hpos.
Qed.

Lemma positive_counts_tally_tweet wd t :
  shaped wd -> positive_counts wd -> positive_counts (tally_tweet wd t).
Proof.
  intros Hs Hpos. unfold tally_tweet.
  assert (forall tokens wd0,
    shaped wd0 -> positive_counts wd0 ->
    positive_counts (foldl tally_word wd0 tokens)) as Hwords.
  { induction tokens as [|w tokens IH]; intros wd0 Hs0 Hpos0; simpl; [done|].
    apply IH; [by apply shaped_tally_word|].
    unfold tally_word.
    assert (forall names wd1,
      Forall (fun e => e ∈ RELEVANT_EMOTIONS) names ->
      positive_counts wd1 ->
      positive_counts (foldl (fun wd e => bump e w wd) wd1 names)) as Hbumps.
    { intros names wd1 Hall. revert wd1.
      induction Hall as [|e names He _ IHn]; intros wd1 Hp1; simpl; [done|].
      by apply IHn, positive_counts_bump. }
    apply Hbumps; [apply relevant_names_relevant|].
    case_bool_decide; [done|]. apply positive_counts_add_total; auto. }
  apply positive_counts_add_total; auto using shaped_tally_words.
Qed.

Lemma positive_counts_initial : positive_counts initial_words_dict.
Proof. intros e w c He. by rewrite emotion_words_initial. Qed.

Lemma after_aggregation_positive dump args events :
  positive_counts (words_dict (after_aggregation dump args events)).
Proof.
  apply (process_lines_preserves positive_counts);
    [apply shaped_initial|apply positive_counts_initial|].
  apply positive_counts_tally_tweet.
Qed.

Lemma occurrences_le_matched e w :
  NoDup (emotion_names w) -> occurrences e (relevant_names w) <= matched w.
Proof.
  intros Hnd. rewrite occurrences_NoDup by (by apply NoDup_relevant_names).
  unfold matched. case_decide as Hin; [|case_bool_decide; lia].
  apply elem_of_relevant_names in Hin as [_ Hin].
  unfold emotion_names in Hin. case_bool_decide as Hnil; [|done].
  rewrite Hnil in Hin. by apply elem_of_nil in Hin.
Qed.

Lemma bounded_counts_tally_tweet wd t :
  (forall w, NoDup (emotion_names w)) ->
  shaped wd -> bounded_counts wd -> bounded_counts (tally_tweet wd t).
Proof.
  intros Hset Hs Hb. unfold tally_tweet.
  assert (forall tokens wd0,
    shaped wd0 -> bounded_counts wd0 ->
    bounded_counts (foldl tally_word wd0 tokens)) as Hwords.
  { induction tokens as [|w tokens IH]; intros wd0 Hs0 Hb0; simpl; [done|].
    apply IH; [by apply shaped_tally_word|].
    intros e w' He. rewrite count_tally_word, total_words_tally_word by done.
    specialize (Hb0 e w' He).
    pose proof (occurrences_le_matched e w (Hset w)).
    assert (0 <= matched w) by (unfold matched; case_bool_decide; lia).
    case_decide; lia. }
  intros e w He. rewrite count_add_total by auto using shaped_tally_words.
  rewrite total_add_total, decide_False by done. by apply Hwords.
Qed.

Lemma bounded_counts_initial : bounded_counts initial_words_dict.
Proof.
  intros e w He. unfold count. by rewrite emotion_words_initial.
Qed.

Lemma after_aggregation_bounded dump args events :
  (forall w, NoDup (emotion_names w)) ->
  bounded_counts (words_dict (after_aggregation dump args events)).
Proof.
  intros Hset.
  apply (process_lines_preserves bounded_counts);
    [apply shaped_initial|apply bounded_counts_initial|].
  intros wd t. by apply bounded_counts_tally_tweet.
Qed.

(** ** More on the order and the choice of the rows *)

Lemma sorted_items_count wd e kv :
  NoDup (emotion_words e wd).*1 ->
  kv ∈ sorted_desc (emotion_words e wd) ->
  dict_get kv.1 (emotion_words e wd) = Some kv.2 /\ count e kv.1 wd = kv.2.
Proof.
  intros Hnd Hin. rewrite sorted_desc_perm in Hin.
  assert (dict_get kv.1 (emotion_words e wd) = Some kv.2) as Hget.
  { apply dict_get_elem; [done|]. by destruct kv. }
  split; [done|]. unfold count. by rewrite Hget.
Qed.

Lemma top_words_items top words :
  top_words top words
  = (take (Z.to_nat (Z.min top (len words))) (sorted_desc words)).*1.
Proof. unfold top_words. by rewrite fmap_take. Qed.

Lemma take_sorted n words :
  StronglySorted (fun a b => b.2 <= a.2) (take n (sorted_desc words)).
Proof.
  apply (StronglySorted_app_1_l _ _ (drop n (sorted_desc words))).
  rewrite take_drop. apply sorted_desc_sorted.
Qed.

Lemma ranked_sorted wd top e :
  NoDup (emotion_words e wd).*1 ->
  StronglySorted (fun r r' => row_occurrences r' <= row_occurrences r)
    (ranked wd top e).
Proof.
  intros Hnd. unfold ranked. rewrite top_words_items.
  pose proof (take_sorted (Z.to_nat (Z.min top (len (emotion_words e wd))))
                (emotion_words e wd)) as Hsorted.
  assert (Forall (fun kv => kv ∈ sorted_desc (emotion_words e wd))
            (take (Z.to_nat (Z.min top (len (emotion_words e wd))))
               (sorted_desc (emotion_words e wd)))) as Hall.
  { apply Forall_forall. intros kv Hin. apply elem_of_take in Hin.
    destruct Hin as (i & Hi & _). by apply list_elem_of_lookup_2 in Hi. }
  induction Hsorted as [|kv items _ IH Hkv]; [constructor|].
  apply Forall_cons in Hall as [Hin Hall].
  rewrite !fmap_cons. constructor; [by apply IH|].
  apply Forall_fmap, Forall_fmap, Forall_forall. intros kv' Hin'. simpl.
  rewrite Forall_forall in Hkv, Hall.
  destruct (sorted_items_count wd e kv Hnd Hin) as [_ ->].
  destruct (sorted_items_count wd e kv' Hnd (Hall _ Hin')) as [_ ->].
  by apply Hkv.
Qed.

Lemma ranked_words wd top e :
  row_word <$> ranked wd top e = top_words top (emotion_words e wd).
Proof.
  unfold ranked. rewrite <-list_fmap_compose.
  by rewrite <-(list_fmap_id (top_words _ _)) at 2.
Qed.

Lemma top_words_NoDup top words : NoDup words.*1 -> NoDup (top_words top words).
Proof.
  intros Hnd. unfold top_words.
  eapply sublist_NoDup; [|apply sublist_take].
  by rewrite sorted_desc_perm.
Qed.

Lemma top_words_all top words :
  len words <= top -> top_words top words ≡ₚ words.*1.
Proof.
  intros Hle. unfold top_words. rewrite take_ge.
  - by rewrite sorted_desc_perm.
  - rewrite length_fmap, sorted_desc_length. unfold len in *. lia.
Qed.

(** A word with more occurrences than a word of the top is in the top. *)
Lemma top_words_dominate wd top e w w' :
  NoDup (emotion_words e wd).*1 ->
  w ∈ top_words top (emotion_words e wd) ->
  w' ∈ (emotion_words e wd).*1 ->
  count e w wd < count e w' wd ->
  w' ∈ top_words top (emotion_words e wd).
Proof.
  intros Hnd Hw Hw' Hlt. rewrite top_words_items in *.
  set (n := Z.to_nat (Z.min top (len (emotion_words e wd)))) in *.
  apply list_elem_of_fmap in Hw as (kv & -> & Hkv).
  rewrite <-(sorted_desc_perm (emotion_words e wd)) in Hw'.
  apply list_elem_of_fmap in Hw' as (kv' & -> & Hkv').
  assert (kv ∈ sorted_desc (emotion_words e wd)) as Hin.
  { apply elem_of_take in Hkv as (i & Hi & _).
    by apply list_elem_of_lookup_2 in Hi. }
  destruct (sorted_items_count wd e kv Hnd Hin) as [_ Hc].
  destruct (sorted_items_count wd e kv' Hnd Hkv') as [_ Hc'].
  rewrite <-(take_drop n (sorted_desc (emotion_words e wd))) in Hkv'.
  apply elem_of_app in Hkv' as [Htop|Hrest].
  - apply list_elem_of_fmap. by exists kv'.
  - pose proof (sorted_desc_sorted (emotion_words e wd)) as Hsorted.
    rewrite <-(take_drop n) in Hsorted.
    pose proof (StronglySorted_app_1_elem_of _ _ _ _ _ Hsorted Hkv Hrest).
    simpl in *. lia.
Qed.

Lemma after_aggregation_rows dump args events :
  (get_first_n_words (stats (after_aggregation dump args events))
     (words_dict (after_aggregation dump args events)) args).1
  = ranking (words_dict (after_aggregation dump args events)) (n_words args).
Proof.
  by rewrite aggregated_ranker_run by apply after_aggregation_aggregated.
Qed.

Lemma after_aggregation_distinct dump args events e :
  e ∈ RELEVANT_EMOTIONS ->
  NoDup (emotion_words e (words_dict (after_aggregation dump args events))).*1.
Proof.
  intros He.
  destruct (after_aggregation_aggregated dump args events)
    as [(_ & _ & _ & _ & Hnd) _].
  auto.
Qed.

(** ** The ranker orders by count, then by insertion *)

Lemma precedes_cons_head {A} (x : A) l b : b ∈ l -> precedes (x :: l) x b.
Proof.
  intros (j & Hj)%list_elem_of_lookup_1. exists 0%nat, (S j). split; [lia|done].
Qed.

Lemma precedes_cons_tail {A} (x : A) l a b :
  precedes l a b -> precedes (x :: l) a b.
Proof.
  intros (i & j & Hij & Hi & Hj). exists (S i), (S j). split; [lia|done].
Qed.

Lemma precedes_NoDup {A} (l : list A) a b :
  NoDup l -> precedes l a b -> precedes l b a -> False.
Proof.
  intros Hnd (i & j & Hij & Hi & Hj) (i' & j' & Hij' & Hi' & Hj').
  pose proof (NoDup_lookup _ _ _ _ Hnd Hi Hj').
  pose proof (NoDup_lookup _ _ _ _ Hnd Hj Hi'). lia.
Qed.

Lemma ranks_before_cons x words a b :
  ranks_before words a b -> ranks_before (x :: words) a b.
Proof.
  intros [Hlt|[Heq Hpre]]; [by left|right].
  split; [done|by apply precedes_cons_tail].
Qed.

Lemma ranks_before_le words a b : ranks_before words a b -> b.2 <= a.2.
Proof. intros [Hlt|[Heq _]]; lia. Qed.

Lemma ranks_before_asym words a b :
  NoDup words -> ranks_before words a b -> ranks_before words b a -> False.
Proof.
  intros Hnd [Hlt|[Heq Hpre]] [Hlt'|[Heq' Hpre']]; try lia.
  by apply (precedes_NoDup words a b).
Qed.

Lemma insert_desc_ranked x words l :
  StronglySorted (ranks_before words) l ->
  (forall y, y ∈ l -> y ∈ words) ->
  StronglySorted (ranks_before (x :: words)) (insert_desc x l).
Proof.
  induction 1 as [|y l Hl IH Hy]; intros Hin; simpl.
  - repeat constructor.
  - assert (forall z, z ∈ l -> z ∈ words) as Hin'
      by (intros z Hz; apply Hin; by right).
    assert (StronglySorted (ranks_before (x :: words)) (y :: l)) as Hyl.
    { constructor.
      - clear IH Hy Hin. induction Hl as [|z l Hl IHl Hz]; [constructor|].
        constructor; [apply IHl; intros; apply Hin'; by right|].
        eapply Forall_impl; [exact Hz|]. intros. by apply ranks_before_cons.
      - eapply Forall_impl; [exact Hy|]. intros. by apply ranks_before_cons. }
    destruct (Z.leb_spec y.2 x.2) as [Hle|Hlt].
    + constructor; [done|]. apply Forall_forall. intros z Hz.
      assert (z.2 <= y.2) as Hzy.
      { apply elem_of_cons in Hz as [->|Hz]; [lia|].
        rewrite Forall_forall in Hy. by apply (ranks_before_le words), Hy. }
      destruct (decide (z.2 < x.2)) as [?|Hge]; [by left|right].
      split; [lia|]. by apply precedes_cons_head, Hin.
    + constructor; [by apply IH|].
      rewrite insert_desc_perm. constructor; [left; simpl; lia|].
      eapply Forall_impl; [exact Hy|]. intros. by apply ranks_before_cons.
Qed.

Lemma sorted_desc_ranked words :
  StronglySorted (ranks_before words) (sorted_desc words).
Proof.
  induction words as [|x words IH]; simpl; [constructor|].
  apply insert_desc_ranked; [done|].
  intros y. by rewrite sorted_desc_perm.
Qed.

(** The rule leaves no choice: only one arrangement of a dictionary
    follows it. *)
Lemma ranked_order_unique words order order' :
  NoDup words ->
  order ≡ₚ words -> StronglySorted (ranks_before words) order ->
  order' ≡ₚ words -> StronglySorted (ranks_before words) order' ->
  order' = order.
Proof.
  intros Hnd Hperm Hsorted Hperm' Hsorted'.
  apply (StronglySorted_unique_strong (ranks_before words)); [|done..|].
  - intros a b _ _ Hab Hba. by destruct (ranks_before_asym words a b).
  - by rewrite Hperm, Hperm'.
Qed.

Lemma fmap_id_on {A} (f : A -> A) l :
  Forall (fun x => f x = x) l -> f <$> l = l.
Proof.
  induction 1 as [|x l Hx _ IH]; [done|]. by rewrite fmap_cons, Hx, IH.
Qed.

Lemma ranked_items wd top e :
  NoDup (emotion_words e wd).*1 ->
  row_item <$> ranked wd top e
  = take (Z.to_nat top) (sorted_desc (emotion_words e wd)).
Proof.
  intros Hnd. unfold ranked. rewrite top_words_items.
  assert (take (Z.to_nat (Z.min top (len (emotion_words e wd))))
            (sorted_desc (emotion_words e wd))
          = take (Z.to_nat top) (sorted_desc (emotion_words e wd))) as ->.
  { destruct (decide (top <= len (emotion_words e wd))) as [Hle|Hgt].
    - by rewrite Z.min_l by done.
    - rewrite Z.min_r by lia.
      rewrite !take_ge;
        [done|rewrite sorted_desc_length; unfold len in *; lia..]. }
  rewrite <-!list_fmap_compose. apply fmap_id_on, Forall_forall.
  intros kv Hin. apply elem_of_take in Hin as (i & Hi & _).
  apply list_elem_of_lookup_2 in Hi.
  destruct (sorted_items_count wd e kv Hnd Hi) as [_ Hcount].
  unfold row_item, row_of. simpl. rewrite Hcount. by destruct kv.
Qed.

Lemma NoDup_items {V} (d : list (string * V)) : NoDup d.*1 -> NoDup d.
Proof. apply NoDup_fmap_1. Qed.

(** C5, as amended. The ranker's rows for an emotion are fixed by the
    dictionary of that emotion, taken with the order in which it holds
    its words, and by [top_n]: they are the first [top_n] items of the one
    arrangement of the dictionary that puts the larger count first and,
    among equal counts, the word the dictionary holds first (the word
    that was counted first). Nothing else of the run state matters, so two
    runs on the same dictionary give the same rows. Counters that are
    equal as mappings but hold their words in another order are ranked by
    the same rule and can give other rows. On happy 5, glad 5, fun 3 with
    a [top_n] of 2 the rows are those of happy and glad, in this order;
    on fun 3, glad 5, happy 5 they are those of glad and happy. *)
Theorem ranking_follows_counts_then_insertion_order :
  (forall st wd args e,
     aggregated wd ->
     e ∈ RELEVANT_EMOTIONS ->
     let words := emotion_words e wd in
     let rows := (get_first_n_words st wd args).1 in
     exists order,
       order ≡ₚ words
       /\ StronglySorted (ranks_before words) order
       /\ (forall order',
             order' ≡ₚ words ->
             StronglySorted (ranks_before words) order' -> order' = order)
       /\ row_item <$> rows_of_emotion e rows
          = take (Z.to_nat (n_words args)) order)
  /\ (forall st1 st2 wd args1 args2,
        n_words args1 = n_words args2 ->
        get_first_n_words st1 wd args1 = get_first_n_words st2 wd args2)
  /\ row_word
       <$> (get_first_n_words (Stats 13 4) tie_example_words_dict
              (Args 2 None false "" None)).1
     = ["happy"; "glad"]
  /\ row_word
       <$> (get_first_n_words (Stats 13 4)
              (dict_set "joy" (PDict [("fun", 3); ("glad", 5); ("happy", 5)])
                 tie_example_words_dict)
              (Args 2 None false "" None)).1
     = ["glad"; "happy"].
Proof.
  split_and!; [| |reflexivity..].
  - intros st wd args e Ha He words rows. subst words rows.
    assert (NoDup (emotion_words e wd).*1) as Hnd.
    { destruct Ha as [(_ & _ & _ & _ & Hnd) _]. auto. }
    exists (sorted_desc (emotion_words e wd)). split_and!.
    + apply sorted_desc_perm.
    + apply sorted_desc_ranked.
    + intros order' Hperm Hsorted.
      apply (ranked_order_unique (emotion_words e wd));
        [by apply NoDup_items|apply sorted_desc_perm
        |apply sorted_desc_ranked|done..].
    + rewrite aggregated_ranker_run by done. cbn [fst].
      rewrite rows_of_emotion_ranking by done. by apply ranked_items.
  - intros st1 st2 wd args1 args2 Htop. unfold get_first_n_words.
    by rewrite Htop.
Qed.

(** X6. The ranker keeps the most frequent words: after the aggregation
    of any dump, if a row is emitted for an emotion, then every word
    recorded under that emotion with strictly more occurrences than the
    row's has a row of its own, carrying its count. Words tied with the
    last row may be cut. *)
Theorem emitted_words_are_the_most_frequent dump args events e r w' :
  e ∈ RELEVANT_EMOTIONS ->
  let s := after_aggregation dump args events in
  let rows := (get_first_n_words (stats s) (words_dict s) args).1 in
  r ∈ rows_of_emotion e rows ->
  row_occurrences r < count e w' (words_dict s) ->
  exists r',
    r' ∈ rows_of_emotion e rows
    /\ row_word r' = w'
    /\ row_occurrences r' = count e w' (words_dict s).
Proof.
  intros He s rows Hr Hlt. subst rows. unfold s in *.
  rewrite after_aggregation_rows, rows_of_emotion_ranking in * by done.
  fold s in Hr, Hlt |- *.
  pose proof (after_aggregation_distinct dump args events e He) as Hnd.
  pose proof (after_aggregation_positive dump args events) as Hpos.
  fold s in Hnd, Hpos.
  unfold ranked in Hr. apply list_elem_of_fmap in Hr as (w & -> & Hw).
  simpl in Hlt.
  assert (w' ∈ (emotion_words e (words_dict s)).*1) as Hw'.
  { apply dec_stable. intros Hnot%dict_get_None.
    pose proof (count_nonneg e w _ Hpos He).
    unfold count in Hlt at 2. rewrite Hnot in Hlt. lia. }
  exists (row_of (words_dict s) e w'). split; [|done].
  unfold ranked. apply list_elem_of_fmap_2.
  by apply (top_words_dominate _ _ _ w).
Qed.

(** X7. After the aggregation of any dump, the rows of each tracked
    emotion come by decreasing number of occurrences, and no word has two
    rows under the same emotion. *)
Theorem rows_of_an_emotion_are_sorted_and_distinct dump args events e :
  e ∈ RELEVANT_EMOTIONS ->
  let s := after_aggregation dump args events in
  let rows := (get_first_n_words (stats s) (words_dict s) args).1 in
  StronglySorted (fun r r' => row_occurrences r' <= row_occurrences r)
    (rows_of_emotion e rows)
  /\ NoDup (row_word <$> rows_of_emotion e rows).
Proof.
  intros He s rows. subst rows. unfold s.
  rewrite after_aggregation_rows, rows_of_emotion_ranking by done.
  pose proof (after_aggregation_distinct dump args events e He) as Hnd.
  split.
  - by apply ranked_sorted.
  - rewrite ranked_words. by apply top_words_NoDup.
Qed.

(** X8. The rows come grouped by emotion, the groups in the order of
    [RELEVANT_EMOTIONS]: the output is the rows of "positive", then those
    of "negative", and so on to "trust", and it holds nothing else. *)
Theorem rows_are_grouped_in_the_order_of_the_emotions dump args events :
  let s := after_aggregation dump args events in
  let rows := (get_first_n_words (stats s) (words_dict s) args).1 in
  rows = concat ((fun e => rows_of_emotion e rows) <$> RELEVANT_EMOTIONS).
Proof.
  intros s rows. subst rows. unfold s.
  rewrite after_aggregation_rows. unfold ranking at 1. f_equal.
  apply Forall_fmap_ext_1, Forall_forall. intros e He.
  by rewrite rows_of_emotion_ranking.
Qed.

(** X9. When [top_n] is at least the number of words recorded under an
    emotion, every one of these words gets a row: the words of the
    emotion's rows are those of its dictionary, reordered. *)
Theorem large_top_n_emits_every_word dump args events e :
  e ∈ RELEVANT_EMOTIONS ->
  let s := after_aggregation dump args events in
  let rows := (get_first_n_words (stats s) (words_dict s) args).1 in
  len (emotion_words e (words_dict s)) <= n_words args ->
  row_word <$> rows_of_emotion e rows
  ≡ₚ (emotion_words e (words_dict s)).*1.
Proof.
  intros He s rows Hle. subst rows. unfold s in *.
  rewrite after_aggregation_rows, rows_of_emotion_ranking by done.
  rewrite ranked_words. by apply top_words_all.
Qed.

Lemma quotient_bounds a b :
  1 <= a -> a <= b ->
  Qlt 0 (quotient a b) /\ Qle (quotient a b) 1.
Proof.
  intros Ha Hb. rewrite !quotient_correct.
  assert (Qlt 0 (inject_Z b)) as Hpos.
  { change 0%Q with (inject_Z 0). rewrite <-Zlt_Qlt. lia. }
  split.
  - apply Qlt_shift_div_l; [done|]. rewrite Qmult_0_l.
    change 0%Q with (inject_Z 0). rewrite <-Zlt_Qlt. lia.
  - apply Qle_shift_div_r; [done|]. rewrite Qmult_1_l.
    rewrite <-Zle_Qle. lia.
Qed.

(** X10. Every row emitted after the aggregation of a dump counts at
    least one occurrence. When the lexicon gives each token a set of
    emotions (no name twice), the count is at most the final
    [total_words_matched], so the row's [occ/words] lies in (0, 1];
    [occ/tweets] has no such bound. *)
Theorem row_counts_are_positive_and_bounded dump args events r :
  let s := after_aggregation dump args events in
  r ∈ (get_first_n_words (stats s) (words_dict s) args).1 ->
  1 <= row_occurrences r
  /\ ((forall w, NoDup (emotion_names w)) ->
      row_occurrences r <= total "words" (words_dict s)
      /\ Qlt 0 (row_occ_words r)
      /\ Qle (row_occ_words r) 1).
Proof.
  intros s. unfold s. rewrite after_aggregation_rows. fold s.
  intros (e & w & He & Hw & ->)%elem_of_ranking. simpl.
  pose proof (after_aggregation_positive dump args events) as Hpos.
  fold s in Hpos.
  assert (1 <= count e w (words_dict s)) as Hone.
  { unfold count.
    destruct (dict_get w (emotion_words e (words_dict s))) as [c|] eqn:Hget.
    - by apply (Hpos e w).
    - by apply dict_get_None in Hget. }
  split; [done|]. intros Hset.
  pose proof (after_aggregation_bounded dump args events Hset e w He) as Hle.
  fold s in Hle. split; [done|]. by apply quotient_bounds.
Qed.

(** ** The division of the floats rounds to nearest *)

Lemma new_location_located b q r :
  0 <= r < b -> Binary64.located (q * b + r) b q (new_location b r).
Proof.
  intros Hr. unfold new_location, new_location_even, new_location_odd.
  destruct (Z.even b) eqn:Hb.
  - destruct (Z.eqb_spec r 0) as [->|Hr0]; simpl; [lia|].
    destruct (Z.compare_spec (2 * r) b); simpl; lia.
  - destruct (Z.eqb_spec r 0) as [->|Hr0]; simpl; [lia|].
    assert (Z.odd b = true) as Hodd by (by rewrite <-Z.negb_even, Hb).
    apply Z.odd_spec in Hodd as [c Hc].
    destruct (Z.compare_spec (2 * r + 1) b); simpl; lia.
Qed.

Lemma loc_of_shr_record_of_loc m l :
  loc_of_shr_record (shr_record_of_loc m l) = l
  /\ shr_m (shr_record_of_loc m l) = m.
Proof. by destruct l as [|[]]. Qed.

Lemma shr_1_located N D mrs :
  0 < D -> 0 <= shr_m mrs ->
  Binary64.located N D (shr_m mrs) (loc_of_shr_record mrs) ->
  Binary64.located N (2 * D) (shr_m (shr_1 mrs)) (loc_of_shr_record (shr_1 mrs))
  /\ shr_m (shr_1 mrs) = shr_m mrs / 2.
Proof.
  intros HD Hm. destruct mrs as [m r s]. simpl in Hm.
  destruct m as [|[p|p|]|p]; [| | | |lia].
  - destruct r, s; simpl; intros; split; (lia || done).
  - assert (Z.pos p~1 / 2 = Z.pos p) as Hdiv
      by (symmetry; apply Z.div_unique with 1; lia).
    destruct r, s; cbn [shr_1 shr_m loc_of_shr_record orb Binary64.located];
      rewrite Hdiv; intros; (split; [lia|done]).
  - assert (Z.pos p~0 / 2 = Z.pos p) as Hdiv
      by (symmetry; apply Z.div_unique with 0; lia).
    destruct r, s; cbn [shr_1 shr_m loc_of_shr_record orb Binary64.located];
      rewrite Hdiv; intros; (split; [lia|done]).
  - destruct r, s; cbn [shr_1 shr_m loc_of_shr_record orb Binary64.located];
      intros; split; (lia || done).
Qed.

Lemma iter_pos_nat {A} (f : A -> A) p x :
  SpecFloat.iter_pos f p x = Nat.iter (Pos.to_nat p) f x.
Proof.
  revert x. induction p as [p IH|p IH|]; intros x;
    cbn [SpecFloat.iter_pos].
  - rewrite !IH, Pos2Nat.inj_xI, <-Nat.iter_add.
    replace (S (2 * Pos.to_nat p)) with (S (Pos.to_nat p + Pos.to_nat p))
      by lia.
    by rewrite Nat.iter_succ_r.
  - rewrite !IH, Pos2Nat.inj_xO, <-Nat.iter_add. f_equal. lia.
  - done.
Qed.

Lemma shr_iter_located N D mrs k :
  0 < D -> 0 <= shr_m mrs ->
  Binary64.located N D (shr_m mrs) (loc_of_shr_record mrs) ->
  Binary64.located N (2 ^ Z.of_nat k * D) (shr_m (Nat.iter k shr_1 mrs))
    (loc_of_shr_record (Nat.iter k shr_1 mrs))
  /\ shr_m (Nat.iter k shr_1 mrs) = shr_m mrs / 2 ^ Z.of_nat k
  /\ 0 <= shr_m (Nat.iter k shr_1 mrs).
Proof.
  intros HD Hm Hloc. induction k as [|k (IH1 & IH2 & IH3)].
  - change (Nat.iter 0 shr_1 mrs) with mrs. change (Z.of_nat 0) with 0.
    rewrite Z.pow_0_r, Z.mul_1_l, Z.div_1_r. done.
  - rewrite !Nat.iter_succ.
    assert (0 < 2 ^ Z.of_nat k) as Hpow by (apply Z.pow_pos_nonneg; lia).
    destruct (shr_1_located N (2 ^ Z.of_nat k * D) (Nat.iter k shr_1 mrs))
      as [H1 H2]; [lia|done|done|].
    replace (2 ^ Z.of_nat (S k)) with (2 * 2 ^ Z.of_nat k)
      by (rewrite Nat2Z.inj_succ, Z.pow_succ_r; lia).
    split_and!.
    + by replace (2 * 2 ^ Z.of_nat k * D) with (2 * (2 ^ Z.of_nat k * D))
        by lia.
    + rewrite H2, IH2, Z.div_div by lia. f_equal. lia.
    + rewrite H2. apply Z.div_pos; lia.
Qed.

Lemma shr_located N D mrs e n :
  0 < D -> 0 <= shr_m mrs ->
  Binary64.located N D (shr_m mrs) (loc_of_shr_record mrs) ->
  (shr mrs e n).2 = e + Z.max n 0
  /\ Binary64.located N (2 ^ Z.max n 0 * D) (shr_m (shr mrs e n).1)
       (loc_of_shr_record (shr mrs e n).1)
  /\ shr_m (shr mrs e n).1 = shr_m mrs / 2 ^ Z.max n 0
  /\ 0 <= shr_m (shr mrs e n).1.
Proof.
  intros HD Hm Hloc. destruct n as [|p|p]; cbn [shr fst snd].
  - change (Z.max 0 0) with 0.
    rewrite Z.pow_0_r, Z.mul_1_l, Z.div_1_r, Z.add_0_r. done.
  - rewrite iter_pos_nat.
    destruct (shr_iter_located N D mrs (Pos.to_nat p)) as (H1 & H2 & H3);
      [done..|].
    rewrite positive_nat_Z in H1, H2.
    replace (Z.max (Z.pos p) 0) with (Z.pos p) by lia. done.
  - change (Z.max (Z.neg p) 0) with 0.
    rewrite Z.pow_0_r, Z.mul_1_l, Z.div_1_r, Z.add_0_r. done.
Qed.

Lemma round_nearest_even_near N D m l :
  0 < D -> Binary64.located N D m l ->
  2 * Z.abs (round_nearest_even m l * D - N) <= D
  /\ m <= round_nearest_even m l <= m + 1.
Proof.
  intros HD. destruct l as [|[]]; simpl.
  - intros ->. lia.
  - destruct (Z.even m); nia.
  - nia.
  - nia.
Qed.

Lemma digits2_pos_size p : digits2_pos p = Pos.size p.
Proof. induction p; simpl; by rewrite ?IHp. Qed.

Lemma Zdigits2_bounds m :
  0 < m -> 0 < Zdigits2 m /\ 2 ^ (Zdigits2 m - 1) <= m < 2 ^ Zdigits2 m.
Proof.
  destruct m as [|p|p]; try lia. intros _. simpl.
  rewrite digits2_pos_size.
  pose proof (Pos.size_gt p) as Hgt. pose proof (Pos.size_le p) as Hle.
  apply Pos2Z.pos_lt_pos in Hgt. apply Pos2Z.pos_le_pos in Hle.
  rewrite Pos2Z.inj_pow in Hgt, Hle.
  split; [lia|].
  replace (Z.pos (Pos.size p)) with (Z.succ (Z.pos (Pos.size p) - 1)) in Hle
    by lia.
  rewrite Z.pow_succ_r in Hle by lia. lia.
Qed.

Lemma Zdigits2_0 : Zdigits2 0 = 0.
Proof. done. Qed.

Lemma Zdigits2_le m k : 0 <= m < 2 ^ k -> 0 <= k -> Zdigits2 m <= k.
Proof.
  intros [Hm Hlt] Hk. destruct (Z.eq_dec m 0) as [->|Hne]; [simpl; lia|].
  destruct (Zdigits2_bounds m) as (Hd & Hlo & _); [lia|].
  destruct (Z.le_gt_cases (Zdigits2 m) k) as [|Hgt]; [done|].
  assert (2 ^ k <= 2 ^ (Zdigits2 m - 1)) by (apply Z.pow_le_mono_r; lia).
  lia.
Qed.

Lemma Zdigits2_ge m k : 2 ^ k <= m -> 0 <= k -> k + 1 <= Zdigits2 m.
Proof.
  intros Hle Hk.
  assert (0 < 2 ^ k) by (apply Z.pow_pos_nonneg; lia).
  destruct (Zdigits2_bounds m) as (Hd & _ & Hhi); [lia|].
  destruct (Z.le_gt_cases (k + 1) (Zdigits2 m)) as [|Hgt]; [done|].
  assert (2 ^ Zdigits2 m <= 2 ^ k) by (apply Z.pow_le_mono_r; lia).
  lia.
Qed.

Lemma fexp_eq x : fexp Binary64.prec Binary64.emax x = Z.max (x - 53) (-1074).
Proof. reflexivity. Qed.

Lemma binary_round_aux_near N D q e l :
  0 < D -> 0 <= q -> Binary64.located N D q l ->
  -1074 <= e -> e <= fexp Binary64.prec Binary64.emax (Zdigits2 q + e) ->
  exists m2 e2,
    binary_round_aux Binary64.prec Binary64.emax false q e l
    = match m2 with
      | Z0 => S754_zero false
      | Zpos m =>
          if Z.leb e2 971 then S754_finite false m e2
          else S754_infinity false
      | Zneg _ => S754_nan
      end
    /\ 0 <= m2 < 2 ^ 53 /\ e <= e2 /\ -1074 <= e2
    /\ (2 ^ 52 <= m2 \/ e2 = -1074)
    /\ 2 * Z.abs (m2 * 2 ^ (e2 - e) * D - N) <= 2 ^ (e2 - e) * D.
Proof.
  intros HD Hq Hloc He Hn.
  unfold binary_round_aux, shr_fexp.
  set (n := fexp Binary64.prec Binary64.emax (Zdigits2 q + e) - e).
  assert (0 <= n) as Hn0 by (unfold n; lia).
  destruct (loc_of_shr_record_of_loc q l) as [Hl Hm].
  destruct (shr_located N D (shr_record_of_loc q l) e n)
    as (He1 & Hloc1 & Hm1 & Hm1pos); [done|by rewrite Hm|by rewrite Hl, Hm|].
  destruct (shr (shr_record_of_loc q l) e n) as [mrs1 e1].
  cbn [fst snd] in He1, Hloc1, Hm1, Hm1pos.
  rewrite Z.max_l in He1, Hloc1, Hm1 by done. rewrite Hm in Hm1.
  assert (0 < 2 ^ n) as Hpow by (apply Z.pow_pos_nonneg; lia).
  set (m1 := round_nearest_even (shr_m mrs1) (loc_of_shr_record mrs1)).
  destruct (round_nearest_even_near N (2 ^ n * D) (shr_m mrs1)
              (loc_of_shr_record mrs1)) as [Hnear Hm1'];
    [lia|done|]. fold m1 in Hnear, Hm1'.
  (* the truncated mantissa has at most 53 bits *)
  assert (shr_m mrs1 < 2 ^ 53) as Hlt.
  { rewrite Hm1. apply Z.div_lt_upper_bound; [done|].
    destruct (Z.eq_dec q 0) as [->|Hq0]; [lia|].
    destruct (Zdigits2_bounds q) as (Hd & _ & Hhi); [lia|].
    rewrite <-Z.pow_add_r by lia.
    assert (2 ^ Zdigits2 q <= 2 ^ (n + 53)); [|lia].
    apply Z.pow_le_mono_r; [lia|]. unfold n. rewrite fexp_eq. lia. }
  (* and 53 bits exactly unless the exponent is the least one *)
  assert (2 ^ 52 <= shr_m mrs1 \/ e1 = -1074) as Hcanon.
  { unfold n in He1. rewrite fexp_eq in He1.
    destruct (Z.le_gt_cases (Zdigits2 q + e - 53) (-1074)) as [Hsub|Hnorm];
      [right; lia|left].
    assert (n = Zdigits2 q - 53) as Hn' by (unfold n; rewrite fexp_eq; lia).
    destruct (Z.eq_dec q 0) as [->|Hq0]; [simpl in Hn'; lia|].
    destruct (Zdigits2_bounds q) as (Hd & Hlo & _); [lia|].
    rewrite Hm1. apply Z.div_le_lower_bound; [done|].
    rewrite <-Z.pow_add_r by lia.
    replace (n + 52) with (Zdigits2 q - 1) by lia. done. }
  destruct (Z.eq_dec m1 (2 ^ 53)) as [Hcarry|Hnocarry].
  - (* the rounding carried into a 54th bit *)
    rewrite Hcarry in *. 
    assert (fexp Binary64.prec Binary64.emax (Zdigits2 (2 ^ 53) + e1) - e1 = 1) as ->.
    { rewrite fexp_eq. change (Zdigits2 (2 ^ 53)) with 54. lia. }
    exists (2 ^ 52), (e1 + 1). split_and!; try lia.
    + cbn. replace (e1 + 1 <=? 1024 - 53) with (e1 + 1 <=? 971) by done.
      done.
    + replace (e1 + 1 - e) with (Z.succ n) by lia.
      rewrite Z.pow_succ_r by lia. nia.
  - assert (m1 < 2 ^ 53) as Hm1lt by lia.
    assert (fexp Binary64.prec Binary64.emax (Zdigits2 m1 + e1) - e1 <= 0) as Hn2.
    { rewrite fexp_eq.
      assert (Zdigits2 m1 <= 53) by (apply Zdigits2_le; lia). lia. }
    assert (shr (shr_record_of_loc m1 loc_Exact) e1
              (fexp Binary64.prec Binary64.emax (Zdigits2 m1 + e1) - e1)
            = (shr_record_of_loc m1 loc_Exact, e1)) as ->.
    { by destruct (fexp Binary64.prec Binary64.emax (Zdigits2 m1 + e1) - e1). }
    exists m1, e1. cbn [shr_record_of_loc shr_m].
    split_and!; try lia.
    + by destruct m1.
    + replace (e1 - e) with n by lia. lia.
Qed.

Lemma quotient_bits a b q r k :
  0 < b -> a = b * q + r -> 0 <= r < b -> 0 <= k ->
  2 ^ k * b <= a -> 2 ^ k <= q.
Proof.
  intros Hb Ha Hr Hk Hle.
  destruct (Z.le_gt_cases (2 ^ k) q) as [|Hlt]; [done|].
  assert ((q + 1) * b <= 2 ^ k * b) by (apply Z.mul_le_mono_nonneg_r; lia).
  lia.
Qed.

Lemma SFdiv_core_located a b :
  0 < a -> 0 < b ->
  exists q e l,
    SFdiv_core_binary Binary64.prec Binary64.emax a 0 b 0 = (q, e, l)
    /\ 0 <= q /\ -1074 <= e <= 0
    /\ Binary64.located (a * 2 ^ (- e)) b q l
    /\ e <= fexp Binary64.prec Binary64.emax (Zdigits2 q + e).
Proof.
  intros Ha Hb. unfold SFdiv_core_binary.
  rewrite !Z.add_0_r. change (0 - 0) with 0.
  set (e := Z.min (fexp Binary64.prec Binary64.emax (Zdigits2 a - Zdigits2 b)) 0).
  assert (-1074 <= e <= 0) as He by (unfold e; rewrite fexp_eq; lia).
  assert (match 0 - e with
          | Z.pos _ => Z.shiftl a (0 - e)
          | 0 => a
          | Z.neg _ => 0
          end = a * 2 ^ (- e)) as ->.
  { replace (0 - e) with (- e) by lia.
    destruct (- e) as [|p|p] eqn:Hs; [lia| |lia].
    by rewrite Z.shiftl_mul_pow2. }
  assert (0 < 2 ^ (- e)) as Hpow by (apply Z.pow_pos_nonneg; lia).
  pose proof (Z_div_mod (a * 2 ^ (- e)) b ltac:(lia)) as Hdiv.
  destruct (Z.div_eucl (a * 2 ^ (- e)) b) as [q r].
  destruct Hdiv as [Hdiv Hr].
  assert (0 <= q) as Hq by nia.
  exists q, e, (new_location b r). split_and!; try done; try lia.
  - rewrite Hdiv. replace (b * q + r) with (q * b + r) by lia.
    by apply new_location_located.
  - rewrite fexp_eq.
    destruct (Z.eq_dec e (-1074)) as [->|Hne]; [lia|].
    destruct (Zdigits2_bounds a) as (Hda & Halo & Hahi); [done|].
    destruct (Zdigits2_bounds b) as (Hdb & Hblo & Hbhi); [done|].
    assert (53 <= Zdigits2 q); [|lia].
    apply (Zdigits2_ge q 52); [|lia].
    apply (quotient_bits (a * 2 ^ (- e)) b q r); [done..|lia|].
    unfold e in *. rewrite fexp_eq in *.
    set (da := Zdigits2 a) in *. set (db := Zdigits2 b) in *.
    assert (2 ^ 52 * 2 ^ db <= a * 2 ^ (- Z.min (Z.max (da - db - 53) (-1074)) 0))
      as Hbig.
    { destruct (Z.le_gt_cases (da - db - 53) 0) as [Hneg|Hposv].
      - replace (- Z.min (Z.max (da - db - 53) (-1074)) 0)
          with (53 + db - da) by lia.
        assert (2 ^ 52 * 2 ^ db = 2 ^ (da - 1) * 2 ^ (53 + db - da)) as ->.
        { rewrite <-!Z.pow_add_r by lia. f_equal. lia. }
        apply Z.mul_le_mono_nonneg_r; [|done].
        apply Z.pow_nonneg. lia.
      - replace (- Z.min (Z.max (da - db - 53) (-1074)) 0) with 0 by lia.
        rewrite Z.pow_0_r, Z.mul_1_r.
        assert (2 ^ 52 * 2 ^ db <= 2 ^ (da - 1)); [|lia].
        rewrite <-Z.pow_add_r by lia. apply Z.pow_le_mono_r; lia. }
    assert (2 ^ 52 * b <= 2 ^ 52 * 2 ^ db)
      by (apply Z.mul_le_mono_nonneg_l; lia).
    lia.
Qed.

Lemma truediv_near a b v :
  0 < a -> 0 < b -> Binary64.truediv a b = Ok v ->
  exists m e,
    v = match m with
        | Z0 => S754_zero false
        | Zpos p => S754_finite false p e
        | Zneg _ => S754_nan
        end
    /\ 0 <= m < 2 ^ 53 /\ -1074 <= e <= 971
    /\ (2 ^ 52 <= m \/ e = -1074)
    /\ 2 * Z.abs (m * 2 ^ Z.max e 0 * b - a * 2 ^ Z.max (- e) 0)
       <= 2 ^ Z.max e 0 * b.
Proof.
  intros Ha Hb. unfold Binary64.truediv.
  destruct (Z.eqb_spec b 0) as [|_]; [lia|].
  destruct a as [|pa|pa]; [lia| |lia]. destruct b as [|pb|pb]; [lia| |lia].
  cbn [Binary64.operand SFdiv xorb].
  destruct (SFdiv_core_located (Z.pos pa) (Z.pos pb))
    as (q & e' & l & -> & Hq & He' & Hloc & Hn); [done..|].
  destruct (binary_round_aux_near (Z.pos pa * 2 ^ (- e')) (Z.pos pb) q e' l)
    as (m2 & e2 & -> & Hm2 & Hle & He2 & Hcanon & Hnear); [done..|lia|done|].
  assert (0 < 2 ^ (- e')) as Hpow by (apply Z.pow_pos_nonneg; lia).
  assert (2 * Z.abs (m2 * 2 ^ Z.max e2 0 * Z.pos pb
                     - Z.pos pa * 2 ^ Z.max (- e2) 0)
          <= 2 ^ Z.max e2 0 * Z.pos pb) as Hbound.
  { destruct (Z.le_gt_cases 0 e2) as [Hpos|Hneg].
    - rewrite (Z.max_l e2 0), (Z.max_r (- e2) 0) by lia.
      rewrite Z.pow_0_r, Z.mul_1_r.
      replace (e2 - e') with (e2 + - e') in Hnear by lia.
      rewrite Z.pow_add_r in Hnear by lia.
      assert (0 < 2 ^ e2) by (apply Z.pow_pos_nonneg; lia).
      replace (m2 * (2 ^ e2 * 2 ^ (- e')) * Z.pos pb
               - Z.pos pa * 2 ^ (- e'))
        with (2 ^ (- e') * (m2 * 2 ^ e2 * Z.pos pb - Z.pos pa))
        in Hnear by ring.
      rewrite Z.abs_mul, (Z.abs_eq (2 ^ (- e'))) in Hnear by lia.
      nia.
    - rewrite (Z.max_r e2 0), (Z.max_l (- e2) 0) by lia.
      rewrite Z.pow_0_r, Z.mul_1_r.
      assert (2 ^ (- e') = 2 ^ (e2 - e') * 2 ^ (- e2)) as Hsplit.
      { rewrite <-Z.pow_add_r by lia. f_equal. lia. }
      assert (0 < 2 ^ (e2 - e')) by (apply Z.pow_pos_nonneg; lia).
      rewrite Hsplit in Hnear.
      replace (m2 * 2 ^ (e2 - e') * Z.pos pb
               - Z.pos pa * (2 ^ (e2 - e') * 2 ^ (- e2)))
        with (2 ^ (e2 - e') * (m2 * Z.pos pb - Z.pos pa * 2 ^ (- e2)))
        in Hnear by ring.
      rewrite Z.abs_mul, (Z.abs_eq (2 ^ (e2 - e'))) in Hnear by lia.
      nia. }
  destruct m2 as [|p2|p2]; [| |lia].
  - intros [= <-]. exists 0, e2.
    split_and!; try done; try lia.
  - destruct (Z.leb_spec e2 971) as [Hfin|Hinf]; [|done].
    intros [= <-]. exists (Z.pos p2), e2. split_and!; try done; lia.
Qed.

Lemma inject_Z_nonzero z : z <> 0 -> ~ Qeq (inject_Z z) 0.
Proof.
  intros Hz Heq. apply Hz. unfold Qeq in Heq. simpl in Heq. lia.
Qed.

Lemma Qdiv_le_same n1 n2 c :
  0 < c -> n1 <= n2 ->
  Qle (Qdiv (inject_Z n1) (inject_Z c)) (Qdiv (inject_Z n2) (inject_Z c)).
Proof.
  intros Hc Hle. unfold Qdiv. apply Qmult_le_compat_r.
  - by rewrite <-Zle_Qle.
  - apply Qinv_le_0_compat. change 0%Q with (inject_Z 0).
    rewrite <-Zle_Qle. lia.
Qed.

Lemma half_ulp_Q (x : Q) m A B a b :
  0 < A -> 0 < B -> 0 < b ->
  Qeq x (Qmult (inject_Z m) (Qdiv (inject_Z A) (inject_Z B))) ->
  2 * Z.abs (m * A * b - a * B) <= A * b ->
  Qle (Qabs (Qminus x (Qdiv (inject_Z a) (inject_Z b))))
      (Qdiv (Qdiv (inject_Z A) (inject_Z B)) (inject_Z 2)).
Proof.
  intros HA HB Hb Hx Hnear.
  pose proof (inject_Z_nonzero B ltac:(lia)) as HB0.
  pose proof (inject_Z_nonzero b ltac:(lia)) as Hb0.
  assert (Qeq (Qminus x (Qdiv (inject_Z a) (inject_Z b)))
              (Qdiv (inject_Z (2 * (m * A * b - a * B)))
                    (inject_Z (2 * B * b)))) as ->.
  { rewrite Hx. unfold Z.sub.
    rewrite !inject_Z_mult, inject_Z_plus, inject_Z_opp, !inject_Z_mult.
    field. by split. }
  assert (Qeq (Qdiv (Qdiv (inject_Z A) (inject_Z B)) (inject_Z 2))
              (Qdiv (inject_Z (A * b)) (inject_Z (2 * B * b)))) as ->.
  { rewrite !inject_Z_mult. field. by split. }
  apply Qabs_Qle_condition. split.
  - assert (Qeq (Qopp (Qdiv (inject_Z (A * b)) (inject_Z (2 * B * b))))
                (Qdiv (inject_Z (- (A * b))) (inject_Z (2 * B * b)))) as ->.
    { rewrite inject_Z_opp. unfold Qdiv. ring. }
    apply Qdiv_le_same; lia.
  - apply Qdiv_le_same; lia.
Qed.

(** [a / b] on positive ints is a binary64 number within half a unit in
    its last place of the quotient. *)
Lemma truediv_rounds a b v :
  0 < a -> 0 < b -> Binary64.truediv a b = Ok v -> Binary64.rounds v a b.
Proof.
  intros Ha Hb Hdiv.
  destruct (truediv_near a b v Ha Hb Hdiv)
    as (m & e & -> & Hm & He & Hcanon & Hnear).
  assert (0 < 2 ^ Z.max e 0) as HA by (apply Z.pow_pos_nonneg; lia).
  assert (0 < 2 ^ Z.max (- e) 0) as HB by (apply Z.pow_pos_nonneg; lia).
  destruct m as [|p|p]; [| |lia].
  - assert (e = -1074) as -> by lia.
    split; [done|]. exists (inject_Z 0). split; [done|].
    by apply (half_ulp_Q _ 0).
  - split.
    + cbn [valid_binary]. unfold bounded, canonical_mantissa.
      apply andb_true_intro. split;
        [apply Z.eqb_eq|apply Z.leb_le; unfold Binary64.emax, Binary64.prec; lia].
      change (Z.pos (digits2_pos p)) with (Zdigits2 (Z.pos p)).
      rewrite fexp_eq.
      assert (Zdigits2 (Z.pos p) <= 53) by (apply Zdigits2_le; lia).
      destruct Hcanon as [Hnorm| ->]; [|lia].
      assert (53 <= Zdigits2 (Z.pos p)) by (apply (Zdigits2_ge _ 52); lia).
      lia.
    + eexists. split; [reflexivity|].
      apply (half_ulp_Q _ (Z.pos p)); try done. apply Qred_correct.
Qed.

(** Some quotients and the floats Python gives for them: a tie that goes
    to the even mantissa, a negative zero, the least float, a quotient
    that rounds to zero, the largest float and the first quotient beyond
    it. *)
Example truediv_samples :
  Binary64.truediv 1 10 = Ok (S754_finite false 7205759403792794 (-56))
  /\ Binary64.truediv (-2) 3 = Ok (S754_finite true 6004799503160661 (-53))
  /\ Binary64.truediv (2 ^ 53 + 1) 1
     = Ok (S754_finite false 4503599627370496 1)
  /\ Binary64.truediv 0 (-3) = Ok (S754_zero true)
  /\ Binary64.truediv 3 (2 ^ 1076) = Ok (S754_finite false 1 (-1074))
  /\ Binary64.truediv 1 (2 ^ 1075) = Ok (S754_zero false)
  /\ Binary64.truediv (2 ^ 1024 - 2 ^ 970 - 1) 1
     = Ok (S754_finite false 9007199254740991 971)
  /\ Binary64.truediv (2 ^ 1024 - 2 ^ 970) 1 = Raise OverflowError
  /\ Binary64.truediv 1 0 = Raise ZeroDivisionError.
Proof. split_and!; vm_compute; reflexivity. Qed.

(** ** The ranker with floats computes the floats of the ranking *)

Lemma ratio_run64 occ key wd :
  shaped wd -> key = "words" \/ key = "tweets" ->
  Binary64.ratio occ key wd = Binary64.truediv occ (total key wd).
Proof.
  intros Hs Hkey. unfold Binary64.ratio.
  by rewrite (shaped_total _ _ Hs Hkey).
Qed.

Lemma make_row_run64 wd e word :
  shaped wd -> word ∈ (emotion_words e wd).*1 ->
  Binary64.make_row wd e (emotion_words e wd) word = float_row_of wd e word.
Proof.
  intros Hs Hin. unfold Binary64.make_row, float_row_of, count.
  destruct (dict_get word (emotion_words e wd)) as [occ|] eqn:Hget.
  - by rewrite !ratio_run64 by auto.
  - by apply dict_get_None in Hget.
Qed.

Lemma yield_rows_run64 wd e sorted_words k m :
  shaped wd ->
  (forall w, w ∈ sorted_words -> w ∈ (emotion_words e wd).*1) ->
  (k + m <= length sorted_words)%nat ->
  Binary64.yield_rows wd e (emotion_words e wd) sorted_words (seq k m)
  = rows_until_raise (float_row_of wd e <$> take m (drop k sorted_words)).
Proof.
  intros Hs Hin. revert k.
  induction m as [|m IH]; intros k Hlen; simpl; [done|].
  destruct (lookup_lt_is_Some_2 sorted_words k) as [word Hword]; [lia|].
  rewrite Hword, (drop_S _ _ _ Hword). simpl.
  rewrite make_row_run64 by eauto using list_elem_of_lookup_2.
  destruct (float_row_of wd e word) as [r|x]; [|done].
  by rewrite IH by lia.
Qed.

Lemma rank_emotion_run64 wd top e :
  shaped wd ->
  Binary64.rank_emotion wd top e (emotion_words e wd)
  = rows_until_raise
      (float_row_of wd e <$> top_words top (emotion_words e wd)).
Proof.
  intros Hs. unfold Binary64.rank_emotion, top_words.
  rewrite geb_min. unfold len at 1 2. rewrite length_fmap, sorted_desc_length.
  fold (len (emotion_words e wd)).
  rewrite yield_rows_run64; [by rewrite drop_0|done| |].
  - intros w Hin. by rewrite <-(sorted_desc_perm (emotion_words e wd)).
  - rewrite length_fmap, sorted_desc_length. unfold len. lia.
Qed.

Lemma rows_until_raise_app l1 l2 :
  rows_until_raise (l1 ++ l2)
  = match rows_until_raise l1 with
    | (rs, Some x) => (rs, Some x)
    | (rs, None) =>
        let '(rs', stop) := rows_until_raise l2 in (rs ++ rs', stop)
    end.
Proof.
  induction l1 as [|[r|x] l1 IH]; simpl; [by destruct (rows_until_raise l2)| |done].
  rewrite IH. destruct (rows_until_raise l1) as [rs [x|]]; [done|].
  by destruct (rows_until_raise l2).
Qed.

Lemma float_ranked wd top e :
  (fun r => float_row_of wd (row_emotion r) (row_word r)) <$> ranked wd top e
  = float_row_of wd e <$> top_words top (emotion_words e wd).
Proof. unfold ranked. by rewrite <-list_fmap_compose. Qed.

Lemma rank_items_run64 wd top items :
  shaped wd ->
  (forall e v, (e, v) ∈ items -> dict_get e wd = Some v) ->
  Binary64.rank_items wd top items
  = rows_until_raise
      ((fun r => float_row_of wd (row_emotion r) (row_word r))
       <$> concat ((fun e => if bool_decide (e ∈ RELEVANT_EMOTIONS)
                             then ranked wd top e else []) <$> items.*1)).
Proof.
  intros Hs. induction items as [|[e v] items IH]; intros Hitems; [done|].
  cbn [Binary64.rank_items fmap list_fmap concat fst].
  rewrite IH by (intros; apply Hitems, elem_of_cons; by right).
  case_bool_decide as He; [|done].
  destruct (shaped_emotion _ _ Hs He) as [ws Hws].
  assert (v = PDict ws) as ->.
  { specialize (Hitems e v). rewrite Hws in Hitems.
    symmetry. apply (inj Some), Hitems, elem_of_cons. by left. }
  assert (ws = emotion_words e wd) as ->.
  { unfold emotion_words. by rewrite Hws. }
  rewrite rank_emotion_run64 by done.
  rewrite fmap_app, rows_until_raise_app, float_ranked.
  by destruct (rows_until_raise _) as [rs [x|]].
Qed.

Lemma get_first_n_words_run64 st wd args :
  shaped wd ->
  Binary64.get_first_n_words st wd args
  = rows_until_raise (float_ranking wd (n_words args)).
Proof.
  intros Hs. unfold Binary64.get_first_n_words, float_ranking, ranking.
  rewrite rank_items_run64; [|done|].
  - rewrite shaped_keys by done. reflexivity.
  - intros e v. apply dict_get_elem. rewrite shaped_keys by done.
    compute_done.
Qed.

Lemma rows_until_raise_rows l :
  Ok <$> (rows_until_raise l).1 = take (length (rows_until_raise l).1) l.
Proof.
  induction l as [|[r|x] l IH]; simpl; [done| |done].
  destruct (rows_until_raise l) as [rs stop]. cbn [fst] in *.
  rewrite fmap_cons. cbn [length take]. by rewrite IH.
Qed.

Lemma rows_until_raise_stop l :
  match (rows_until_raise l).2 with
  | None => length (rows_until_raise l).1 = length l
  | Some x => l !! length (rows_until_raise l).1 = Some (Raise x)
  end.
Proof.
  induction l as [|[r|x] l IH]; simpl; [done| |done].
  destruct (rows_until_raise l) as [rs [x|]]; simpl in *; [done|].
  by rewrite IH.
Qed.

Lemma truediv_raises a b x :
  Binary64.truediv a b = Raise x ->
  (b = 0 /\ x = ZeroDivisionError) \/ (b <> 0 /\ x = OverflowError).
Proof.
  unfold Binary64.truediv. destruct (Z.eqb_spec b 0) as [->|Hb].
  - intros [= <-]. by left.
  - destruct (SFdiv _ _ _ _); intros [= <-]. by right.
Qed.

Lemma float_rows_same_word wd (rows64 : list Binary64.row) (rows : list row) :
  Ok <$> rows64
  = (fun r => float_row_of wd (row_emotion r) (row_word r)) <$> rows ->
  (forall r,
     r ∈ rows ->
     row_occurrences r = count (row_emotion r) (row_word r) wd) ->
  Forall2 same_word rows64 rows.
Proof.
  revert rows. induction rows64 as [|r64 rows64 IH]; intros [|r rows];
    rewrite ?fmap_cons; try done.
  intros [= Hr Hrows] Hocc. constructor.
  - unfold float_row_of in Hr.
    destruct (Binary64.truediv _ (total "words" wd)); [|done].
    destruct (Binary64.truediv _ (total "tweets" wd)); [|done].
    injection Hr as ->. unfold same_word. simpl.
    split_and!; [done| |done]. symmetry. apply Hocc. by left.
  - apply IH; [done|]. intros r' Hr'. apply Hocc. by right.
Qed.

(** C4. Every row the ranker emits after the aggregation of a dump carries
    the count its word ended with under its emotion and, as [occ/words]
    and [occ/tweets], the floats of that count divided by the
    [total_words_matched] and by the [total_posts] the aggregation ended
    with: the values of Python's [/] on these ints, both totals being at
    least 1. Each of the two floats is a binary64 number that differs from
    the exact quotient by at most half a unit in its last place. The rows
    are those of the ranking, in its order, none left out unless a
    quotient is beyond the range of the floats, which stops the ranker
    with [OverflowError]. With 10 matched words, 4 posts and a word seen 5
    times, the row carries the floats 0.5 and 1.25, which are 1/2 and 5/4
    exactly; a quotient such as 1/3 is carried by the float
    6004799503160661 / 2^54, which is not 1/3. *)
Theorem ranked_rows_carry_the_floats_of_the_final_ratios :
  (forall dump args events,
     let s := after_aggregation dump args events in
     let wd := words_dict s in
     let out := Binary64.get_first_n_words (stats s) wd args in
     (forall r,
        r ∈ out.1 ->
        let occ := Binary64.row_occurrences r in
        Binary64.row_emotion r ∈ RELEVANT_EMOTIONS
        /\ occ = count (Binary64.row_emotion r) (Binary64.row_word r) wd
        /\ 1 <= occ
        /\ 1 <= total "words" wd
        /\ 1 <= total "tweets" wd
        /\ Binary64.truediv occ (total "words" wd)
           = Ok (Binary64.row_occ_words r)
        /\ Binary64.truediv occ (total "tweets" wd)
           = Ok (Binary64.row_occ_tweets r)
        /\ Binary64.rounds (Binary64.row_occ_words r) occ (total "words" wd)
        /\ Binary64.rounds (Binary64.row_occ_tweets r) occ
             (total "tweets" wd))
     /\ Forall2 same_word out.1
          (take (length out.1) (ranking wd (n_words args)))
     /\ ((out.2 = None
          /\ length out.1 = length (ranking wd (n_words args)))
         \/ out.2 = Some OverflowError))
  /\ Binary64.get_first_n_words (Stats 10 4) ratio_example_words_dict
       (Args 30 None false "" None)
     = ([Binary64.Row "happy" 5 Binary64.half Binary64.five_quarters "joy"],
        None)
  /\ Binary64.value Binary64.half = Some (Qmake 1 2)
  /\ Binary64.value Binary64.five_quarters = Some (Qmake 5 4)
  /\ Binary64.truediv 1 3 = Ok (S754_finite false 6004799503160661 (-54))
  /\ Binary64.value (S754_finite false 6004799503160661 (-54))
     = Some (Qmake 6004799503160661 18014398509481984)
  /\ ~ Qeq (Qmake 6004799503160661 18014398509481984) (Qmake 1 3).
Proof.
  split; [|split_and!; try (vm_compute; reflexivity); by vm_compute].
  intros dump args events s wd out.
  pose proof (after_aggregation_aggregated dump args events) as Ha.
  pose proof (after_aggregation_positive dump args events) as Hpos.
  fold s in Ha, Hpos. fold wd in Ha, Hpos.
  assert (shaped wd) as Hs by apply Ha.
  assert (out = rows_until_raise (float_ranking wd (n_words args))) as Hout
    by (by apply get_first_n_words_run64).
  pose proof (rows_until_raise_rows (float_ranking wd (n_words args)))
    as Hrows.
  pose proof (rows_until_raise_stop (float_ranking wd (n_words args)))
    as Hstop.
  rewrite <-Hout in Hrows, Hstop. unfold float_ranking in Hrows, Hstop.
  assert (forall r0, r0 ∈ ranking wd (n_words args) ->
    row_emotion r0 ∈ RELEVANT_EMOTIONS
    /\ row_occurrences r0 = count (row_emotion r0) (row_word r0) wd
    /\ 1 <= row_occurrences r0
    /\ 1 <= total "words" wd /\ 1 <= total "tweets" wd) as Hranking.
  { intros r0 (e & w & He & Hw & ->)%elem_of_ranking. simpl.
    assert (emotion_words e wd <> []) as Hne.
    { intros Hnil. rewrite Hnil in Hw. by apply elem_of_nil in Hw. }
    destruct (aggregated_totals _ _ Ha He Hne).
    split_and!; try done. unfold count.
    destruct (dict_get w (emotion_words e wd)) as [c|] eqn:Hget.
    - by apply (Hpos e w).
    - by apply dict_get_None in Hget. }
  split_and!.
  - intros r Hin occ. subst occ.
    assert (Ok r ∈ Ok <$> out.1) as Hok
      by (apply list_elem_of_fmap; by exists r).
    rewrite Hrows, <-fmap_take in Hok.
    apply list_elem_of_fmap in Hok as (r0 & Hr & Hr0).
    assert (r0 ∈ ranking wd (n_words args)) as Hr0'.
    { apply elem_of_take in Hr0 as (i & Hi & _).
      by apply list_elem_of_lookup_2 in Hi. }
    destruct (Hranking r0 Hr0') as (He & Hocc & Hone & Hw & Ht).
    unfold float_row_of in Hr. rewrite <-Hocc in Hr.
    destruct (Binary64.truediv _ (total "words" wd)) as [pw|] eqn:Hpw;
      [|done].
    destruct (Binary64.truediv _ (total "tweets" wd)) as [pt|] eqn:Hpt;
      [|done].
    injection Hr as ->. simpl. rewrite <-Hocc.
    split_and!; try done; (apply truediv_rounds; [lia|lia|done]).
  - apply (float_rows_same_word wd).
    + by rewrite Hrows, fmap_take.
    + intros r0 Hr0. apply Hranking.
      apply elem_of_take in Hr0 as (i & Hi & _).
      by apply list_elem_of_lookup_2 in Hi.
  - destruct out.2 as [x|]; [right|left].
    + apply list_lookup_fmap_Some in Hstop as (r0 & Hx & Hr0).
      symmetry in Hx. apply list_elem_of_lookup_2 in Hr0.
      destruct (Hranking r0 Hr0) as (_ & _ & _ & Hw & Ht).
      unfold float_row_of in Hx.
      destruct (Binary64.truediv _ (total "words" wd)) as [pw|y] eqn:Hpw.
      * destruct (Binary64.truediv _ (total "tweets" wd)) as [pt|y] eqn:Hpt;
          [done|].
        injection Hx as ->.
        destruct (truediv_raises _ _ _ Hpt) as [[? _]|[_ ->]]; [lia|done].
      * injection Hx as ->.
        destruct (truediv_raises _ _ _ Hpw) as [[? _]|[_ ->]]; [lia|done].
    + split; [done|]. by rewrite Hstop, length_fmap.
Qed.

(** ** The order of the posts *)

Lemma same_counts_refl wd : same_counts wd wd.
Proof. by split_and!. Qed.

Lemma same_counts_trans wd1 wd2 wd3 :
  same_counts wd1 wd2 -> same_counts wd2 wd3 -> same_counts wd1 wd3.
Proof.
  intros (Hw & Ht & Hc) (Hw' & Ht' & Hc'). split_and!; [congruence..|].
  intros e w He. by rewrite Hc, Hc'.
Qed.

Lemma tally_tweet_counts wd t :
  shaped wd ->
  total "words" (tally_tweet wd t)
  = total "words" wd + matched_tokens (tokenize (tweet_full_text t))
  /\ total "tweets" (tally_tweet wd t) = total "tweets" wd + 1
  /\ forall e w,
       count e w (tally_tweet wd t)
       = count e w wd
         + occurrences w (tokenize (tweet_full_text t))
           * occurrences e (relevant_names w).
Proof.
  intros Hs. unfold tally_tweet.
  pose proof (shaped_tally_words _ (tokenize (tweet_full_text t)) Hs).
  split_and!.
  - rewrite total_add_total, decide_False by done.
    by apply total_words_tally_words.
  - rewrite total_add_total, decide_True by done.
    by rewrite total_tweets_tally_words.
  - intros e w. rewrite count_add_total by auto.
    by apply count_tally_words.
Qed.

Lemma same_counts_post args valid_users wd wd' t :
  shaped wd -> shaped wd' -> same_counts wd wd' ->
  same_counts (post_counts args valid_users wd t)
    (post_counts args valid_users wd' t).
Proof.
  intros Hs Hs' (Hw & Ht & Hc). unfold post_counts.
  case_match; [|done]. unfold same_counts.
  destruct (tally_tweet_counts wd t Hs) as (-> & -> & Hcount).
  destruct (tally_tweet_counts wd' t Hs') as (-> & -> & Hcount').
  split_and!; [lia..|]. intros e w He. by rewrite Hcount, Hcount', Hc.
Qed.

Lemma shaped_post_counts args valid_users wd t :
  shaped wd -> shaped (post_counts args valid_users wd t).
Proof.
  intros Hs. unfold post_counts. case_match; [|done].
  by apply shaped_tally_tweet.
Qed.

Lemma same_counts_swap args valid_users wd t1 t2 :
  shaped wd ->
  same_counts
    (post_counts args valid_users (post_counts args valid_users wd t1) t2)
    (post_counts args valid_users (post_counts args valid_users wd t2) t1).
Proof.
  intros Hs. unfold post_counts.
  destruct (passes_filter args valid_users t1),
    (passes_filter args valid_users t2);
    try apply same_counts_refl.
  pose proof (shaped_tally_tweet wd t1 Hs) as Hs1.
  pose proof (shaped_tally_tweet wd t2 Hs) as Hs2.
  destruct (tally_tweet_counts wd t1 Hs) as (Hw1 & Ht1 & Hc1).
  destruct (tally_tweet_counts wd t2 Hs) as (Hw2 & Ht2 & Hc2).
  unfold same_counts.
  destruct (tally_tweet_counts _ t2 Hs1) as (-> & -> & Hc12).
  destruct (tally_tweet_counts _ t1 Hs2) as (-> & -> & Hc21).
  split_and!; [lia..|]. intros e w He.
  rewrite Hc12, Hc21, Hc1, Hc2. lia.
Qed.

Lemma shaped_posts_counts args valid_users wd dump :
  shaped wd -> shaped (foldl (post_counts args valid_users) wd dump).
Proof.
  revert wd. induction dump as [|t dump IH]; intros wd Hs; simpl; [done|].
  by apply IH, shaped_post_counts.
Qed.

Lemma same_counts_posts args valid_users dump wd wd' :
  shaped wd -> shaped wd' -> same_counts wd wd' ->
  same_counts (foldl (post_counts args valid_users) wd dump)
    (foldl (post_counts args valid_users) wd' dump).
Proof.
  revert wd wd'. induction dump as [|t dump IH]; intros wd wd' Hs Hs' Hsame;
    simpl; [done|].
  apply IH; [by apply shaped_post_counts..|by apply same_counts_post].
Qed.

Lemma same_counts_permutation args valid_users dump dump' :
  dump ≡ₚ dump' ->
  forall wd wd',
    shaped wd -> shaped wd' -> same_counts wd wd' ->
    same_counts (foldl (post_counts args valid_users) wd dump)
      (foldl (post_counts args valid_users) wd' dump').
Proof.
  induction 1 as [|t dump dump' _ IH|t1 t2 dump|dump1 dump2 dump3 _ IH1 _ IH2];
    intros wd wd' Hs Hs' Hsame; simpl.
  - done.
  - apply IH; [by apply shaped_post_counts..|by apply same_counts_post].
  - apply same_counts_posts; [by do 2 apply shaped_post_counts..|].
    eapply same_counts_trans; [by apply same_counts_swap|].
    apply same_counts_post; [by apply shaped_post_counts..|].
    by apply same_counts_post.
  - eapply same_counts_trans; [by apply IH1|].
    apply IH2; [done..|apply same_counts_refl].
Qed.

Lemma words_dict_tally_posts args valid_users s dump :
  words_dict (foldl (tally_post args valid_users) s dump)
  = foldl (post_counts args valid_users) (words_dict s) dump.
Proof.
  revert s. induction dump as [|t dump IH]; intros s; simpl; [done|].
  rewrite IH. f_equal. unfold tally_post, post_counts. by case_match.
Qed.

(** X11. The counters do not depend on the order of the posts: two dumps
    with the same posts in any order, starting with posts of the same
    language, end the aggregation with the same return value, the same
    two totals and the same count for every word under every tracked
    emotion. (The order of the words inside the dictionaries, and with it
    the order of tied rows, may differ.) *)
Theorem counts_do_not_depend_on_the_order_of_the_posts
    first rest first' rest' args events :
  first :: rest ≡ₚ first' :: rest' ->
  tweet_lang first = tweet_lang first' ->
  (process_lines (first :: rest) args
     (State initial_words_dict (Stats 0 0) events)).1
  = (process_lines (first' :: rest') args
       (State initial_words_dict (Stats 0 0) events)).1
  /\ same_counts
       (words_dict (after_aggregation (first :: rest) args events))
       (words_dict (after_aggregation (first' :: rest') args events)).
Proof.
  intros Hperm Hlang. unfold after_aggregation.
  set (s0 := State initial_words_dict (Stats 0 0) events).
  assert (shaped (words_dict s0)) as Hs0 by apply shaped_initial.
  assert (forall s1 : state,
    words_dict s1 = initial_words_dict ->
    same_counts
      (foldl (post_counts args (loaded_users args)) (words_dict s1)
         (first :: rest))
      (foldl (post_counts args (loaded_users args)) (words_dict s1)
         (first' :: rest'))) as Hfold.
  { intros s1 Hwd. apply same_counts_permutation; [done|..];
      rewrite Hwd; [apply shaped_initial..|apply same_counts_refl]. }
  destruct (users_file args) as [path|] eqn:Hfile.
  - destruct (users_truthy (loaded_users args)) eqn:Htrue.
    + rewrite !(process_lines_filtered _ _ _ path) by done.
      rewrite !process_dump_run
        by (done || (right; by apply users_truthy_not_None)).
      rewrite <-Hlang. destruct (initEmotionLexicon _).
      * cbn [fst snd]. split; [done|].
        rewrite !words_dict_tally_posts. by apply Hfold.
      * split; [done|apply same_counts_refl].
    + destruct (process_lines_rejected first rest args path s0 Hfile Htrue)
        as (logs & -> & _).
      destruct (process_lines_rejected first' rest' args path s0 Hfile Htrue)
        as (logs' & -> & _).
      split; [done|apply same_counts_refl].
  - unfold process_lines. rewrite Hfile.
    rewrite !process_dump_run by auto.
    rewrite <-Hlang. destruct (initEmotionLexicon _).
    + cbn [fst snd]. split; [done|].
      rewrite !words_dict_tally_posts.
      rewrite <-(loaded_users_unfiltered args Hfile). by apply Hfold.
    + split; [done|apply same_counts_refl].
Qed.

(** ** Edge cases of the aggregation *)

(** X12. When the lexicon of the first post's language cannot be loaded,
    [process_lines] returns [None] without counting anything and without
    a log line of its own: the only lines logged are those about the
    users file, none when no users file is configured. [main] then writes
    no line of the ranked output to a file and ends with every counter at
    its initial value. *)
Theorem missing_lexicon_skips_the_aggregation first dump basename args s :
  initEmotionLexicon (tweet_lang first) = false ->
  (exists logs,
     process_lines (first :: dump) args s
     = (Ok None, State (words_dict s) (stats s) (trace s ++ logs))
     /\ Forall is_log logs
     /\ (users_file args = None -> logs = []))
  /\ (0 < n_words args ->
      exists outcome events,
        main (first :: dump) basename args s
        = (outcome,
           State initial_words_dict (Stats 0 0) (trace s ++ events))
        /\ Forall (fun ev => ~ writes_to_file ev) events
        /\ (outcome = Ok tt \/ outcome = Raise IndexError)).
Proof.
  intros Hinit.
  assert (forall s0, exists logs,
    process_lines (first :: dump) args s0
    = (Ok None, State (words_dict s0) (stats s0) (trace s0 ++ logs))
    /\ Forall is_log logs
    /\ (users_file args = None -> logs = [])) as Hlines.
  { intros s0. unfold process_lines.
    destruct (users_file args) as [path|] eqn:Hfile.
    - unfold bind at 1. unfold log at 1, emit at 1. unfold bind at 1.
      destruct (get_valid_users_run args path
        (State (words_dict s0) (stats s0)
           (trace s0 ++ [Log "Specified a set of users to filter the tweet"]))
        Hfile) as (logs & -> & _ & Hall).
      cbn [words_dict stats trace].
      destruct (users_truthy (loaded_users args)); cbn [negb].
      + unfold process_dump. rewrite Hinit. unfold ret.
        exists ([Log "Specified a set of users to filter the tweet"] ++ logs).
        rewrite app_assoc. split; [done|]. split; [|done].
        apply Forall_app. split; [by repeat constructor|done].
      + run. eexists. rewrite <-!app_assoc. split; [reflexivity|].
        split; [|done]. apply Forall_app. split; [by repeat constructor|].
        apply Forall_app. split; [done|by repeat constructor].
    - unfold process_dump. rewrite Hinit. exists []. rewrite app_nil_r.
      split; [by destruct s0|]. split; [constructor|done]. }
  split; [apply Hlines|]. intros Htop.
  destruct (Hlines (State initial_words_dict (Stats 0 0) (trace s)))
    as (logs & Hrun & Hall & _).
  destruct (main_without_language (first :: dump) basename args s _
              Htop Hrun eq_refl eq_refl)
    as (outcome & events & Hmain & Hquiet & Hout).
  exists outcome, (logs ++ events). split_and!; [|  |done].
  - rewrite Hmain. simpl. by rewrite app_assoc.
  - apply Forall_app. split; [|done].
    eapply Forall_impl; [exact Hall|]. apply is_log_not_written.
Qed.

(** X13. A token the lexicon does not know changes nothing. A token
    whose emotions are all outside the tracked ones is still counted as
    matched: [total_words_matched] and the stats grow by one, and no word
    is recorded under any emotion. *)
Theorem tokens_without_tracked_emotions w s :
  shaped (words_dict s) ->
  relevant_names w = [] ->
  (getEmotionsOfWord w = [] -> process_word w s = (Ok tt, s))
  /\ (getEmotionsOfWord w <> [] ->
      process_word w s
      = (Ok tt,
         State (add_total "words" (words_dict s))
           (Stats (stats_words (stats s) + 1) (stats_tweets (stats s)))
           (trace s))
      /\ forall e,
           emotion_words e (add_total "words" (words_dict s))
           = emotion_words e (words_dict s)).
Proof.
  intros Hs Hnone. rewrite process_word_run by done.
  unfold tally_word, matched. rewrite Hnone. simpl. split.
  - intros ->. rewrite bool_decide_eq_true_2 by done.
    destruct s as [wd [sw st] tr]. simpl. by rewrite Z.add_0_r.
  - intros Hne. rewrite bool_decide_eq_false_2 by done. split; [done|].
    intros e. apply emotion_words_add_total; auto.
Qed.

(** X14. Processing a post never lowers a counter: for a state of the
    shape [main] gives it and a filter that is loaded, [process_tweet]
    returns normally, both totals are at least what they were and so is
    the count of every word under every tracked emotion. *)
Theorem process_tweet_never_lowers_a_counter tweet valid_users args s :
  shaped (words_dict s) ->
  users_file args = None \/ valid_users <> UNone ->
  exists s',
    process_tweet tweet valid_users args s = (Ok tt, s')
    /\ shaped (words_dict s')
    /\ total "words" (words_dict s) <= total "words" (words_dict s')
    /\ total "tweets" (words_dict s) <= total "tweets" (words_dict s')
    /\ forall e w, count e w (words_dict s) <= count e w (words_dict s').
Proof.
  intros Hs Hready. eexists. split; [by apply process_tweet_post|].
  split; [by apply shaped_tally_post|].
  unfold tally_post. case_match; simpl; [|by split_and!].
  destruct (tally_tweet_counts (words_dict s) tweet Hs) as (-> & -> & Hc).
  split_and!.
  - unfold matched_tokens, len. lia.
  - lia.
  - intros e w. rewrite Hc.
    pose proof (occurrences_nonneg w (tokenize (tweet_full_text tweet))).
    pose proof (occurrences_nonneg e (relevant_names w)). nia.
Qed.

(** ** More on the users file *)

(** X15. A users file that exists and reads as JSON objects that all have
    an [id_str] loads, without a log line, as the set of these
    identifiers; the filter then lets a post through exactly when the
    decimal writing of its author's id is one of them. *)
Theorem json_users_file_loads_its_identifiers args path users ids s :
  users_file args = Some path ->
  path_exists path = true ->
  open_jsonobjects_file path = Yields <$> users ->
  Forall2 (fun user id => dict_get "id_str" user = Some id) users ids ->
  get_valid_users args s = (Ok (USet (list_to_set ids)), s)
  /\ forall tweet,
       passes_filter args (USet (list_to_set ids)) tweet = true
       <-> str (tweet_user_id tweet) ∈ ids.
Proof.
  intros Hfile Hexists Hjson Hids. split.
  - unfold get_valid_users. rewrite Hfile, Hexists, Hjson.
    rewrite (collect_users_records _ ids) by done.
    by rewrite (right_id_L ∅ (∪)).
  - intros tweet. unfold passes_filter. rewrite Hfile. simpl.
    rewrite bool_decide_eq_true. apply elem_of_list_to_set.
Qed.

Lemma collect_users_missing_id good user rest (acc : gset string) :
  Forall (fun u => is_Some (dict_get "id_str" u)) good ->
  dict_get "id_str" user = None ->
  collect_users ((Yields <$> good) ++ Yields user :: rest) (USet acc)
  = Raise KeyError.
Proof.
  intros Hgood Hbad. revert acc.
  induction Hgood as [|u good [id Hid] _ IH]; intros acc; simpl.
  - by rewrite Hbad.
  - by rewrite Hid, IH.
Qed.

(** X16. One JSON object without an [id_str] discards the whole users
    file: the loader gives up the JSON reading, never gets a set out of
    the tabular reading, and [process_lines] returns [None] without
    counting a post, whatever identifiers the other objects hold. *)
Theorem one_record_without_id_str_rejects_the_users_file
    first dump args path good user rest s :
  users_file args = Some path ->
  open_jsonobjects_file path = (Yields <$> good) ++ Yields user :: rest ->
  Forall (fun u => is_Some (dict_get "id_str" u)) good ->
  dict_get "id_str" user = None ->
  users_truthy (loaded_users args) = false
  /\ exists logs,
       process_lines (first :: dump) args s
       = (Ok None, State (words_dict s) (stats s) (trace s ++ logs))
       /\ Log users_not_found ∈ logs.
Proof.
  intros Hfile Hjson Hgood Hbad.
  assert (users_truthy (loaded_users args) = false) as Hfalse.
  { destruct (tabular_branch_never_loads args path KeyError Hfile)
      as [-> | ->]; [|done..].
    rewrite Hjson. by apply collect_users_missing_id. }
  split; [done|].
  destruct (process_lines_rejected first dump args path s Hfile Hfalse)
    as (logs & Hrun & _).
  eexists. split; [exact Hrun|].
  rewrite !elem_of_app. right. right. by apply list_elem_of_singleton.
Qed.

(** ** Progress dots *)

Lemma count_dots_app events events' :
  count_dots (events ++ events') = count_dots events + count_dots events'.
Proof.
  induction events as [|ev events IH]; simpl; [done|].
  destruct ev; rewrite ?IH; lia.
Qed.

Lemma batches_step k :
  0 <= k ->
  (k + 1 + NTWEET - 1) / NTWEET
  = (k + NTWEET - 1) / NTWEET
    + (if Z.eqb ((k + 1 - 1) mod NTWEET) 0 then 1 else 0).
Proof.
  intros Hk. unfold NTWEET.
  destruct (Z.eqb_spec ((k + 1 - 1) mod 10000) 0) as [Hz|Hnz];
    Z.div_mod_to_equations; lia.
Qed.

Lemma tally_posts_dots args valid_users s dump :
  0 <= stats_tweets (stats s) ->
  exists dots,
    trace (foldl (tally_post args valid_users) s dump) = trace s ++ dots
    /\ count_dots dots
       = (stats_tweets (stats (foldl (tally_post args valid_users) s dump))
          + NTWEET - 1) / NTWEET
         - (stats_tweets (stats s) + NTWEET - 1) / NTWEET.
Proof.
  revert s. induction dump as [|t dump IH]; intros s Hk; simpl.
  - exists []. rewrite app_nil_r. split; [done|]. simpl. lia.
  - assert (0 <= stats_tweets (stats (tally_post args valid_users s t)))
      as Hk'.
    { unfold tally_post. case_match; simpl; lia. }
    destruct (IH _ Hk') as (dots & -> & Hdots).
    unfold tally_post in *.
    destruct (passes_filter args valid_users t); [|by exists dots].
    cbn [trace stats stats_tweets] in *.
    exists (progress_dot (stats_tweets (stats s)) ++ dots).
    rewrite app_assoc. split; [done|].
    rewrite count_dots_app, Hdots, (batches_step _ Hk).
    unfold progress_dot. destruct (Z.eqb _ 0); simpl; lia.
Qed.

(** X17. The aggregation prints one progress dot per started batch of
    [NTWEET] counted posts, and the dots leave the counters alone: after
    the aggregation of any dump from a fresh state, everything it has
    added to the trace is log lines and dots, and the dots number
    [total_posts] divided by [NTWEET], rounded up. *)
Theorem one_dot_per_started_batch dump args events :
  let s := after_aggregation dump args events in
  exists added,
    trace s = events ++ added
    /\ Forall (fun ev => is_log ev \/ is_dot ev) added
    /\ count_dots added
       = (total "tweets" (words_dict s) + NTWEET - 1) / NTWEET.
Proof.
  intros s. unfold s, after_aggregation.
  set (s0 := State initial_words_dict (Stats 0 0) events).
  pose proof (process_lines_mirrored dump args s0 shaped_initial
                (conj eq_refl eq_refl)) as [_ Hmirror].
  rewrite <-Hmirror.
  assert (forall logs : list event, Forall is_log logs ->
            Forall (fun ev => is_log ev \/ is_dot ev) logs
            /\ count_dots logs = 0) as Hlogs.
  { intros logs Hall. split; [eapply Forall_impl; [exact Hall|]; tauto|].
    induction Hall as [|ev logs Hev _ IH]; [done|]. by destruct ev. }
  destruct (process_lines_cases dump args s0 shaped_initial)
    as (logs & Hall
        & [(_ & -> & ->)|[(_ & ->)|(first & rest & -> & _ & _ & ->)]]);
    subst s0; cbn [snd words_dict trace stats stats_tweets].
  - exists []. by rewrite app_nil_r.
  - exists logs. split; [done|]. by apply Hlogs.
  - destruct (tally_posts_dots args (loaded_users args)
                (State initial_words_dict (Stats 0 0) (events ++ logs))
                (first :: rest)) as (dots & Htrace & Hdots); [done|].
    destruct (tally_posts_trace args (loaded_users args)
                (State initial_words_dict (Stats 0 0) (events ++ logs))
                (first :: rest)) as (dots' & Htrace' & Hall').
    rewrite Htrace in Htrace'. apply app_inv_head in Htrace'. subst dots'.
    exists (logs ++ dots). rewrite Htrace. cbn [trace].
    rewrite app_assoc. split; [done|].
    destruct (Hlogs logs Hall) as [Hq Hzero]. split.
    + apply Forall_app. split; [done|].
      eapply Forall_impl; [exact Hall'|]. tauto.
    + rewrite count_dots_app, Hzero, Hdots. cbn [stats stats_tweets].
      unfold NTWEET. change ((0 + 10000 - 1) / 10000) with 0. lia.
Qed.

End Processor.

(** * The processor on the small lexicon *)

(** A theorem of the processor at the collaborators of [Demo]. *)
Local Abbreviation on_demo f :=
  (f Demo.Emotions Demo.getEmotionName Demo.initEmotionLexicon
     Demo.tokenize Demo.getEmotionsOfWord Demo.path_exists
     Demo.open_jsonobjects_file Demo.open_csv_file).

Lemma demo_emotion_sets w :
  NoDup (emotion_names Demo.Emotions Demo.getEmotionName
           Demo.getEmotionsOfWord w).
Proof.
  unfold emotion_names, Demo.getEmotionsOfWord.
  repeat case_match; compute_done.
Qed.

(** One post with "happy" twice (three tracked emotions and one that is
    not), "mad" once, and two tokens without tracked emotions. *)
Lemma process_tweet_counts_each_match_once_witness :
  exists s',
    process_tweet Demo.Emotions Demo.getEmotionName Demo.tokenize
      Demo.getEmotionsOfWord Demo.tweet UNone Demo.unfiltered Demo.start
    = (Ok tt, s')
    /\ total "words" (words_dict s') = 4
    /\ count "joy" "happy" (words_dict s') = 2
    /\ count "positive" "happy" (words_dict s') = 2
    /\ count "trust" "happy" (words_dict s') = 2
    /\ count "anger" "mad" (words_dict s') = 1
    /\ count "joy" "mad" (words_dict s') = 0.
Proof.
  destruct (process_tweet_counts_each_match_once
              Demo.Emotions Demo.getEmotionName Demo.initEmotionLexicon
              Demo.tokenize Demo.getEmotionsOfWord Demo.path_exists
              Demo.open_jsonobjects_file Demo.open_csv_file
              Demo.tweet UNone Demo.unfiltered Demo.start)
    as (s' & Hrun & Hwords & _ & Hcount).
  - reflexivity.
  - reflexivity.
  - intros w _. apply demo_emotion_sets.
  - exists s'. split; [exact Hrun|].
    rewrite Hwords, !Hcount by compute_done.
    repeat split.
Defined.

(** The dump has posts of the authors 12, 13 and 12, and the users file
    lists 12 and 14: two posts are counted. *)
Lemma process_lines_counts_passing_posts_witness :
  exists s',
    process_lines Demo.Emotions Demo.getEmotionName Demo.initEmotionLexicon
      Demo.tokenize Demo.getEmotionsOfWord Demo.path_exists
      Demo.open_jsonobjects_file Demo.open_csv_file
      Demo.dump Demo.filtered Demo.start
    = (Ok (Some "en"), s')
    /\ total "tweets" (words_dict s') = 2
    /\ stats_tweets (stats s') = 2.
Proof.
  destruct (process_lines_counts_passing_posts
              Demo.Emotions Demo.getEmotionName Demo.initEmotionLexicon
              Demo.tokenize Demo.getEmotionsOfWord Demo.path_exists
              Demo.open_jsonobjects_file Demo.open_csv_file
              (Tweet "happy mad happy thing so" 12 "en")
              [Tweet "glad glad" 13 "en"; Tweet "nothing here" 12 "en"]
              Demo.filtered Demo.start)
    as (s' & Hrun & Htweets & Hstats & _).
  - reflexivity.
  - reflexivity.
  - right. vm_compute. reflexivity.
  - exists s'. split; [exact Hrun|]. rewrite Htweets, Hstats.
    split; vm_compute; reflexivity.
Defined.

(** Two distinct words under "joy" and a [top_n] of 30: two rows. *)
Lemma ranker_emits_min_of_top_n_and_distinct_words_witness :
  let s := after_aggregation Demo.Emotions Demo.getEmotionName
             Demo.initEmotionLexicon Demo.tokenize Demo.getEmotionsOfWord
             Demo.path_exists Demo.open_jsonobjects_file Demo.open_csv_file
             Demo.dump Demo.unfiltered [] in
  exists rows,
    get_first_n_words (stats s) (words_dict s) Demo.unfiltered = (rows, None)
    /\ len (emotion_words "joy" (words_dict s)) = 2
    /\ len (rows_of_emotion "joy" rows) = 2.
Proof.
  intros s.
  destruct (ranker_emits_min_of_top_n_and_distinct_words
              Demo.Emotions Demo.getEmotionName Demo.initEmotionLexicon
              Demo.tokenize Demo.getEmotionsOfWord Demo.path_exists
              Demo.open_jsonobjects_file Demo.open_csv_file
              Demo.dump Demo.unfiltered [] "joy")
    as (rows & Hrun & Hlen & _).
  - reflexivity.
  - compute_done.
  - exists rows. split; [exact Hrun|]. rewrite Hlen.
    split; vm_compute; reflexivity.
Defined.

(** Ten matched words, four posts, "happy" five times: the floats 0.5
    and 1.25. *)
Lemma ranked_rows_carry_the_floats_of_the_final_ratios_witness :
  let s := on_demo after_aggregation Demo.ratio_dump Demo.unfiltered [] in
  let r := Binary64.Row "happy" 5 Binary64.half Binary64.five_quarters
             "positive" in
  r ∈ (Binary64.get_first_n_words (stats s) (words_dict s)
         Demo.unfiltered).1
  /\ total "words" (words_dict s) = 10
  /\ total "tweets" (words_dict s) = 4
  /\ Binary64.truediv 5 (total "words" (words_dict s)) = Ok Binary64.half
  /\ Binary64.truediv 5 (total "tweets" (words_dict s))
     = Ok Binary64.five_quarters.
Proof.
  intros s r.
  assert (r ∈ (Binary64.get_first_n_words (stats s) (words_dict s)
                 Demo.unfiltered).1) as Hin.
  { vm_compute. constructor. }
  destruct (proj1 (proj1 (on_demo ranked_rows_carry_the_floats_of_the_final_ratios)
                     Demo.ratio_dump Demo.unfiltered []) r Hin)
    as (_ & _ & _ & _ & _ & Hwords & Htweets & _).
  split; [exact Hin|]. split; [reflexivity|]. split; [reflexivity|].
  split; [exact Hwords|exact Htweets].
Defined.

(** The three posts leave happy 2, glad 2 under "joy", in this order:
    with a [top_n] of 1 the row is the one of happy. *)
Lemma ranking_follows_counts_then_insertion_order_witness :
  let s := on_demo after_aggregation Demo.dump Demo.unfiltered [] in
  let args := Args 1 None false "out" None in
  let words := emotion_words "joy" (words_dict s) in
  let rows := (get_first_n_words (stats s) (words_dict s) args).1 in
  words = [("happy", 2); ("glad", 2)]
  /\ row_item <$> rows_of_emotion "joy" rows = [("happy", 2)]
  /\ exists order,
       order ≡ₚ words
       /\ StronglySorted (ranks_before words) order
       /\ row_item <$> rows_of_emotion "joy" rows = take 1 order.
Proof.
  intros s args words rows.
  split; [reflexivity|]. split; [reflexivity|].
  destruct (proj1 ranking_follows_counts_then_insertion_order
              (stats s) (words_dict s) args "joy")
    as (order & Hperm & Hsorted & _ & Hrows).
  - apply (on_demo after_aggregation_aggregated).
  - compute_done.
  - exists order. split; [exact Hperm|]. split; [exact Hsorted|exact Hrows].
Defined.

(** C5 as it was stated does not hold when the counters are taken as a
    mapping from words to counts. The same two posts in the two possible
    orders leave the same counters, and with a [top_n] of 1 the
    ranker gives the rows of "happy" for one order and those of "glad"
    for the other: the tie is broken by the order in which the words
    were first counted, which the mapping does not record. *)
Lemma equal_counters_in_another_order_rank_differently :
  let happy := Tweet "happy" 1 "en" in
  let glad := Tweet "glad" 2 "en" in
  let args := Args 1 None false "out" None in
  let s1 := on_demo after_aggregation [happy; glad] args [] in
  let s2 := on_demo after_aggregation [glad; happy] args [] in
  same_counts (words_dict s1) (words_dict s2)
  /\ row_word <$> (get_first_n_words (stats s1) (words_dict s1) args).1
     = ["happy"; "happy"; "happy"]
  /\ row_word <$> (get_first_n_words (stats s2) (words_dict s2) args).1
     = ["glad"; "glad"; "happy"].
Proof.
  intros happy glad args s1 s2.
  split; [|split; reflexivity].
  split; [reflexivity|]. split; [reflexivity|].
  intros e w He.
  destruct (decide (w = "happy")) as [->|Hhappy];
    [unfold RELEVANT_EMOTIONS in He;
     repeat (apply elem_of_cons in He as [->|He]);
     [..|by apply elem_of_nil in He]; reflexivity|].
  destruct (decide (w = "glad")) as [->|Hglad];
    [unfold RELEVANT_EMOTIONS in He;
     repeat (apply elem_of_cons in He as [->|He]);
     [..|by apply elem_of_nil in He]; reflexivity|].
  assert (forall s e,
    Forall (fun k => k = "happy" \/ k = "glad")
      (emotion_words e (words_dict s)).*1 ->
    count e w (words_dict s) = 0) as Habsent.
  { intros s e' Hkeys. unfold count.
    destruct (dict_get w (emotion_words e' (words_dict s))) as [c|] eqn:Hget;
      [|done].
    apply dict_get_Some_elem in Hget.
    assert (w ∈ (emotion_words e' (words_dict s)).*1) as Hin
      by (apply list_elem_of_fmap; by exists (w, c)).
    rewrite Forall_forall in Hkeys. by destruct (Hkeys w Hin). }
  unfold RELEVANT_EMOTIONS in He.
  repeat (apply elem_of_cons in He as [->|He]);
    [..|by apply elem_of_nil in He];
    rewrite !Habsent; try reflexivity; vm_compute;
    repeat first [apply Forall_nil_2 | apply Forall_cons_2; [auto|]].
Qed.

(** A users file that does not exist. *)
Lemma failed_users_file_stops_the_aggregation_witness :
  exists outcome events,
    main Demo.Emotions Demo.getEmotionName Demo.initEmotionLexicon
      Demo.tokenize Demo.getEmotionsOfWord Demo.path_exists
      Demo.open_jsonobjects_file Demo.open_csv_file
      Demo.dump Demo.basename Demo.missing Demo.start
    = (outcome, State initial_words_dict (Stats 0 0) events)
    /\ Log users_not_found ∈ events
    /\ Forall (fun ev => ~ writes_to_file ev) events.
Proof.
  destruct (failed_users_file_stops_the_aggregation
              Demo.Emotions Demo.getEmotionName Demo.initEmotionLexicon
              Demo.tokenize Demo.getEmotionsOfWord Demo.path_exists
              Demo.open_jsonobjects_file Demo.open_csv_file
              (Tweet "happy mad happy thing so" 12 "en")
              [Tweet "glad glad" 13 "en"; Tweet "nothing here" 12 "en"]
              Demo.basename Demo.missing Demo.start)
    as (_ & outcome & events & Hrun & Hdiag & Hquiet & _).
  - exists "nowhere". split; [reflexivity|]. left. reflexivity.
  - reflexivity.
  - exists outcome, events. split; [exact Hrun|]. split; assumption.
Defined.

(** C6 as it was stated does not hold. The users file of this run does
    not exist, and yet the run is not aborted and output is written for
    it: [main] returns normally, having made a directory named after the
    missing language and written the stats report, with both counters at
    0, into it. Only the ranked output stays on the null sink. *)
Lemma failed_users_file_does_not_abort_the_run :
  load_failed Demo.path_exists Demo.open_jsonobjects_file
    Demo.open_csv_file Demo.missing
  /\ main Demo.Emotions Demo.getEmotionName Demo.initEmotionLexicon
    Demo.tokenize Demo.getEmotionsOfWord Demo.path_exists
    Demo.open_jsonobjects_file Demo.open_csv_file
    Demo.dump Demo.basename Demo.missing Demo.start
  = (Ok tt,
     State initial_words_dict (Stats 0 0)
       [Log "Specified a set of users to filter the tweet";
        Log users_not_found;
        Mkdir "out/words-frequency/stats/None";
        OpenWriter
          "out/words-frequency/stats/None/tweets-en-2020-01-02.json.calc-words-frequency.stats.xml"
          None;
        WriteHeader DevNull fieldnames;
        Close DevNull;
        RenderStats
          (OutFile
             "out/words-frequency/stats/None/tweets-en-2020-01-02.json.calc-words-frequency.stats.xml")
          0 0;
        Close
          (OutFile
             "out/words-frequency/stats/None/tweets-en-2020-01-02.json.calc-words-frequency.stats.xml");
        Close
          (OutFile
             "out/words-frequency/stats/None/tweets-en-2020-01-02.json.calc-words-frequency.stats.xml")]).
Proof.
  split; [|reflexivity].
  exists "nowhere". split; [reflexivity|]. left. reflexivity.
Qed.

(** A [top_n] of 0. *)
Lemma non_positive_top_n_exits_before_any_work_witness :
  main Demo.Emotions Demo.getEmotionName Demo.initEmotionLexicon
    Demo.tokenize Demo.getEmotionsOfWord Demo.path_exists
    Demo.open_jsonobjects_file Demo.open_csv_file
    Demo.dump Demo.basename (Args 0 None false "out" None) Demo.start
  = (Raise (SystemExit 1),
     State initial_words_dict (Stats 0 0)
       [Log "the parameter --n-words cannot be lower than 1, exiting..."]).
Proof.
  apply (non_positive_top_n_exits_before_any_work
           Demo.Emotions Demo.getEmotionName Demo.initEmotionLexicon
           Demo.tokenize Demo.getEmotionsOfWord Demo.path_exists
           Demo.open_jsonobjects_file Demo.open_csv_file
           Demo.dump Demo.basename (Args 0 None false "out" None)
           Demo.start).
  simpl. lia.
Defined.

(** * The users file across two file systems *)



(** C7. The file "users.csv" of the small file system is a table with the
    header [id_str] and one row, 12; read as JSON objects it fails on its
    first line. The loader falls back to the table and, on its first row,
    calls [add] on the dictionary it has just created: it logs that the
    file is neither format and returns [None], where the set holding 12
    was due. The same file given as JSON objects loads. *)
Theorem tabular_users_file_is_rejected :
  Demo.open_csv_file "users.csv" = [Yields [("id_str", "12")]]
  /\ get_valid_users Demo.path_exists Demo.open_jsonobjects_file
       Demo.open_csv_file Demo.tabular Demo.start
     = (Ok UNone,
        State initial_words_dict (Stats 0 0)
          [Log "The file is neither a .json nor a .csv"])
  /\ (get_valid_users Demo.path_exists Demo.open_jsonobjects_file
        Demo.open_csv_file Demo.filtered Demo.start).1
     = Ok (USet (list_to_set ["12"; "14"])).
Proof.
  split_and!; reflexivity.
Qed.


(** * The preprocessing of the user inference *)

Section PreprocessFacts.
Import InferUsers.
Variable int_of_str : string -> result Z.
Variable path_exists : pyobj -> result bool.
Variable TW_DEFAULT_PROFILE_IMG : string.
Variable transform_jsonl_object :
  list (string * pyobj) -> result (list (string * pyobj)).

Local Abbreviation write_object :=
  (InferUsers.write_object path_exists TW_DEFAULT_PROFILE_IMG).
Local Abbreviation prepare_user :=
  (InferUsers.prepare_user transform_jsonl_object).
Local Abbreviation process_lines :=
  (InferUsers.process_lines int_of_str transform_jsonl_object).
Local Abbreviation preprocess :=
  (InferUsers.preprocess int_of_str path_exists TW_DEFAULT_PROFILE_IMG
     transform_jsonl_object).
Local Abbreviation reaches_minimum := (InferUsers.reaches_minimum int_of_str).
Local Abbreviation selects := (InferUsers.selects int_of_str).
Local Abbreviation selected := (InferUsers.selected int_of_str).

(** X18. [init_user] either returns a row with exactly the columns of the
    CSV header, in the order of the header, whose six profile columns
    hold the values of the user record, or raises [KeyError] because the
    record lacks one of these six fields. *)
Theorem init_user_builds_a_row_of_the_header user :
  match init_user user with
  | Ok entry =>
      entry.*1 = InferUsers.fieldnames
      /\ Forall (fun key => dict_get key entry = dict_get key user)
           (take 6 InferUsers.fieldnames)
      /\ drop 6 entry
         = [("gender", PStr ""); ("gender_acc", PNum (-1)); ("age", PStr "");
            ("age_acc", PNum (-1)); ("age_>=40_acc", PNum (-1));
            ("age_30-39_acc", PNum (-1)); ("age_19-29_acc", PNum (-1));
            ("age_<=18_acc", PNum (-1)); ("org", PBool false);
            ("org_acc", PNum (-1))]
  | Raise e =>
      e = KeyError
      /\ Exists (fun key => dict_get key user = None)
           (take 6 InferUsers.fieldnames)
  end.
Proof.
  unfold init_user, field.
  destruct (dict_get "id_str" user) eqn:H1;
    [|split; [done|]; by apply Exists_cons_hd].
  destruct (dict_get "screen_name" user) eqn:H2;
    [|split; [done|]; by do 1 apply Exists_cons_tl; apply Exists_cons_hd].
  destruct (dict_get "name" user) eqn:H3;
    [|split; [done|]; by do 2 apply Exists_cons_tl; apply Exists_cons_hd].
  destruct (dict_get "tweets" user) eqn:H4;
    [|split; [done|]; by do 3 apply Exists_cons_tl; apply Exists_cons_hd].
  destruct (dict_get "days_tweeted" user) eqn:H5;
    [|split; [done|]; by do 4 apply Exists_cons_tl; apply Exists_cons_hd].
  destruct (dict_get "location" user) eqn:H6;
    [|split; [done|]; by do 5 apply Exists_cons_tl; apply Exists_cons_hd].
  split; [done|]. split; [|done].
  repeat (constructor; [simpl; congruence|]). constructor.
Qed.

Lemma write_object_counters obj s :
  let r := write_object obj s in
  users (stats r.2) = users (stats s)
  /\ to_infer (stats r.2) = to_infer (stats s)
  /\ shared r.2 = shared s
  /\ match r.1 with
     | Ok _ =>
         length (written r.2) = S (length (written s))
         /\ img_errors (stats s) <= img_errors (stats r.2)
            <= img_errors (stats s) + 1
     | Raise _ => r.2 = s
     end.
Proof.
  unfold InferUsers.write_object, field.
  destruct (dict_get "img_path" obj); [|done].
  destruct (path_exists p) as [[|]|]; simpl; [| |done];
    rewrite length_app; simpl; split_and!; try done; lia.
Qed.

Lemma prepare_user_counters user s :
  let r := prepare_user user write_object s in
  users (stats r.2) = users (stats s)
  /\ to_infer (stats r.2) = to_infer (stats s) + 1
  /\ img_errors (stats s) <= img_errors (stats r.2)
  /\ match r.1 with
     | Ok _ =>
         length (written r.2) = S (length (written s))
         /\ img_errors (stats r.2) <= img_errors (stats s) + 2
         /\ exists id entry,
              dict_get "id_str" user = Some id
              /\ init_user user = Ok entry
              /\ shared r.2 = shared_set id entry (shared s)
     | Raise _ =>
         written r.2 = written s
         /\ img_errors (stats r.2) <= img_errors (stats s) + 1
     end.
Proof.
  unfold InferUsers.prepare_user.
  destruct (init_user user) as [entry|e] eqn:Hinit; [|simpl; split_and!; lia || done].
  unfold field.
  destruct (dict_get "id_str" user) as [id|] eqn:Hid;
    [|simpl; split_and!; lia || done].
  destruct (dict_get "profile_image_url_https" user) as [url|];
    [|simpl; split_and!; lia || done].
  destruct (py_eq url (PStr ""));
    (destruct (transform_jsonl_object _) as [obj|e];
       [|simpl; split_and!; lia || done]);
    match goal with
    | |- context [InferUsers.write_object _ _ ?o ?s0] =>
        pose proof (write_object_counters o s0) as (Hu & Ht & Hsh & Hres);
        destruct (write_object o s0) as [[[]|e] s1]
    end; simpl in *; rewrite ?Hu, ?Ht; subst;
    split_and!; try lia; try done.
  all: try (by exists id, entry).
  all: simpl in *; lia.
Qed.

Lemma selected_cons min_tweets user dump :
  selected min_tweets (user :: dump)
  = (if selects min_tweets user then 1 else 0) + selected min_tweets dump.
Proof.
  unfold InferUsers.selected, len. rewrite filter_cons.
  destruct (selects min_tweets user).
  - rewrite decide_True by done. simpl length. lia.
  - by rewrite decide_False by done.
Qed.

Lemma process_lines_counters dump min_tweets s :
  let r := process_lines dump min_tweets write_object s in
  0 <= to_infer (stats r.2) - to_infer (stats s)
    <= users (stats r.2) - users (stats s)
  /\ users (stats r.2) - users (stats s) <= len dump
  /\ 0 <= len (written r.2) - len (written s)
       <= to_infer (stats r.2) - to_infer (stats s)
  /\ 0 <= img_errors (stats r.2) - img_errors (stats s)
       <= (to_infer (stats r.2) - to_infer (stats s))
          + (len (written r.2) - len (written s))
  /\ (r.1 = Ok tt ->
      users (stats r.2) - users (stats s) = len dump
      /\ to_infer (stats r.2) - to_infer (stats s)
         = selected min_tweets dump
      /\ len (written r.2) - len (written s)
         = selected min_tweets dump).
Proof.
  revert s. induction dump as [|user dump IH]; intros s.
  { simpl. unfold InferUsers.selected, len. simpl. split_and!; lia. }
  cbn [InferUsers.process_lines]. rewrite selected_cons.
  unfold InferUsers.selects.
  assert (len (user :: dump) = 1 + len dump) as ->
    by (unfold len; simpl length; lia).
  destruct (reaches_minimum min_tweets user) as [[|]|e].
  - pose proof (prepare_user_counters user (count_user s))
      as (Hu & Ht & Hi & Hres).
    destruct (prepare_user user write_object (count_user s))
      as [[[]|e] s1]; cbn [fst snd] in *.
    + destruct Hres as (Hw & Hi2 & _).
      specialize (IH s1). cbv zeta in IH.
      destruct IH as (H1 & H2 & H3 & H4 & H5).
      unfold len in *. simpl in Hu, Ht, Hi, Hi2, Hw.
      split_and!; try lia. intros Hok. specialize (H5 Hok). lia.
    + destruct Hres as (Hw & Hi2). unfold len in *.
      simpl in Hu, Ht, Hi, Hi2. rewrite Hw. simpl.
      split_and!; try lia; try done.
  - specialize (IH (count_user s)). cbv zeta in IH.
    destruct IH as (H1 & H2 & H3 & H4 & H5). simpl in *.
    split_and!; try lia. intros Hok. specialize (H5 Hok). lia.
  - simpl. unfold len. split_and!; try lia; try done.
Qed.

(** X19. The counters of the preprocessing, however it ends: the users
    to infer are never more than the users read, the objects written to
    the model's input never more than the users to infer, and the image
    errors never more than the users to infer plus the objects written,
    since each user can add one for an empty image address and one for a
    missing image file. When the preprocessing returns, every user of the
    dump has been read, and the users to infer and the objects written
    both number the users that reach the minimum of tweets. *)
Theorem preprocessing_counters dump min_tweets shared0 :
  let r := preprocess dump min_tweets shared0 in
  0 <= to_infer (stats r.2) <= users (stats r.2)
  /\ users (stats r.2) <= len dump
  /\ len (written r.2) <= to_infer (stats r.2)
  /\ 0 <= img_errors (stats r.2)
       <= to_infer (stats r.2) + len (written r.2)
  /\ (r.1 = Ok tt ->
      users (stats r.2) = len dump
      /\ to_infer (stats r.2) = selected min_tweets dump
      /\ len (written r.2) = selected min_tweets dump).
Proof.
  intros r. subst r. unfold InferUsers.preprocess.
  pose proof (process_lines_counters dump min_tweets
                (State (Stats 0 0 0) shared0 []))
    as (H1 & H2 & H3 & H4 & H5).
  unfold len in *. simpl in *. split_and!; try lia.
  intros Hok. specialize (H5 Hok). lia.
Qed.

(** X20. Users that do not reach the minimum of tweets, or have no
    ['tweets'] field at all, are counted and nothing else: when no user
    of the dump reaches the minimum, the preprocessing returns with the
    users counted, [shared] as it was and nothing written. *)
Theorem users_below_the_minimum_are_only_counted dump min_tweets shared0 :
  Forall (fun user => reaches_minimum min_tweets user = Ok false) dump ->
  preprocess dump min_tweets shared0
  = (Ok tt, State (Stats (len dump) 0 0) shared0 []).
Proof.
  intros Hall. unfold InferUsers.preprocess.
  assert (forall n,
    process_lines dump min_tweets write_object (State (Stats n 0 0) shared0 [])
    = (Ok tt, State (Stats (n + len dump) 0 0) shared0 [])) as Hloop.
  { induction Hall as [|user dump Huser _ IH]; intros n.
    - simpl. unfold len. simpl. by rewrite Z.add_0_r.
    - cbn [InferUsers.process_lines]. rewrite Huser.
      unfold count_user. simpl. rewrite IH. unfold len. simpl length.
      do 3 f_equal. lia. }
  by rewrite Hloop.
Qed.

Lemma py_eq_refl k : py_eq k k = true.
Proof.
  destruct k as [|[]|z|s]; simpl; try done.
  - apply Z.eqb_refl.
  - apply String.eqb_refl.
Qed.

Lemma shared_get_set k v d : shared_get k (shared_set k v d) = Some v.
Proof.
  induction d as [|[k' v'] d IH]; simpl.
  - by rewrite py_eq_refl.
  - destruct (py_eq k' k) eqn:Heq; simpl; by rewrite Heq.
Qed.

Lemma shared_get_set_mono k k2 v2 d :
  is_Some (shared_get k d) -> is_Some (shared_get k (shared_set k2 v2 d)).
Proof.
  induction d as [|[k' v'] d IH]; simpl; [by intros [? ?]|].
  destruct (py_eq k' k2); simpl; destruct (py_eq k' k); eauto.
Qed.

Lemma shared_set_entries (P : list (string * pyobj) -> Prop) k v d :
  P v -> Forall (fun kv => P kv.2) d ->
  Forall (fun kv => P kv.2) (shared_set k v d).
Proof.
  intros Hv. induction 1 as [|[k' v'] d Hkv Hd IH]; simpl.
  - by repeat constructor.
  - destruct (py_eq k' k); constructor; simpl in *; auto.
Qed.

Lemma init_user_columns user entry :
  init_user user = Ok entry -> entry.*1 = InferUsers.fieldnames.
Proof.
  unfold init_user, field.
  repeat (case_match; [|done]). by intros [= <-].
Qed.

Lemma write_object_shared obj s : shared (write_object obj s).2 = shared s.
Proof. by pose proof (write_object_counters obj s) as (_ & _ & Hsh & _). Qed.

Lemma prepare_user_shared user s :
  let r := prepare_user user write_object s in
  shared r.2 = shared s
  \/ exists id entry,
       dict_get "id_str" user = Some id
       /\ init_user user = Ok entry
       /\ shared r.2 = shared_set id entry (shared s).
Proof.
  unfold InferUsers.prepare_user.
  destruct (init_user user) as [entry|e] eqn:Hinit; [|by left].
  unfold field.
  destruct (dict_get "id_str" user) as [id|] eqn:Hid; [|by left].
  right. exists id, entry. split_and!; try done.
  destruct (dict_get "profile_image_url_https" user) as [url|]; [|done].
  destruct (py_eq url (PStr ""));
    (destruct (transform_jsonl_object _) as [obj|e]; [|done]);
    by rewrite write_object_shared.
Qed.

Lemma process_lines_keeps_entries dump min_tweets s k :
  is_Some (shared_get k (shared s)) ->
  is_Some
    (shared_get k (shared (process_lines dump min_tweets write_object s).2)).
Proof.
  revert s. induction dump as [|user dump IH]; intros s Hk; [done|].
  cbn [InferUsers.process_lines].
  destruct (reaches_minimum min_tweets user) as [[|]|e]; [| |done].
  - assert (is_Some (shared_get k
              (shared (prepare_user user write_object (count_user s)).2)))
      as Hk'.
    { destruct (prepare_user_shared user (count_user s))
        as [->|(id & entry & _ & _ & ->)]; [done|].
      by apply shared_get_set_mono. }
    destruct (prepare_user user write_object (count_user s))
      as [[[]|e] s1]; [by apply IH|done].
  - by apply IH.
Qed.

Lemma process_lines_entries (P : list (string * pyobj) -> Prop)
    dump min_tweets s :
  (forall user entry, user ∈ dump -> init_user user = Ok entry -> P entry) ->
  Forall (fun kv => P kv.2) (shared s) ->
  Forall (fun kv => P kv.2)
    (shared (process_lines dump min_tweets write_object s).2).
Proof.
  revert s. induction dump as [|user dump IH]; intros s Hinit Hs; [done|].
  cbn [InferUsers.process_lines].
  assert (forall user' entry,
            user' ∈ dump -> init_user user' = Ok entry -> P entry) as Hrest.
  { intros user' entry Hin. apply Hinit. by right. }
  destruct (reaches_minimum min_tweets user) as [[|]|e]; [| |done].
  - assert (Forall (fun kv => P kv.2)
              (shared (prepare_user user write_object (count_user s)).2))
      as Hs'.
    { destruct (prepare_user_shared user (count_user s))
        as [->|(id & entry & _ & Hentry & ->)]; [done|].
      apply shared_set_entries; [|done].
      apply (Hinit user); [by left|done]. }
    destruct (prepare_user user write_object (count_user s))
      as [[[]|e] s1]; [by apply IH|done].
  - by apply IH.
Qed.

Lemma shared_get_entries (P : list (string * pyobj) -> Prop) k d v :
  Forall (fun kv => P kv.2) d -> shared_get k d = Some v -> P v.
Proof.
  induction 1 as [|[k' v'] d Hkv Hd IH]; simpl; [done|].
  destruct (py_eq k' k); [by intros [= <-]|done].
Qed.

Lemma process_lines_records dump min_tweets s user :
  (process_lines dump min_tweets write_object s).1 = Ok tt ->
  user ∈ dump -> selects min_tweets user = true ->
  exists id,
    dict_get "id_str" user = Some id
    /\ is_Some
         (shared_get id
            (shared (process_lines dump min_tweets write_object s).2)).
Proof.
  revert s. induction dump as [|user' dump IH]; intros s Hok Hin Hsel.
  { by apply elem_of_nil in Hin. }
  cbn [InferUsers.process_lines] in *.
  apply elem_of_cons in Hin as [->|Hin].
  - unfold InferUsers.selects in Hsel.
    destruct (reaches_minimum min_tweets user') as [[|]|e]; try done.
    pose proof (prepare_user_counters user' (count_user s))
      as (_ & _ & _ & Hres).
    destruct (prepare_user user' write_object (count_user s))
      as [[[]|e] s1]; [|done]. cbn [fst snd] in Hres.
    destruct Hres as (_ & _ & id & entry & Hid & _ & Hsh).
    exists id. split; [done|]. apply process_lines_keeps_entries.
    rewrite Hsh. rewrite shared_get_set. by eexists.
  - destruct (reaches_minimum min_tweets user') as [[|]|e]; [| |done].
    + destruct (prepare_user user' write_object (count_user s))
        as [[[]|e] s1]; [|done]. by apply IH.
    + by apply IH.
Qed.

(** X21. What the preprocessing leaves in [shared]. An entry that was
    there before is still found under its key, whatever the outcome; if
    every entry had the columns of the output header, every entry still
    has them; and when the preprocessing returns, every user of the dump
    that reaches the minimum of tweets is found under its ['id_str'], with
    an entry that has the columns of the output header. *)
Theorem preprocessing_fills_shared dump min_tweets shared0 :
  Forall (fun kv => kv.2.*1 = InferUsers.fieldnames) shared0 ->
  let r := preprocess dump min_tweets shared0 in
  Forall (fun kv => kv.2.*1 = InferUsers.fieldnames) (shared r.2)
  /\ (forall k, is_Some (shared_get k shared0) ->
                is_Some (shared_get k (shared r.2)))
  /\ (r.1 = Ok tt ->
      forall user, user ∈ dump -> selects min_tweets user = true ->
        exists id entry,
          dict_get "id_str" user = Some id
          /\ shared_get id (shared r.2) = Some entry
          /\ entry.*1 = InferUsers.fieldnames).
Proof.
  intros Hshape r. subst r. unfold InferUsers.preprocess.
  assert (Forall (fun kv => kv.2.*1 = InferUsers.fieldnames)
            (shared (process_lines dump min_tweets write_object
                       (State (Stats 0 0 0) shared0 [])).2)) as Hafter.
  { apply (process_lines_entries
             (fun entry => entry.*1 = InferUsers.fieldnames)); [|done].
    intros user entry _. apply init_user_columns. }
  split_and!; [done| |].
  - intros k Hk. by apply process_lines_keeps_entries.
  - intros Hok user Hin Hsel.
    destruct (process_lines_records dump min_tweets _ user Hok Hin Hsel)
      as (id & Hid & [entry Hentry]).
    exists id, entry. split_and!; try done.
    by apply (shared_get_entries
                (fun entry => entry.*1 = InferUsers.fieldnames) id _ entry
                Hafter).
Qed.

Lemma init_user_missing_field user :
  Exists (fun key => dict_get key user = None)
    (take 6 InferUsers.fieldnames) ->
  init_user user = Raise KeyError.
Proof.
  intros Hmiss. unfold init_user, field.
  destruct (dict_get "id_str" user) eqn:H1; [|done].
  destruct (dict_get "screen_name" user) eqn:H2; [|done].
  destruct (dict_get "name" user) eqn:H3; [|done].
  destruct (dict_get "tweets" user) eqn:H4; [|done].
  destruct (dict_get "days_tweeted" user) eqn:H5; [|done].
  destruct (dict_get "location" user) eqn:H6; [|done].
  exfalso.
  cbn [take InferUsers.fieldnames] in Hmiss.
  repeat (apply Exists_cons in Hmiss as [Hmiss|Hmiss]; [congruence|]).
  by apply Exists_nil in Hmiss.
Qed.

(** X22. A user that reaches the minimum of tweets but lacks one of the
    six copied fields stops the preprocessing with [KeyError], whatever
    follows in the dump and whoever consumes the generator: the user has
    been counted as read and as to infer, nothing is handed to the
    consumer for it and [shared] is left as it was. *)
Theorem incomplete_user_stops_the_preprocessing
    user dump min_tweets consume s :
  reaches_minimum min_tweets user = Ok true ->
  Exists (fun key => dict_get key user = None)
    (take 6 InferUsers.fieldnames) ->
  process_lines (user :: dump) min_tweets consume s
  = (Raise KeyError,
     State (Stats (users (stats s) + 1) (to_infer (stats s) + 1)
                  (img_errors (stats s)))
           (shared s) (written s)).
Proof.
  intros Hmin Hmiss. cbn [InferUsers.process_lines]. rewrite Hmin.
  unfold InferUsers.prepare_user.
  by rewrite (init_user_missing_field user Hmiss).
Qed.

End PreprocessFacts.


(** * The further properties on examples *)


(** The three posts and the basename "tweets.json", one separator. *)
Lemma short_basename_fails_after_the_aggregation_witness :
  on_demo main Demo.dump "tweets.json" Demo.unfiltered Demo.start
  = (Raise IndexError, on_demo after_aggregation Demo.dump Demo.unfiltered []).
Proof.
  apply (on_demo short_basename_fails_after_the_aggregation
           Demo.dump "tweets.json" Demo.unfiltered Demo.start).
  - reflexivity.
  - done.
  - vm_compute. lia.
Defined.

(** The three posts in a dry run. *)
Lemma dry_run_touches_no_file_witness :
  let args := Args 30 None true "out" None in
  exists events,
    trace (on_demo main Demo.dump Demo.basename args Demo.start).2
    = trace Demo.start ++ events
    /\ Forall (fun ev => ~ touches_files ev) events.
Proof.
  intros args.
  apply (on_demo dry_run_touches_no_file
           Demo.dump Demo.basename args Demo.start).
  reflexivity.
Defined.

(** The run on the three posts. *)
Lemma completed_run_writes_header_rows_and_report_witness :
  let s' := (on_demo main Demo.dump Demo.basename Demo.unfiltered
               Demo.start).2 in
  exists lang out sout events,
    (on_demo process_lines Demo.dump Demo.unfiltered
       (State initial_words_dict (Stats 0 0) (trace Demo.start))).1 = Ok lang
    /\ opened Demo.unfiltered lang out sout events
    /\ trace s'
       = trace (on_demo after_aggregation Demo.dump Demo.unfiltered
                  (trace Demo.start)) ++ events
         ++ written out sout (ranking (words_dict s') 30) (stats s').
Proof.
  intros s'.
  apply (on_demo completed_run_writes_header_rows_and_report
           Demo.dump Demo.basename Demo.unfiltered Demo.start s').
  - reflexivity.
  - vm_compute. reflexivity.
Defined.

(** One post with "happy" twice and "glad" once: the row of "glad" under
    "joy" comes with a row of "happy". *)
Lemma emitted_words_are_the_most_frequent_witness :
  let s := on_demo after_aggregation
             [Tweet "happy happy glad" 1 "en"] Demo.unfiltered [] in
  let rows := (get_first_n_words (stats s) (words_dict s)
                 Demo.unfiltered).1 in
  exists r',
    r' ∈ rows_of_emotion "joy" rows
    /\ row_word r' = "happy"
    /\ row_occurrences r' = count "joy" "happy" (words_dict s).
Proof.
  apply (on_demo emitted_words_are_the_most_frequent
           [Tweet "happy happy glad" 1 "en"] Demo.unfiltered [] "joy"
           (Row "glad" 1 (1 # 3)%Q 1%Q "joy") "happy").
  - compute_done.
  - vm_compute. apply elem_of_cons. right. apply elem_of_cons. by left.
  - vm_compute. reflexivity.
Defined.

(** The rows of "joy" for the three posts. *)
Lemma rows_of_an_emotion_are_sorted_and_distinct_witness :
  let s := on_demo after_aggregation Demo.dump Demo.unfiltered [] in
  let rows := (get_first_n_words (stats s) (words_dict s)
                 Demo.unfiltered).1 in
  StronglySorted (fun r r' => row_occurrences r' <= row_occurrences r)
    (rows_of_emotion "joy" rows)
  /\ NoDup (row_word <$> rows_of_emotion "joy" rows).
Proof.
  apply (on_demo rows_of_an_emotion_are_sorted_and_distinct
           Demo.dump Demo.unfiltered [] "joy").
  compute_done.
Defined.

(** Two words under "joy" and a [top_n] of 30. *)
Lemma large_top_n_emits_every_word_witness :
  let s := on_demo after_aggregation Demo.dump Demo.unfiltered [] in
  let rows := (get_first_n_words (stats s) (words_dict s)
                 Demo.unfiltered).1 in
  row_word <$> rows_of_emotion "joy" rows
  ≡ₚ (emotion_words "joy" (words_dict s)).*1.
Proof.
  apply (on_demo large_top_n_emits_every_word
           Demo.dump Demo.unfiltered [] "joy").
  - compute_done.
  - vm_compute. discriminate.
Defined.

(** The row of "mad" under "anger" for the three posts: one occurrence
    among six matched words. *)
Lemma row_counts_are_positive_and_bounded_witness :
  let s := on_demo after_aggregation Demo.dump Demo.unfiltered [] in
  let r := Row "mad" 1 (1 # 6)%Q (1 # 3)%Q "anger" in
  1 <= row_occurrences r
  /\ row_occurrences r <= total "words" (words_dict s)
  /\ Qlt 0 (row_occ_words r)
  /\ Qle (row_occ_words r) 1.
Proof.
  intros s r.
  destruct (on_demo row_counts_are_positive_and_bounded
              Demo.dump Demo.unfiltered [] r) as (Hpos & Hbound).
  - vm_compute. do 3 (apply elem_of_cons; right).
    apply elem_of_cons. by left.
  - split; [exact Hpos|]. apply Hbound. apply demo_emotion_sets.
Defined.

(** The three posts, and the same with the first two swapped. *)
Lemma counts_do_not_depend_on_the_order_of_the_posts_witness :
  let a := Tweet "happy mad happy thing so" 12 "en" in
  let b := Tweet "glad glad" 13 "en" in
  let c := Tweet "nothing here" 12 "en" in
  (on_demo process_lines [a; b; c] Demo.filtered
     (State initial_words_dict (Stats 0 0) [])).1
  = (on_demo process_lines [b; a; c] Demo.filtered
       (State initial_words_dict (Stats 0 0) [])).1
  /\ same_counts
       (words_dict (on_demo after_aggregation [a; b; c] Demo.filtered []))
       (words_dict (on_demo after_aggregation [b; a; c] Demo.filtered [])).
Proof.
  intros a b c.
  apply (on_demo counts_do_not_depend_on_the_order_of_the_posts
           a [b; c] b [a; c] Demo.filtered []).
  - apply perm_swap.
  - reflexivity.
Defined.

(** A first post in Spanish, for which the small lexicon has nothing. *)
Lemma missing_lexicon_skips_the_aggregation_witness :
  exists logs,
    on_demo process_lines (Tweet "hola" 1 "es" :: Demo.dump)
      Demo.unfiltered Demo.start
    = (Ok None,
       State (words_dict Demo.start) (stats Demo.start)
         (trace Demo.start ++ logs))
    /\ Forall is_log logs
    /\ (users_file Demo.unfiltered = None -> logs = []).
Proof.
  apply (on_demo missing_lexicon_skips_the_aggregation
           (Tweet "hola" 1 "es") Demo.dump Demo.basename Demo.unfiltered
           Demo.start).
  reflexivity.
Defined.

(** "thing" has one emotion, which is not tracked. *)
Lemma tokens_without_tracked_emotions_witness :
  process_word Demo.Emotions Demo.getEmotionName Demo.getEmotionsOfWord
    "thing" Demo.start
  = (Ok tt,
     State (add_total "words" initial_words_dict) (Stats 1 0) []).
Proof.
  destruct (tokens_without_tracked_emotions
              Demo.Emotions Demo.getEmotionName Demo.getEmotionsOfWord
              "thing" Demo.start) as (_ & Hcounted).
  - apply shaped_initial.
  - reflexivity.
  - apply Hcounted. discriminate.
Defined.

(** The first post of the dump, from the fresh state. *)
Lemma process_tweet_never_lowers_a_counter_witness :
  exists s',
    process_tweet Demo.Emotions Demo.getEmotionName Demo.tokenize
      Demo.getEmotionsOfWord Demo.tweet UNone Demo.unfiltered Demo.start
    = (Ok tt, s')
    /\ shaped (words_dict s')
    /\ total "words" (words_dict Demo.start) <= total "words" (words_dict s')
    /\ total "tweets" (words_dict Demo.start)
       <= total "tweets" (words_dict s')
    /\ forall e w,
         count e w (words_dict Demo.start) <= count e w (words_dict s').
Proof.
  apply (on_demo process_tweet_never_lowers_a_counter
           Demo.tweet UNone Demo.unfiltered Demo.start).
  - apply shaped_initial.
  - by left.
Defined.

(** The users file of [Demo]: the identifiers 12 and 14. *)
Lemma json_users_file_loads_its_identifiers_witness :
  get_valid_users Demo.path_exists Demo.open_jsonobjects_file
    Demo.open_csv_file Demo.filtered Demo.start
  = (Ok (USet (list_to_set ["12"; "14"])), Demo.start).
Proof.
  apply (json_users_file_loads_its_identifiers
           Demo.path_exists Demo.open_jsonobjects_file Demo.open_csv_file
           Demo.filtered "users.json"
           [[("id_str", "12")]; [("id_str", "14")]] ["12"; "14"]
           Demo.start).
  - reflexivity.
  - reflexivity.
  - reflexivity.
  - by repeat constructor.
Defined.

(** A users file whose second object has a name and no [id_str]. *)
Lemma one_record_without_id_str_rejects_the_users_file_witness :
  let path_exists := fun _ : string => true in
  let open_jsonobjects_file := fun _ : string =>
    [Yields [("id_str", "12")]; Yields [("name", "x")];
     Yields [("id_str", "13")]] in
  let open_csv_file := fun _ : string => [Fails ValueError] in
  users_truthy
    (loaded_users path_exists open_jsonobjects_file open_csv_file
       Demo.filtered) = false
  /\ exists logs,
       process_lines Demo.Emotions Demo.getEmotionName
         Demo.initEmotionLexicon Demo.tokenize Demo.getEmotionsOfWord
         path_exists open_jsonobjects_file open_csv_file
         Demo.dump Demo.filtered Demo.start
       = (Ok None,
          State (words_dict Demo.start) (stats Demo.start)
            (trace Demo.start ++ logs))
       /\ Log users_not_found ∈ logs.
Proof.
  intros path_exists open_jsonobjects_file open_csv_file.
  apply (one_record_without_id_str_rejects_the_users_file
           Demo.Emotions Demo.getEmotionName Demo.initEmotionLexicon
           Demo.tokenize Demo.getEmotionsOfWord
           path_exists open_jsonobjects_file open_csv_file
           (Tweet "happy mad happy thing so" 12 "en")
           [Tweet "glad glad" 13 "en"; Tweet "nothing here" 12 "en"]
           Demo.filtered "users.json"
           [[("id_str", "12")]] [("name", "x")]
           [Yields [("id_str", "13")]] Demo.start).
  - reflexivity.
  - reflexivity.
  - repeat constructor. by eexists.
  - reflexivity.
Defined.

(** * The preprocessing on examples *)

(** Two users below a minimum of two tweets, one of them without the
    ['tweets'] field. *)
Lemma users_below_the_minimum_are_only_counted_witness :
  InferUsers.preprocess InferUsers.example_int InferUsers.example_exists
    "default.png" InferUsers.example_transform
    [InferUsers.example_user "2" "1" ""; [("id_str", InferUsers.PStr "3")]]
    2 []
  = (Ok tt, InferUsers.State (InferUsers.Stats 2 0 0) [] []).
Proof.
  apply (users_below_the_minimum_are_only_counted
           InferUsers.example_int InferUsers.example_exists
           "default.png" InferUsers.example_transform
           [InferUsers.example_user "2" "1" "";
            [("id_str", InferUsers.PStr "3")]] 2 []).
  by repeat constructor.
Defined.

(** The example dump with a minimum of two tweets, from an empty
    [shared]: the users 1 and 4 are selected. *)
Lemma preprocessing_fills_shared_witness :
  let r := InferUsers.preprocess InferUsers.example_int
             InferUsers.example_exists "default.png"
             InferUsers.example_transform InferUsers.example_dump 2 [] in
  Forall (fun kv => kv.2.*1 = InferUsers.fieldnames)
    (InferUsers.shared r.2)
  /\ (forall k, is_Some (InferUsers.shared_get k []) ->
                is_Some (InferUsers.shared_get k (InferUsers.shared r.2)))
  /\ (r.1 = Ok tt ->
      forall user, user ∈ InferUsers.example_dump ->
        InferUsers.selects InferUsers.example_int 2 user = true ->
        exists id entry,
          dict_get "id_str" user = Some id
          /\ InferUsers.shared_get id (InferUsers.shared r.2) = Some entry
          /\ entry.*1 = InferUsers.fieldnames).
Proof.
  apply (preprocessing_fills_shared
           InferUsers.example_int InferUsers.example_exists "default.png"
           InferUsers.example_transform InferUsers.example_dump 2 []).
  constructor.
Defined.

(** A user with five tweets and no name fields, with a minimum of two. *)
Lemma incomplete_user_stops_the_preprocessing_witness :
  let user := [("id_str", InferUsers.PStr "3");
               ("tweets", InferUsers.PStr "5")] in
  let s := InferUsers.State (InferUsers.Stats 0 0 0) [] [] in
  InferUsers.process_lines InferUsers.example_int
    InferUsers.example_transform (user :: InferUsers.example_dump) 2
    (InferUsers.write_object InferUsers.example_exists "default.png") s
  = (Raise KeyError, InferUsers.State (InferUsers.Stats 1 1 0) [] []).
Proof.
  intros user s.
  apply (incomplete_user_stops_the_preprocessing
           InferUsers.example_int InferUsers.example_transform
           user InferUsers.example_dump 2
           (InferUsers.write_object InferUsers.example_exists "default.png")
           s).
  - reflexivity.
  - apply Exists_cons_tl, Exists_cons_hd. reflexivity.
Defined.
